(** * Ledger: repository contexts and opinionated Git operations

    A shallow embedding of the TypeScript sources

    - [repository-context.ts]  ([detectProvider], [getRemoteUrl],
      [getDefaultBranch], [createRepositoryContext]),
    - [git-service.ts]         ([setRepoPath], [requireContext],
      [pullCurrentBranch], [commitChanges]),
    - [repo-handler.ts]        (the [select-repo] IPC handler),

    together with the properties the design document states about them.

    Conventions of the model.

    - A JavaScript string is a Rocq [string]: a sequence of code units
      below 256 (the Latin-1 range).  [toLowerCase], [trim] and the regular
      expression class [\S] are written out for that range.
    - A promise returned by the [simple-git] library is its settled value,
      a [Reply]: [Resolved v] or [Rejected message].
    - An asynchronous function is a computation in the monad [Prog]: it
      threads a store (the function's mutable locals and the chronological
      list of Git commands issued so far) and ends in a returned value or a
      thrown [Error] message.  The store survives a [throw], as a JavaScript
      [let] variable assigned inside [try] is still visible in [catch].
    - The factory [simpleGit(path)] is a synchronous call that returns a
      handle or throws: simple-git refuses a directory that does not
      exist.
    - A JavaScript number that holds a count is a natural number [N];
      [parseInt] and [++] round as double-precision arithmetic does, so
      they are exact below [2 ^ 53] and stall from there on. *)

From Stdlib Require Import String Ascii List Bool NArith Arith Lia.
From Stdlib Require Import DecimalString DecimalN.
From ExtLib Require Import Structures.Monad Structures.MonadExc Structures.MonadState.
Import ListNotations.
Import MonadNotation.
Local Open Scope list_scope.
Local Open Scope monad_scope.
Local Open Scope string_scope.

(* ===================================================================== *)
(** * JavaScript strings *)
(* ===================================================================== *)

Module JsString.

(** [s.startsWith(p)] *)
Fixpoint startsWith (s p : string) {struct p} : bool :=
  match p, s with
  | EmptyString, _ => true
  | String _ _, EmptyString => false
  | String a p', String b s' => Ascii.eqb a b && startsWith s' p'
  end.

(** [s.includes(p)]: [p] starts at some position of [s]. *)
Fixpoint includes (s p : string) : bool :=
  startsWith s p ||
  match s with
  | EmptyString => false
  | String _ s' => includes s' p
  end.

(** Truthiness of a string: only the empty string is falsy. *)
Definition truthy (s : string) : bool :=
  match s with EmptyString => false | String _ _ => true end.

(** Lower-casing of one code unit below 256: [A-Z] and the Latin-1
    capitals U+00C0..U+00DE except the multiplication sign U+00D7. *)
Definition lowerChar (c : ascii) : ascii :=
  let n := N_of_ascii c in
  if ((65 <=? n) && (n <=? 90))%N then ascii_of_N (n + 32)
  else if ((192 <=? n) && (n <=? 222) && negb (n =? 215))%N then ascii_of_N (n + 32)
  else c.

(** [s.toLowerCase()] *)
Fixpoint toLowerCase (s : string) : string :=
  match s with
  | EmptyString => EmptyString
  | String c s' => String (lowerChar c) (toLowerCase s')
  end.

(** White space and line terminators below 256: TAB, LF, VT, FF, CR,
    SPACE and NBSP.  This is the complement of the class [\S] and the set
    [trim] removes. *)
Definition isWhiteSpace (c : ascii) : bool :=
  let n := N_of_ascii c in
  ((9 <=? n) && (n <=? 13) || (n =? 32) || (n =? 160))%N.

Fixpoint trimStart (s : string) : string :=
  match s with
  | EmptyString => EmptyString
  | String c s' => if isWhiteSpace c then trimStart s' else s
  end.

(** Drops trailing white space: a character is kept when it is not white
    space or when something is kept after it. *)
Fixpoint trimEnd (s : string) : string :=
  match s with
  | EmptyString => EmptyString
  | String c s' =>
      match trimEnd s' with
      | EmptyString => if isWhiteSpace c then EmptyString else String c EmptyString
      | r => String c r
      end
  end.

(** [s.trim()] *)
Definition trim (s : string) : string := trimEnd (trimStart s).

(** The longest prefix matched by [\S*]. *)
Fixpoint takeNonSpace (s : string) : string :=
  match s with
  | EmptyString => EmptyString
  | String c s' => if isWhiteSpace c then EmptyString else String c (takeNonSpace s')
  end.

(** [s] with the prefix [p] removed, when [s] starts with [p]. *)
Fixpoint stripPrefix (p s : string) {struct p} : option string :=
  match p, s with
  | EmptyString, _ => Some s
  | String _ _, EmptyString => None
  | String a p', String b s' => if Ascii.eqb a b then stripPrefix p' s' else None
  end.

(** [s.match(/<lit>(\S+)/)], reduced to its capture group [match[1]]: the
    leftmost position where the literal [lit] is followed by at least one
    non-space character, and the longest run of such characters there. *)
Definition matchAt (lit s : string) : option string :=
  match stripPrefix lit s with
  | Some rest =>
      match takeNonSpace rest with
      | EmptyString => None
      | String c r => Some (String c r)
      end
  | None => None
  end.

Fixpoint matchLiteralThenNonSpace (lit s : string) : option string :=
  match matchAt lit s with
  | Some g => Some g
  | None =>
      match s with
      | EmptyString => None
      | String _ s' => matchLiteralThenNonSpace lit s'
      end
  end.

(** Template-literal rendering of a non-negative integer (below [10 ^ 21],
    where JavaScript prints every digit). *)
Definition ofNumber (n : N) : string := NilEmpty.string_of_uint (N.to_uint n).

(** [p] occurs in [s]: the specification of [includes]. *)
Definition Occurs (p s : string) : Prop :=
  exists pre post : string, s = pre ++ p ++ post.

End JsString.

Import JsString.

(* ===================================================================== *)
(** * repository-context.ts: provider detection *)
(* ===================================================================== *)

Inductive RepositoryProvider : Type :=
| github | gitlab | bitbucket | azure | local.

(** [detectProvider(remoteUrl: string | null)] *)
Definition detectProvider (remoteUrl : option string) : RepositoryProvider :=
  match remoteUrl with
  | None => local
  | Some remoteUrl =>
      if negb (truthy remoteUrl) then local
      else
        let url := toLowerCase remoteUrl in
        if includes url "github.com" then github
        else if includes url "gitlab.com" || includes url "gitlab" then gitlab
        else if includes url "bitbucket.org" || includes url "bitbucket" then bitbucket
        else if includes url "azure.com" || includes url "visualstudio.com" then azure
        else local
  end.

(* ===================================================================== *)
(** * Asynchronous computations over a Git handle *)
(* ===================================================================== *)

(** The settled value of a promise returned by [simple-git]. *)
Inductive Reply (A : Type) : Type :=
| Resolved (value : A)
| Rejected (message : string).
Arguments Resolved {A} value.
Arguments Rejected {A} message.

(** How a function of the program ends. *)
Inductive Outcome (A : Type) : Type :=
| Returned (value : A)
| Thrown (message : string).
Arguments Returned {A} value.
Arguments Thrown {A} message.

(** The Git commands the program issues, with their arguments. *)
Inductive GitCall : Type :=
| CheckIsRepo
| Revparse (args : list string)
| GetRemotes (verbose : bool)
| Remote (args : list string)
| BranchLocal
| Fetch (args : list string)
| Status
| Raw (args : list string)
| Pull (remote branch : string) (options : list string)
| Rebase (args : list string)
| Commit (message : string) (description : option string).

Record Store (V : Type) : Type := mkStore {
  vars : V;                  (* the mutable variables in scope *)
  issued : list GitCall      (* commands issued so far, oldest first *)
}.
Arguments mkStore {V} vars issued.
Arguments vars {V} s.
Arguments issued {V} s.

Definition Prog (V A : Type) : Type := Store V -> Store V * Outcome A.

#[export] Instance Monad_Prog (V : Type) : Monad (Prog V) := {|
  ret := fun _ a s => (s, Returned a);
  bind := fun _ _ m k s =>
    match m s with
    | (s', Returned a) => k a s'
    | (s', Thrown e) => (s', Thrown e)
    end
|}.

(** [throw new Error(e)] and [try { m } catch (error) { h error.message }] *)
#[export] Instance Exc_Prog (V : Type) : MonadExc string (Prog V) := {|
  raise := fun _ e s => (s, Thrown e);
  catch := fun _ m h s =>
    match m s with
    | (s', Returned a) => (s', Returned a)
    | (s', Thrown e) => h e s'
    end
|}.

#[export] Instance State_Prog (V : Type) : MonadState V (Prog V) := {|
  get := fun s => (s, Returned (vars s));
  put := fun v s => (mkStore v (issued s), Returned tt)
|}.

(** [await git.<call>]: the command is recorded, a rejection is thrown. *)
Definition await {V A : Type} (call : GitCall) (reply : Reply A) : Prog V A :=
  fun s =>
    (mkStore (vars s) (issued s ++ [call])%list,
     match reply with
     | Resolved a => Returned a
     | Rejected e => Thrown e
     end).

(** A synchronous call that returns a value or throws. *)
Definition sync {V A : Type} (outcome : Outcome A) : Prog V A :=
  fun s => (s, outcome).

(** [try { m } catch { /* ignore */ }] *)
Definition bestEffort {V A : Type} (m : Prog V A) : Prog V unit :=
  catch (m ;; ret tt) (fun _ => ret tt).

Definition run {V A : Type} (m : Prog V A) (v : V) : Store V * Outcome A :=
  m (mkStore v []).

(* ===================================================================== *)
(** * The part of simple-git the program uses *)
(* ===================================================================== *)

Module RemoteWithRefs.
Record t : Type := mk {
  name : string;
  fetch : string;    (* refs.fetch *)
  push : string      (* refs.push *)
}.
End RemoteWithRefs.

Module BranchSummary.
Record t : Type := mk {
  all : list string;
  current : string;  (* the branch marked as checked out; on a detached HEAD
                        the name Git prints for it, a commit id or a tag;
                        empty when Git lists no branch *)
  detached : bool
}.
End BranchSummary.

Module StatusResult.
Record t : Type := mk {
  modified : list string;
  not_added : list string;
  created : list string;
  deleted : list string;
  staged : list string;
  behind : N
}.
End StatusResult.

(** A [SimpleGit] handle bound to one directory: for each method, the reply
    the repository gives.  No function of the program issues the same
    command with the same arguments twice in one run (see
    [pullCurrentBranch_issues_each_command_once] and
    [createRepositoryContext_issues_each_command_once]), so one reply per
    method and argument list describes every run. *)
Record SimpleGit : Type := mkGit {
  checkIsRepo : Reply bool;
  revparse : list string -> Reply string;
  getRemotes : bool -> Reply (list RemoteWithRefs.t);
  remote : list string -> Reply (option string);   (* string | void *)
  branchLocal : Reply BranchSummary.t;
  fetch : list string -> Reply unit;
  status : Reply StatusResult.t;
  raw : list string -> Reply string;
  pull : string -> string -> list string -> Reply unit;
  rebase : list string -> Reply string;
  commit : string -> option string -> Reply string
}.

(** [xs.includes(x)] on an array of strings. *)
Definition arrayIncludes (xs : list string) (x : string) : bool :=
  existsb (String.eqb x) xs.

(** [xs.length > 0] *)
Definition nonEmpty {A : Type} (xs : list A) : bool :=
  match xs with [] => false | _ :: _ => true end.

(* ===================================================================== *)
(** * repository-context.ts *)
(* ===================================================================== *)

Module RepositoryMetadata.
Record t : Type := mk {
  name : string;
  defaultBranch : string;
  remoteUrl : option string;
  provider : RepositoryProvider;
  lastFetched : option N
}.
End RepositoryMetadata.

Module RepositoryContext.
Record t : Type := mk {
  id : string;
  path : string;
  name : string;
  git : SimpleGit;
  metadata : RepositoryMetadata.t;
  lastAccessed : N
}.
End RepositoryContext.

(** The capture group of [remoteInfo.match(/HEAD branch: (\S+)/)]. *)
Definition matchHeadBranch (remoteInfo : string) : option string :=
  matchLiteralThenNonSpace "HEAD branch: " remoteInfo.

(** [getDefaultBranch(git)].  Each [try] block yields [Some branch] where the
    source returns from inside it, and [None] where control falls out of the
    block or into its empty [catch]. *)
Definition getDefaultBranch {V : Type} (git : SimpleGit) : Prog V string :=
  fromRemote <-
    catch
      (remoteInfo <- await (Remote ["show"; "origin"]) (remote git ["show"; "origin"]) ;;
       match remoteInfo with
       | Some remoteInfo =>
           if truthy remoteInfo then ret (matchHeadBranch remoteInfo) else ret None
       | None => ret None
       end)
      (fun _ => ret None) ;;
  match fromRemote with
  | Some branch => ret branch
  | None =>
      fromLocal <-
        catch
          (branches <- await BranchLocal (branchLocal git) ;;
           let all := BranchSummary.all branches in
           if arrayIncludes all "main" then ret (Some "main")
           else if arrayIncludes all "master" then ret (Some "master")
           else match all with
                | first :: _ => ret (Some first)
                | [] => ret None
                end)
          (fun _ => ret None) ;;
      match fromLocal with
      | Some branch => ret branch
      | None => ret "main"
      end
  end.

(** [remotes.find(r => r.name === 'origin')] *)
Definition findOrigin (remotes : list RemoteWithRefs.t) : option RemoteWithRefs.t :=
  find (fun r => String.eqb (RemoteWithRefs.name r) "origin") remotes.

(** [origin?.refs?.fetch || origin?.refs?.push || null] *)
Definition originUrl (origin : option RemoteWithRefs.t) : option string :=
  match origin with
  | None => None
  | Some r =>
      if truthy (RemoteWithRefs.fetch r) then Some (RemoteWithRefs.fetch r)
      else if truthy (RemoteWithRefs.push r) then Some (RemoteWithRefs.push r)
      else None
  end.

(** [getRemoteUrl(git)] *)
Definition getRemoteUrl {V : Type} (git : SimpleGit) : Prog V (option string) :=
  catch
    (remotes <- await (GetRemotes true) (getRemotes git true) ;;
     ret (originUrl (findOrigin remotes)))
    (fun _ => ret None).

Definition notAGitRepository (repoPath : string) : string :=
  "Path is not a git repository: " ++ repoPath.

Section Platform.

(** What the program takes from its runtime: the [simpleGit] factory
    (the handle bound to a directory, or the error simple-git throws when
    the directory does not exist), Node's [path.basename], the value of the
    [uuidv4()] call and of [new Date()]. *)
Variable simpleGit : string -> Outcome SimpleGit.
Variable basename : string -> string.
Variable uuidv4 : string.
Variable now : N.

(** [createRepositoryContext(repoPath)] *)
Definition createRepositoryContext {V : Type} (repoPath : string)
  : Prog V RepositoryContext.t :=
  git <- sync (simpleGit repoPath) ;;
  isRepo <- await CheckIsRepo (checkIsRepo git) ;;
  if negb isRepo then raise (notAGitRepository repoPath)
  else
    root <- await (Revparse ["--show-toplevel"]) (revparse git ["--show-toplevel"]) ;;
    let actualPath := trim root in
    remoteUrl <- getRemoteUrl git ;;
    defaultBranch <- getDefaultBranch git ;;
    let provider := detectProvider remoteUrl in
    let name := basename actualPath in
    let metadata :=
      RepositoryMetadata.mk name defaultBranch remoteUrl provider None in
    rootGit <- sync (simpleGit actualPath) ;;
    ret (RepositoryContext.mk uuidv4 actualPath name rootGit metadata now).

End Platform.

(* ===================================================================== *)
(** * git-service.ts: opinionated pull *)
(* ===================================================================== *)

Module PullResult.
Record t : Type := mk {
  success : bool;
  message : string;
  hadConflicts : option bool;
  autoStashed : option bool
}.
End PullResult.

Definition stashPushArgs : list string :=
  ["stash"; "push"; "--include-untracked"; "-m"; "ledger-auto-stash-for-pull"].

Definition stashPopArgs : list string := ["stash"; "pop"].

(** [`Pulled ${behind} commit${behind > 1 ? 's' : ''}`] *)
Definition pulledCommits (behind : N) : string :=
  "Pulled " ++ ofNumber behind ++ " commit" ++ (if (1 <? behind)%N then "s" else "").

(** The test on [statusBefore] that decides the auto-stash. *)
Definition hasUncommittedChanges (statusBefore : StatusResult.t) : bool :=
  nonEmpty (StatusResult.modified statusBefore) ||
  nonEmpty (StatusResult.not_added statusBefore) ||
  nonEmpty (StatusResult.created statusBefore) ||
  nonEmpty (StatusResult.deleted statusBefore) ||
  nonEmpty (StatusResult.staged statusBefore).

(** The test on the message of a failed [stash pop]. *)
Definition popConflict (stashMsg : string) : bool :=
  includes stashMsg "conflict" || includes stashMsg "CONFLICT".

(** The tests on the message of a failed pull. *)
Definition pullConflict (errorMessage : string) : bool :=
  includes errorMessage "conflict" ||
  includes errorMessage "CONFLICT" ||
  includes errorMessage "Merge conflict" ||
  includes errorMessage "could not apply".

Definition noTracking (errorMessage : string) : bool :=
  includes errorMessage "no tracking" || includes errorMessage "doesn't track".

(** The body of the [try] block of [pullCurrentBranch].  The store variable
    is the local [didStash]. *)
Definition pullCurrentBranch_try (git : SimpleGit) : Prog bool PullResult.t :=
  branches <- await BranchLocal (branchLocal git) ;;
  let currentBranch := BranchSummary.current branches in
  if negb (truthy currentBranch) then
    ret (PullResult.mk false "Not on a branch (detached HEAD state)" None None)
  else
    await (Fetch ["origin"; currentBranch]) (fetch git ["origin"; currentBranch]) ;;
    statusBefore <- await Status (status git) ;;
    if (StatusResult.behind statusBefore =? 0)%N then
      ret (PullResult.mk true "Already up to date" None None)
    else
      (if hasUncommittedChanges statusBefore then
         await (Raw stashPushArgs) (raw git stashPushArgs) ;;
         put true
       else ret tt) ;;
      await (Pull "origin" currentBranch ["--rebase"])
            (pull git "origin" currentBranch ["--rebase"]) ;;
      didStash <- get ;;
      if didStash : bool then
        catch
          (await (Raw stashPopArgs) (raw git stashPopArgs) ;;
           ret (PullResult.mk true
                  (pulledCommits (StatusResult.behind statusBefore)
                     ++ " and restored your uncommitted changes")
                  None (Some true)))
          (fun stashMsg =>
             if popConflict stashMsg then
               ret (PullResult.mk true
                      "Pulled successfully, but restoring your changes caused conflicts. Please resolve them."
                      (Some true) (Some true))
             else
               ret (PullResult.mk true
                      "Pulled successfully. Your changes are in the stash (run git stash pop to restore)."
                      None (Some true)))
      else
        ret (PullResult.mk true
               (pulledCommits (StatusResult.behind statusBefore) ++ " from origin")
               None None).

(** The [catch (error)] block of [pullCurrentBranch]. *)
Definition pullCurrentBranch_catch (git : SimpleGit) (errorMessage : string)
  : Prog bool PullResult.t :=
  didStash <- get ;;
  (if didStash : bool then bestEffort (await (Raw stashPopArgs) (raw git stashPopArgs))
   else ret tt) ;;
  if pullConflict errorMessage then
    bestEffort (await (Rebase ["--abort"]) (rebase git ["--abort"])) ;;
    ret (PullResult.mk false
           "Pull failed due to conflicts with incoming changes. Please resolve manually."
           (Some true) None)
  else if noTracking errorMessage then
    ret (PullResult.mk true "No remote tracking branch (will be created on push)" None None)
  else
    ret (PullResult.mk false errorMessage None None).

(** [pullCurrentBranch()].  [git] is the module-level variable
    [let git: SimpleGit | null]. *)
Definition pullCurrentBranch (git : option SimpleGit) : Prog bool PullResult.t :=
  match git with
  | None => raise "No repository selected"
  | Some git =>
      put false ;;
      catch (pullCurrentBranch_try git) (pullCurrentBranch_catch git)
  end.

(** One call of [pullCurrentBranch]: the final store ([didStash] and the
    commands issued) and the outcome. *)
Definition callPull (git : option SimpleGit) : Store bool * Outcome PullResult.t :=
  run (pullCurrentBranch git) false.

Definition isStashCall (c : GitCall) : bool :=
  match c with
  | Raw ("stash" :: _) => true
  | _ => false
  end.

Definition isPullCall (c : GitCall) : bool :=
  match c with Pull _ _ _ => true | _ => false end.

Definition isFetchCall (c : GitCall) : bool :=
  match c with Fetch _ => true | _ => false end.

Definition isCommitCall (c : GitCall) : bool :=
  match c with Commit _ _ => true | _ => false end.

Definition isStashPop (c : GitCall) : bool :=
  match c with
  | Raw ["stash"; "pop"] => true
  | _ => false
  end.

(* ===================================================================== *)
(** * git-service.ts: opinionated commit *)
(* ===================================================================== *)

Definition noRepositorySelected : string :=
  "No repository selected. Use RepositoryManager.open() to select a repository.".

(** [requireContext()]; [active] is [getRepositoryManager().getActive()]. *)
Definition requireContext {V : Type} (active : option RepositoryContext.t)
  : Prog V RepositoryContext.t :=
  match active with
  | Some ctx => ret ctx
  | None => raise noRepositorySelected
  end.

(** Modelled from the spec: the result type of [CommitService.commitChanges]
    ([lib/services/commit] is not among the sources).  The spec names three
    results: a structured "behind" result carrying the behind-count, success
    with the new commit's identity, failure with the underlying message. *)
Inductive CommitResult : Type :=
| CommitBehind (behindCount : N)
| CommitSucceeded (commit : string)
| CommitFailed (message : string).

(** Modelled from the spec: [CommitService.commitChanges], which
    [lib/services/commit] defines and the sources do not contain.  Section
    4.4: fetch the remote silently (a failed fetch is not reported and does
    not stop the operation); if the behind-count is positive and
    [force] is false, return the "behind" result without committing;
    otherwise create the commit with the message and the optional
    description; report success with the commit's identity or failure with
    the underlying error message. *)
Definition CommitService_commitChanges (ctx : RepositoryContext.t)
    (message : string) (description : option string) (force : bool)
  : Prog unit CommitResult :=
  let git := RepositoryContext.git ctx in
  catch
    (bestEffort (await (Fetch ["origin"]) (fetch git ["origin"])) ;;
     st <- await Status (status git) ;;
     if (0 <? StatusResult.behind st)%N && negb force then
       ret (CommitBehind (StatusResult.behind st))
     else
       c <- await (Commit message description) (commit git message description) ;;
       ret (CommitSucceeded c))
    (fun e => ret (CommitFailed e)).

(** [commitChanges(message, description?, force = false)] *)
Definition commitChanges (active : option RepositoryContext.t)
    (message : string) (description : option string) (force : option bool)
  : Prog unit CommitResult :=
  let force := match force with Some f => f | None => false end in
  ctx <- requireContext active ;;
  CommitService_commitChanges ctx message description force.

(* ===================================================================== *)
(** * git-service.ts and repo-handler.ts: legacy globals, select-repo *)
(* ===================================================================== *)

(** The state of the main process the handler touches: the two legacy
    globals of git-service.ts, the last path kept by the settings service
    and the state of the repository manager. *)
Record MainProcess (M : Type) : Type := mkMain {
  git : option SimpleGit;
  repoPath : option string;
  lastRepoPath : option string;
  manager : M
}.
Arguments mkMain {M} git repoPath lastRepoPath manager.
Arguments git {M} m.
Arguments repoPath {M} m.
Arguments lastRepoPath {M} m.
Arguments manager {M} m.

Module OpenDialogReturnValue.
Record t : Type := mk {
  canceled : bool;
  filePaths : list string
}.
End OpenDialogReturnValue.

Section Handlers.

Variable simpleGit : string -> Outcome SimpleGit.

(** The repository manager is not among the sources: its state [M] and
    its [open] method are taken as they come.  [open] may change the whole
    main-process state (it drives the legacy-sync callback) and resolves
    to a context or rejects. *)
Variable M : Type.
Variable manager_open :
  string -> MainProcess M -> MainProcess M * Reply RepositoryContext.t.

(** [setRepoPath(newPath)]: [repoPath] is assigned first, so it keeps the
    new path when the factory throws, while [git] keeps the handle it
    had. *)
Definition setRepoPath (newPath : string) : Prog (MainProcess M) unit :=
  s <- get ;;
  put (mkMain (git s) (Some newPath) (lastRepoPath s) (manager s)) ;;
  handle <- sync (simpleGit newPath) ;;
  s <- get ;;
  put (mkMain (Some handle) (repoPath s) (lastRepoPath s) (manager s)).

(** [getRepoPath()] *)
Definition getRepoPath : Prog (MainProcess M) (option string) :=
  s <- get ;; ret (repoPath s).

(** [saveLastRepoPath(path)] of the settings service. *)
Definition saveLastRepoPath (path : string) : Prog (MainProcess M) unit :=
  s <- get ;;
  put (mkMain (git s) (repoPath s) (Some path) (manager s)).

(** [await manager.open(path)] *)
Definition awaitOpen (path : string) : Prog (MainProcess M) RepositoryContext.t :=
  s <- get ;;
  let '(s', reply) := manager_open path s in
  put s' ;;
  match reply with
  | Resolved ctx => ret ctx
  | Rejected e => raise e
  end.

(** The [select-repo] handler, after the dialog has returned [result]. *)
Definition selectRepo (result : OpenDialogReturnValue.t)
  : Prog (MainProcess M) (option string) :=
  let filePaths := OpenDialogReturnValue.filePaths result in
  if OpenDialogReturnValue.canceled result || (length filePaths =? 0)%nat then
    ret None
  else
    (* [filePaths[0]]; the array is not empty here *)
    let selectedPath := hd "" filePaths in
    catch
      (ctx <- awaitOpen selectedPath ;;
       setRepoPath (RepositoryContext.path ctx) ;;
       saveLastRepoPath (RepositoryContext.path ctx) ;;
       ret (Some (RepositoryContext.path ctx)))
      (fun _ =>
         setRepoPath selectedPath ;;
         saveLastRepoPath selectedPath ;;
         ret (Some selectedPath)).

End Handlers.

(* ===================================================================== *)
(** * Sample repositories *)
(* ===================================================================== *)

(** A repository that answers every command successfully: on branch
    [main], three commits behind [origin], with one modified file. *)
Definition sampleStatus : StatusResult.t :=
  StatusResult.mk ["README.md"] [] [] [] [] 3.

Definition sampleGit : SimpleGit := {|
  checkIsRepo := Resolved true;
  revparse := fun _ => Resolved ("/home/me/ledger" ++ String (ascii_of_N 10) "");
  getRemotes := fun _ =>
    Resolved [RemoteWithRefs.mk "origin" "git@gitlab.com:x/y.git" "git@gitlab.com:x/y.git"];
  remote := fun _ => Resolved (Some "  HEAD branch: develop  ");
  branchLocal := Resolved (BranchSummary.mk ["feature"; "main"] "feature" false);
  fetch := fun _ => Resolved tt;
  status := Resolved sampleStatus;
  raw := fun _ => Resolved "";
  pull := fun _ _ _ => Resolved tt;
  rebase := fun _ => Resolved "";
  commit := fun _ _ => Resolved "abc1234"
|}.

(** Field updates of a handle. *)
Definition withCheckIsRepo (r : Reply bool) (g : SimpleGit) : SimpleGit :=
  mkGit r (revparse g) (getRemotes g) (remote g) (branchLocal g) (fetch g)
    (status g) (raw g) (pull g) (rebase g) (commit g).

Definition withGetRemotes (r : Reply (list RemoteWithRefs.t)) (g : SimpleGit)
  : SimpleGit :=
  mkGit (checkIsRepo g) (revparse g) (fun _ => r) (remote g) (branchLocal g)
    (fetch g) (status g) (raw g) (pull g) (rebase g) (commit g).

Definition withRemote (r : Reply (option string)) (g : SimpleGit) : SimpleGit :=
  mkGit (checkIsRepo g) (revparse g) (getRemotes g) (fun _ => r) (branchLocal g)
    (fetch g) (status g) (raw g) (pull g) (rebase g) (commit g).

Definition withBranchLocal (r : Reply BranchSummary.t) (g : SimpleGit) : SimpleGit :=
  mkGit (checkIsRepo g) (revparse g) (getRemotes g) (remote g) r (fetch g)
    (status g) (raw g) (pull g) (rebase g) (commit g).

Definition withStatus (r : Reply StatusResult.t) (g : SimpleGit) : SimpleGit :=
  mkGit (checkIsRepo g) (revparse g) (getRemotes g) (remote g) (branchLocal g)
    (fetch g) r (raw g) (pull g) (rebase g) (commit g).

Definition withStashPop (r : Reply string) (g : SimpleGit) : SimpleGit :=
  mkGit (checkIsRepo g) (revparse g) (getRemotes g) (remote g) (branchLocal g)
    (fetch g) (status g)
    (fun args => if list_eq_dec string_dec args stashPopArgs then r else raw g args)
    (pull g) (rebase g) (commit g).

Definition withPull (r : Reply unit) (g : SimpleGit) : SimpleGit :=
  mkGit (checkIsRepo g) (revparse g) (getRemotes g) (remote g) (branchLocal g)
    (fetch g) (status g) (raw g) (fun _ _ _ => r) (rebase g) (commit g).

(** A repository without a commit: Git lists no branch. *)
Definition unbornGit : SimpleGit :=
  withBranchLocal (Resolved (BranchSummary.mk [] "" false)) sampleGit.

(** Nothing to pull. *)
Definition upToDateStatus : StatusResult.t :=
  StatusResult.mk ["README.md"] [] [] [] [] 0.

Definition upToDateGit : SimpleGit := withStatus (Resolved upToDateStatus) sampleGit.

(** HEAD is detached at the commit [4848fdb].  For the line
    [* (HEAD detached at 4848fdb)] of [git branch] simple-git reports the
    name Git prints, [4848fdb], as [current] and among [all], and sets
    [detached].  A detached HEAD has no upstream, so the status reports
    nothing behind. *)
Definition detachedGit : SimpleGit :=
  withBranchLocal (Resolved (BranchSummary.mk ["4848fdb"; "main"] "4848fdb" true))
    upToDateGit.

(** Behind, with a clean working tree. *)
Definition cleanStatus : StatusResult.t := StatusResult.mk [] [] [] [] [] 1.

Definition cleanGit : SimpleGit := withStatus (Resolved cleanStatus) sampleGit.

(** Restoring the stash after the pull runs into a conflict. *)
Definition popConflictGit : SimpleGit :=
  withStashPop (Rejected "CONFLICT (content): Merge conflict in README.md") sampleGit.

(** The rebase of the pull stops on a conflict. *)
Definition pullConflictGit : SimpleGit :=
  withPull (Rejected "error: could not apply 1a2b3c4... Update README") sampleGit.

(** The selected directory is not inside a working tree. *)
Definition notARepoGit : SimpleGit := withCheckIsRepo (Resolved false) sampleGit.

(** A repository without remotes. *)
Definition noOriginGit : SimpleGit :=
  withRemote (Rejected "fatal: 'origin' does not appear to be a git repository")
    (withGetRemotes (Resolved []) sampleGit).

Definition sampleContext : RepositoryContext.t :=
  RepositoryContext.mk "7c9e6679-7425-40de-944b-e07fc1f90ae7" "/home/me/ledger"
    "ledger" sampleGit
    (RepositoryMetadata.mk "ledger" "develop" (Some "git@gitlab.com:x/y.git")
       gitlab None)
    0.

(** The error simple-git throws when the directory does not exist. *)
Definition directoryDoesNotExist : string :=
  "Cannot use simple-git on a directory that does not exist".

(** A file system in which every directory exists, all of them answering
    as [g]. *)
Definition everywhere (g : SimpleGit) (path : string) : Outcome SimpleGit :=
  Returned g.

(** A file system whose only directories are [/home/me/ledger] and what
    lies below it. *)
Definition onlyLedger (path : string) : Outcome SimpleGit :=
  if startsWith path "/home/me/ledger" then Returned sampleGit
  else Thrown directoryDoesNotExist.

(** A working tree whose root directory has a name that ends in a space;
    Git prints the root followed by a line break. *)
Definition spaceRootGit : SimpleGit :=
  mkGit (checkIsRepo sampleGit)
    (fun _ => Resolved ("/home/me/notes " ++ String (ascii_of_N 10) ""))
    (getRemotes sampleGit) (remote sampleGit) (branchLocal sampleGit) (fetch sampleGit)
    (status sampleGit) (raw sampleGit) (pull sampleGit) (rebase sampleGit)
    (commit sampleGit).

(** The output of [git remote show origin] for a remote that has no
    commit yet: Git cannot tell its HEAD branch. *)
Definition unknownHeadOutput : string :=
  String.concat (String (ascii_of_N 10) "")
    ["* remote origin";
     "  Fetch URL: git@github.com:me/fresh.git";
     "  Push  URL: git@github.com:me/fresh.git";
     "  HEAD branch: (unknown)";
     ""].

(** A local repository on [main] whose remote is still empty. *)
Definition unknownHeadGit : SimpleGit :=
  withRemote (Resolved (Some unknownHeadOutput))
    (withBranchLocal (Resolved (BranchSummary.mk ["main"] "main" false)) sampleGit).

(** A manager that refuses every path, and a dialog that returns one. *)
Definition refusingOpen (path : string) (s : MainProcess unit)
  : MainProcess unit * Reply RepositoryContext.t :=
  (s, Rejected (notAGitRepository path)).

Definition pickedNotes : OpenDialogReturnValue.t :=
  OpenDialogReturnValue.mk false ["/tmp/notes"].

(** A URL that mentions two providers. *)
Definition overlapUrl : string := "https://github.com/gitlabhq/gitlabhq.git".

(* ===================================================================== *)
(** * Vocabulary of the statements *)
(* ===================================================================== *)

(** The URL [u] contains the keyword [p], letter case ignored. *)
Definition Mentions (p u : string) : Prop := Occurs p (toLowerCase u).

(** The reading of provider detection under which every keyword found in
    the URL decides its category by itself. *)
Definition KeywordDecidesAlone : Prop :=
  forall u : string,
    (Occurs "github.com" u -> detectProvider (Some u) = github) /\
    (Occurs "gitlab" u -> detectProvider (Some u) = gitlab) /\
    (Occurs "bitbucket" u -> detectProvider (Some u) = bitbucket) /\
    (Occurs "azure.com" u \/ Occurs "visualstudio.com" u ->
     detectProvider (Some u) = azure).

(** The working tree has uncommitted state: one of the five file lists of
    the status is not empty. *)
Definition Dirty (st : StatusResult.t) : Prop :=
  StatusResult.modified st <> [] \/
  StatusResult.not_added st <> [] \/
  StatusResult.created st <> [] \/
  StatusResult.deleted st <> [] \/
  StatusResult.staged st <> [].

(** A call of [pullCurrentBranch] gets past the fetch and compare steps:
    HEAD is on branch [b], the fetch succeeds and the status [st] reports a
    behind-count that is not zero. *)
Definition BehindRemote (g : SimpleGit) (b : string) (st : StatusResult.t) : Prop :=
  (exists bs, branchLocal g = Resolved bs /\ BranchSummary.current bs = b) /\
  b <> "" /\
  fetch g ["origin"; b] = Resolved tt /\
  status g = Resolved st /\
  StatusResult.behind st <> 0%N.

(** The message of a failed stash pop signals a conflict. *)
Definition SignalsConflict (msg : string) : Prop :=
  Occurs "conflict" msg \/ Occurs "CONFLICT" msg.

(** The message of a failed pull contains a conflict keyword. *)
Definition ConflictKeywords (msg : string) : Prop :=
  Occurs "conflict" msg \/ Occurs "CONFLICT" msg \/
  Occurs "Merge conflict" msg \/ Occurs "could not apply" msg.

(** The message of a failed pull says that no tracking branch is set. *)
Definition NoTrackingBranch (msg : string) : Prop :=
  Occurs "no tracking" msg \/ Occurs "doesn't track" msg.

(** The commands of a pull up to and including the status query. *)
Definition fetchAndCompare (b : string) : list GitCall :=
  [BranchLocal; Fetch ["origin"; b]; Status].

Definition pullRebase (b : string) : GitCall := Pull "origin" b ["--rebase"].

(** The commands of a pull whose rebase has run, up to the restoring of
    the stash: the stash commands are there when a stash was made. *)
Definition aroundPull (stashed : bool) (b : string) : list GitCall :=
  (fetchAndCompare b
   ++ (if stashed then [Raw stashPushArgs] else [])
   ++ [pullRebase b]
   ++ (if stashed then [Raw stashPopArgs] else []))%list.

(** The repository has a remote named [origin]. *)
Definition HasOrigin (g : SimpleGit) : Prop :=
  exists remotes r,
    getRemotes g true = Resolved remotes /\ In r remotes /\
    RemoteWithRefs.name r = "origin".

(** The URL of [origin] as the remotes of the repository give it. *)
Definition remoteUrlOf (g : SimpleGit) : option string :=
  match getRemotes g true with
  | Resolved remotes => originUrl (findOrigin remotes)
  | Rejected _ => None
  end.

(** The HEAD branch the remote advertises, when [remote show origin]
    answers and its output names one. *)
Definition advertisedHead (g : SimpleGit) : option string :=
  match remote g ["show"; "origin"] with
  | Resolved (Some remoteInfo) => matchHeadBranch remoteInfo
  | _ => None
  end.

(** The local branches, none when they cannot be listed. *)
Definition localBranches (g : SimpleGit) : list string :=
  match branchLocal g with
  | Resolved branches => BranchSummary.all branches
  | Rejected _ => []
  end.

(** The default branch in the words of the design: the advertised HEAD
    branch; else local [main]; else local [master]; else the first local
    branch; else the fixed name [main]. *)
Definition defaultBranchOf (g : SimpleGit) : string :=
  match advertisedHead g with
  | Some head => head
  | None =>
      let branches := localBranches g in
      if arrayIncludes branches "main" then "main"
      else if arrayIncludes branches "master" then "master"
      else hd "main" branches
  end.

(** One call of [commitChanges]. *)
Definition callCommit (active : option RepositoryContext.t) (message : string)
    (description : option string) (force : option bool)
  : Store unit * Outcome CommitResult :=
  run (commitChanges active message description force) tt.

(** The commands [getRemoteUrl] and [getDefaultBranch] issue. *)
Definition defaultBranchCalls (g : SimpleGit) : list GitCall :=
  Remote ["show"; "origin"] ::
  match advertisedHead g with
  | Some _ => []
  | None => [BranchLocal]
  end.

(** No character of [s] is white space. *)
Fixpoint noWhiteSpace (s : string) : bool :=
  match s with
  | EmptyString => true
  | String c s' => negb (isWhiteSpace c) && noWhiteSpace s'
  end.

(** One call of [createRepositoryContext]. *)
Definition callCreate (simpleGit : string -> Outcome SimpleGit) (basename : string -> string)
    (uuidv4 : string) (now : N) (repoPath : string)
  : Store unit * Outcome RepositoryContext.t :=
  run (createRepositoryContext simpleGit basename uuidv4 now repoPath) tt.

(* ===================================================================== *)
(** * More JavaScript text operations *)
(* ===================================================================== *)

Module JsText.

(** [s.split(sep)] for a separator of one character.  The result is never
    empty: a string without the separator is its own single part. *)
Fixpoint split (sep : ascii) (s : string) : list string :=
  match s with
  | EmptyString => [EmptyString]
  | String c s' =>
      if Ascii.eqb c sep then EmptyString :: split sep s'
      else match split sep s' with
           | [] => [String c EmptyString]
           | part :: parts => String c part :: parts
           end
  end.

(** [parts.join(sep)] *)
Fixpoint join (sep : string) (parts : list string) : string :=
  match parts with
  | [] => EmptyString
  | [part] => part
  | part :: rest => part ++ sep ++ join sep rest
  end.

(** [s.replace(/^<prefix>/, '')] and, on a string known to start with the
    prefix, [s.replace('<prefix>', '')]. *)
Definition removePrefix (prefix s : string) : string :=
  match stripPrefix prefix s with
  | Some rest => rest
  | None => s
  end.

(** The class [\d]. *)
Definition isDigit (c : ascii) : bool :=
  let n := N_of_ascii c in ((48 <=? n) && (n <=? 57))%N.

(** The longest prefix matched by [\d*], and what follows it. *)
Fixpoint spanDigits (s : string) : string * string :=
  match s with
  | EmptyString => (EmptyString, EmptyString)
  | String c s' =>
      if isDigit c then let (digits, rest) := spanDigits s' in (String c digits, rest)
      else (EmptyString, s)
  end.

(** The double-precision number nearest to the natural number [n], ties
    going to the even mantissa: [n] itself below [2 ^ 53], and from there on
    the nearest number with 53 significant bits.  (The range of a double
    ends at [2 ^ 1024]; what lies beyond is not modelled.) *)
Definition toNumber (n : N) : N :=
  if (n <? 2 ^ 53)%N then n
  else
    let shift := (N.log2 n - 52)%N in
    let mantissa := N.shiftr n shift in
    let dropped := N.land n (N.ones shift) in
    let half := N.shiftl 1 (shift - 1) in
    let roundUp := (half <? dropped)%N || ((dropped =? half)%N && N.odd mantissa) in
    N.shiftl (if roundUp then mantissa + 1 else mantissa)%N shift.

(** [n + 1] as [n++] computes it. *)
Definition increment (n : N) : N := toNumber (n + 1).

(** The digits of a [(\d+)] capture group read as a natural number. *)
Definition digitsValue (digits : string) : N :=
  match NilEmpty.uint_of_string digits with
  | Some d => N.of_uint d
  | None => 0%N
  end.

(** [parseInt(digits)] on the text of a [(\d+)] capture group. *)
Definition parseInt (digits : string) : N := toNumber (digitsValue digits).

(** No character of [s] is [c]. *)
Fixpoint lacks (c : ascii) (s : string) : bool :=
  match s with
  | EmptyString => true
  | String x s' => negb (Ascii.eqb x c) && lacks c s'
  end.

End JsText.

(* ===================================================================== *)
(** * git-service.ts: single-command operations *)
(* ===================================================================== *)

(** The result record [{ success: boolean; message: string }]. *)
Module OpResult.
Record t : Type := mk {
  success : bool;
  message : string
}.
End OpResult.

(** [pullBranch(remoteBranch)] *)
Definition pullBranch (git : option SimpleGit) (remoteBranch : string)
  : Prog unit OpResult.t :=
  match git with
  | None => raise "No repository selected"
  | Some git =>
      catch
        (let cleanBranch := JsText.removePrefix "remotes/" remoteBranch in
         let parts := JsText.split "/" cleanBranch in
         let remote := hd "" parts in            (* parts[0] *)
         let branch := JsText.join "/" (tl parts) in   (* parts.slice(1).join('/') *)
         await (Fetch [remote; branch]) (fetch git [remote; branch]) ;;
         ret (OpResult.mk true ("Fetched " ++ branch ++ " from " ++ remote)))
        (fun errorMessage => ret (OpResult.mk false errorMessage))
  end.

(** The [pull-branch] handler of branch-handler.ts. *)
Definition pullBranchHandler (git : option SimpleGit) (remoteBranch : string)
  : Prog unit OpResult.t :=
  catch (pullBranch git remoteBranch)
        (fun errorMessage => ret (OpResult.mk false errorMessage)).

(** [`stash@{${stashIndex}}`] *)
Definition stashRef (stashIndex : N) : string :=
  "stash@{" ++ ofNumber stashIndex ++ "}".

(** [applyStash(stashIndex)] *)
Definition applyStash (git : option SimpleGit) (stashIndex : N) : Prog unit OpResult.t :=
  match git with
  | None => raise "No repository selected"
  | Some git =>
      catch
        (await (Raw ["stash"; "apply"; stashRef stashIndex])
               (raw git ["stash"; "apply"; stashRef stashIndex]) ;;
         ret (OpResult.mk true ("Applied " ++ stashRef stashIndex)))
        (fun errorMessage => ret (OpResult.mk false errorMessage))
  end.

(** [popStash(stashIndex)] *)
Definition popStash (git : option SimpleGit) (stashIndex : N) : Prog unit OpResult.t :=
  match git with
  | None => raise "No repository selected"
  | Some git =>
      catch
        (await (Raw ["stash"; "pop"; stashRef stashIndex])
               (raw git ["stash"; "pop"; stashRef stashIndex]) ;;
         ret (OpResult.mk true ("Applied and removed " ++ stashRef stashIndex)))
        (fun errorMessage => ret (OpResult.mk false errorMessage))
  end.

(** [dropStash(stashIndex)] *)
Definition dropStash (git : option SimpleGit) (stashIndex : N) : Prog unit OpResult.t :=
  match git with
  | None => raise "No repository selected"
  | Some git =>
      catch
        (await (Raw ["stash"; "drop"; stashRef stashIndex])
               (raw git ["stash"; "drop"; stashRef stashIndex]) ;;
         ret (OpResult.mk true ("Dropped " ++ stashRef stashIndex)))
        (fun errorMessage => ret (OpResult.mk false errorMessage))
  end.

(** [stashToBranch(stashIndex, branchName)] *)
Definition stashToBranch (git : option SimpleGit) (stashIndex : N) (branchName : string)
  : Prog unit OpResult.t :=
  match git with
  | None => raise "No repository selected"
  | Some git =>
      catch
        (await (Raw ["stash"; "branch"; branchName; stashRef stashIndex])
               (raw git ["stash"; "branch"; branchName; stashRef stashIndex]) ;;
         ret (OpResult.mk true
                ("Created branch '" ++ branchName ++ "' from " ++ stashRef stashIndex)))
        (fun errorMessage => ret (OpResult.mk false errorMessage))
  end.

(* ===================================================================== *)
(** * git-service.ts: the list of stashes *)
(* ===================================================================== *)

Module StashEntry.
Record t : Type := mk {
  index : N;
  message : string;
  branch : string;
  date : option string    (* [undefined] when the line has no third field *)
}.
End StashEntry.

Definition stashListArgs : list string := ["stash"; "list"; "--format=%gd|%gs|%ci"].

(** [indexStr.match(/stash@\{(\d+)\}/)], reduced to its capture group: the
    leftmost place where [stash@{] is followed by digits and [}]. *)
Definition matchStashIndexAt (s : string) : option string :=
  match stripPrefix "stash@{" s with
  | Some rest =>
      match JsText.spanDigits rest with
      | (String d ds, String "}" _) => Some (String d ds)
      | _ => None
      end
  | None => None
  end.

Fixpoint matchStashIndex (s : string) : option string :=
  match matchStashIndexAt s with
  | Some digits => Some digits
  | None =>
      match s with
      | EmptyString => None
      | String _ s' => matchStashIndex s'
      end
  end.

(** The longest prefix matched by [[^:]*], and what follows it. *)
Fixpoint spanNotColon (s : string) : string * string :=
  match s with
  | EmptyString => (EmptyString, EmptyString)
  | String c s' =>
      if Ascii.eqb c ":" then (EmptyString, s)
      else let (run, rest) := spanNotColon s' in (String c run, rest)
  end.

(** [[Oo]n ([^:]+)] at the start of [s]: the capture and what follows it. *)
Definition matchOnBranch (s : string) : option (string * string) :=
  match s with
  | String o (String "n" (String " " rest)) =>
      if Ascii.eqb o "O" || Ascii.eqb o "o" then
        match spanNotColon rest with
        | (String c run, after) => Some (String c run, after)
        | _ => None
        end
      else None
  | _ => None
  end.

(** [(?:WIP )?[Oo]n ([^:]+)] at the start of [s]. *)
Definition matchWipOnBranch (s : string) : option (string * string) :=
  match stripPrefix "WIP " s with
  | Some rest =>
      match matchOnBranch rest with
      | Some m => Some m
      | None => matchOnBranch s
      end
  | None => matchOnBranch s
  end.

(** [message.match(/(?:WIP )?[Oo]n ([^:]+):/)], reduced to its capture
    group: the leftmost match in [message]. *)
Definition matchBranchAt (s : string) : option string :=
  match matchWipOnBranch s with
  | Some (name, String ":" _) => Some name
  | _ => None
  end.

Fixpoint matchBranch (message : string) : option string :=
  match matchBranchAt message with
  | Some name => Some name
  | None =>
      match message with
      | EmptyString => None
      | String _ s' => matchBranch s'
      end
  end.

(** [message.replace(/^(?:WIP )?[Oo]n [^:]+: /, '')] *)
Definition stripBranchPrefix (message : string) : string :=
  match matchWipOnBranch message with
  | Some (_, String ":" (String " " rest)) => rest
  | _ => message
  end.

(** The body of the loop of [getStashes] for one line.  A line without a
    [|] leaves [message] undefined, and [message.match] throws. *)
Definition parseStashLine {V : Type} (line : string) : Prog V StashEntry.t :=
  match JsText.split "|" line with
  | indexStr :: message :: rest =>
      let index :=
        match matchStashIndex indexStr with
        | Some digits => JsText.parseInt digits
        | None => 0%N
        end in
      let branch :=
        match matchBranch message with
        | Some name => name
        | None => EmptyString
        end in
      ret (StashEntry.mk index (stripBranchPrefix message) branch (hd_error rest))
  | _ => raise "TypeError: Cannot read properties of undefined (reading 'match')"
  end.

(** [for (const line of lines) { ... stashes.push(...) }] *)
Fixpoint parseStashLines {V : Type} (lines : list string) : Prog V (list StashEntry.t) :=
  match lines with
  | [] => ret []
  | line :: rest =>
      entry <- parseStashLine line ;;
      entries <- parseStashLines rest ;;
      ret (entry :: entries)
  end.

(** [getStashes()] *)
Definition getStashes (git : option SimpleGit) : Prog unit (list StashEntry.t) :=
  match git with
  | None => raise "No repository selected"
  | Some git =>
      catch
        (output <- await (Raw stashListArgs) (raw git stashListArgs) ;;
         if negb (truthy (trim output)) then ret []
         else parseStashLines (JsText.split (ascii_of_N 10) (trim output)))
        (fun _ => ret [])
  end.

(* ===================================================================== *)
(** * git-service.ts: legacy globals *)
(* ===================================================================== *)

Section LegacyState.

Variable simpleGit : string -> Outcome SimpleGit.
Variable M : Type.

(** [clearLegacyState()] *)
Definition clearLegacyState : Prog (MainProcess M) unit :=
  s <- get ;;
  put (mkMain None None (lastRepoPath s) (manager s)).

(** The callback [initializeLegacySync] registers with the manager.  As in
    [setRepoPath], [repoPath] is assigned before the factory is called. *)
Definition legacySyncCallback (newPath : option string) : Prog (MainProcess M) unit :=
  s <- get ;;
  match newPath with
  | Some newPath =>
      if truthy newPath then
        put (mkMain (git s) (Some newPath) (lastRepoPath s) (manager s)) ;;
        handle <- sync (simpleGit newPath) ;;
        s <- get ;;
        put (mkMain (Some handle) (repoPath s) (lastRepoPath s) (manager s))
      else
        put (mkMain None None (lastRepoPath s) (manager s))
  | None => put (mkMain None None (lastRepoPath s) (manager s))
  end.

(** The writes to the legacy globals. *)
Inductive LegacyWrite : Type :=
| SetRepoPath (newPath : string)
| ClearLegacyState
| LegacySync (newPath : option string).

Definition legacyWrite (w : LegacyWrite) : Prog (MainProcess M) unit :=
  match w with
  | SetRepoPath newPath => setRepoPath simpleGit M newPath
  | ClearLegacyState => clearLegacyState
  | LegacySync newPath => legacySyncCallback newPath
  end.

Fixpoint legacyWrites (ws : list LegacyWrite) : Prog (MainProcess M) unit :=
  match ws with
  | [] => ret tt
  | w :: rest => legacyWrite w ;; legacyWrites rest
  end.

End LegacyState.

(* ===================================================================== *)
(** * repo-handler.ts: the other handlers *)
(* ===================================================================== *)

(** [testRepoPath]: the text after the first [=] of the first argument that
    starts with [--repo=], up to the next [=]. *)
Definition testRepoPath (argv : list string) : option string :=
  match find (fun arg => startsWith arg "--repo=") argv with
  | Some arg => nth_error (JsText.split "=" arg) 1
  | None => None
  end.

(** Truthiness of [string | null | undefined]. *)
Definition truthyPath (p : option string) : bool :=
  match p with
  | Some s => truthy s
  | None => false
  end.

(** The string of a path known to be truthy. *)
Definition pathText (p : option string) : string :=
  match p with
  | Some s => s
  | None => EmptyString
  end.

Section MoreHandlers.

Variable simpleGit : string -> Outcome SimpleGit.
Variable M : Type.
Variable manager_open :
  string -> MainProcess M -> MainProcess M * Reply RepositoryContext.t.
(** [manager.getActive()], a lookup in the state of the manager. *)
Variable manager_getActive : M -> option RepositoryContext.t.

(** [getLastRepoPath()] of the settings service: the path [saveLastRepoPath]
    stored last. *)
Definition getLastRepoPath : Prog (MainProcess M) (option string) :=
  s <- get ;; ret (lastRepoPath s).

(** The [get-repo-path] handler. *)
Definition getRepoPathHandler : Prog (MainProcess M) (option string) :=
  s <- get ;;
  match manager_getActive (manager s) with
  | Some active => ret (Some (RepositoryContext.path active))
  | None => getRepoPath M
  end.

(** [try { open, setRepoPath(ctx.path) } catch { setRepoPath(path) }], the
    block [load-saved-repo] runs on the test path and on the saved path. *)
Definition openOrFallBack (path : string) : Prog (MainProcess M) (option string) :=
  catch
    (ctx <- awaitOpen M manager_open path ;;
     setRepoPath simpleGit M (RepositoryContext.path ctx) ;;
     ret (Some (RepositoryContext.path ctx)))
    (fun _ =>
       setRepoPath simpleGit M path ;;
       ret (Some path)).

(** The [load-saved-repo] handler; [testPath] is the module constant
    [testRepoPath]. *)
Definition loadSavedRepo (testPath : option string)
  : Prog (MainProcess M) (option string) :=
  if truthyPath testPath then openOrFallBack (pathText testPath)
  else
    savedPath <- getLastRepoPath ;;
    if truthyPath savedPath then openOrFallBack (pathText savedPath)
    else ret None.

(** The handlers of the earlier [lib/conveyor/handlers/repo-handler.ts],
    which know no repository manager. *)
Definition selectRepoLegacy (result : OpenDialogReturnValue.t)
  : Prog (MainProcess M) (option string) :=
  let filePaths := OpenDialogReturnValue.filePaths result in
  if OpenDialogReturnValue.canceled result || (length filePaths =? 0)%nat then
    ret None
  else
    let path := hd "" filePaths in
    setRepoPath simpleGit M path ;;
    saveLastRepoPath M path ;;
    ret (Some path).

Definition loadSavedRepoLegacy (testPath : option string)
  : Prog (MainProcess M) (option string) :=
  if truthyPath testPath then
    setRepoPath simpleGit M (pathText testPath) ;;
    ret (Some (pathText testPath))
  else
    savedPath <- getLastRepoPath ;;
    if truthyPath savedPath then
      setRepoPath simpleGit M (pathText savedPath) ;;
      ret (Some (pathText savedPath))
    else ret None.

End MoreHandlers.

(* ===================================================================== *)
(** * git-service.ts: the branch name of a converted worktree *)
(* ===================================================================== *)

(** The class [[a-zA-Z0-9_-]] without the dash: letters, digits, underscore. *)
Definition isNameChar (c : ascii) : bool :=
  let n := N_of_ascii c in
  ((97 <=? n) && (n <=? 122) || (65 <=? n) && (n <=? 90)
   || (48 <=? n) && (n <=? 57) || (n =? 95))%N.

Definition isDash (c : ascii) : bool := Ascii.eqb c "-".

(** [.replace(/[^a-zA-Z0-9_-]/g, '-')] *)
Fixpoint replaceOtherChars (s : string) : string :=
  match s with
  | EmptyString => EmptyString
  | String c s' =>
      String (if isNameChar c || isDash c then c else "-"%char) (replaceOtherChars s')
  end.

Definition firstIsDash (s : string) : bool :=
  match s with
  | EmptyString => false
  | String c _ => isDash c
  end.

(** [.replace(/--+/g, '-')]: every run of dashes is left with one dash, so
    a dash that another dash follows is dropped. *)
Fixpoint collapseDashes (s : string) : string :=
  match s with
  | EmptyString => EmptyString
  | String c s' =>
      if isDash c && firstIsDash s' then collapseDashes s'
      else String c (collapseDashes s')
  end.

Definition dropFirstDash (s : string) : string :=
  match s with
  | String c s' => if isDash c then s' else s
  | EmptyString => EmptyString
  end.

Fixpoint dropLastDash (s : string) : string :=
  match s with
  | EmptyString => EmptyString
  | String c EmptyString => if isDash c then EmptyString else s
  | String c s' => String c (dropLastDash s')
  end.

(** [.replace(/^-|-$/g, '')]: one dash at the start and one at the end. *)
Definition trimDashes (s : string) : string := dropLastDash (dropFirstDash s).

(** The branch name [convertWorktreeToBranchForContext] derives from the
    folder name of the worktree; the function refuses an empty one. *)
Definition worktreeBranchName (folderName : string) : string :=
  trimDashes (collapseDashes (replaceOtherChars folderName)).

(** Properties of a name: only letters, digits, underscores and dashes; no
    two dashes in a row; a last character that is a dash; some letter,
    digit or underscore. *)
Fixpoint onlyBranchChars (s : string) : bool :=
  match s with
  | EmptyString => true
  | String c s' => (isNameChar c || isDash c) && onlyBranchChars s'
  end.

Fixpoint noDoubleDash (s : string) : bool :=
  match s with
  | EmptyString => true
  | String c s' => negb (isDash c && firstIsDash s') && noDoubleDash s'
  end.

Fixpoint lastIsDash (s : string) : bool :=
  match s with
  | EmptyString => false
  | String c EmptyString => isDash c
  | String _ s' => lastIsDash s'
  end.

Fixpoint hasNameChar (s : string) : bool :=
  match s with
  | EmptyString => false
  | String c s' => isNameChar c || hasNameChar s'
  end.

(** A name the sanitizing leaves as it is. *)
Definition CleanBranchName (s : string) : Prop :=
  onlyBranchChars s = true /\ noDoubleDash s = true /\
  firstIsDash s = false /\ lastIsDash s = false.

(* ===================================================================== *)
(** * git-service.ts: parsing a unified diff *)
(* ===================================================================== *)

Module StagingDiffLine.
Inductive kind : Type := add | delete | context.
Record t : Type := mk {
  type : kind;
  content : string;
  oldLineNumber : option N;
  newLineNumber : option N
}.
End StagingDiffLine.

Module StagingDiffHunk.
Record t : Type := mk {
  header : string;
  oldStart : N;
  oldLines : N;
  newStart : N;
  newLines : N;
  lines : list StagingDiffLine.t
}.
End StagingDiffHunk.

Module StagingFileDiff.
Inductive fileStatus : Type := added | modified | deleted | renamed | untracked.
Record t : Type := mk {
  filePath : string;
  oldPath : option string;
  status : fileStatus;
  hunks : list StagingDiffHunk.t;
  isBinary : bool;
  additions : N;
  deletions : N
}.
End StagingFileDiff.

(** [.] of a regular expression: any character but a line terminator. *)
Fixpoint noLineTerminator (s : string) : bool :=
  match s with
  | EmptyString => true
  | String c s' =>
      negb (N_of_ascii c =? 10)%N && negb (N_of_ascii c =? 13)%N && noLineTerminator s'
  end.

(** [(?:,(\d+))?] at the start of [s]: the capture, and what follows. *)
Definition optionalCount (s : string) : option string * string :=
  match s with
  | String "," r =>
      match JsText.spanDigits r with
      | (String d ds, rest) => (Some (String d ds), rest)
      | _ => (None, s)
      end
  | _ => (None, s)
  end.

(** The hunk header the source matches with a regular expression anchored
    at both ends: [@@ -], digits, an optional comma and digits, [ +],
    digits, an optional comma and digits, [ @@], and then any characters
    but line terminators up to the end of the line.  The result holds the
    four capture groups of the numbers. *)
Definition matchHunkHeader (line : string)
  : option (string * option string * string * option string) :=
  match stripPrefix "@@ -" line with
  | Some r0 =>
      match JsText.spanDigits r0 with
      | (String d ds, r1) =>
          let (g2, r2) := optionalCount r1 in
          match stripPrefix " +" r2 with
          | Some r3 =>
              match JsText.spanDigits r3 with
              | (String e es, r4) =>
                  let (g4, r5) := optionalCount r4 in
                  match stripPrefix " @@" r5 with
                  | Some rest =>
                      if noLineTerminator rest
                      then Some (String d ds, g2, String e es, g4)
                      else None
                  | None => None
                  end
              | _ => None
              end
          | None => None
          end
      | _ => None
      end
  | None => None
  end.

(** [parseInt(group || '1')] *)
Definition countOrOne (group : option string) : N :=
  match group with
  | Some digits => JsText.parseInt digits
  | None => 1%N
  end.

(** [line.slice(1)] *)
Definition slice1 (line : string) : string :=
  match line with
  | EmptyString => EmptyString
  | String _ rest => rest
  end.

(** The variables of the loop of [parseDiff]. *)
Module DiffParser.
Record t : Type := mk {
  hunks : list StagingDiffHunk.t;
  currentHunk : option StagingDiffHunk.t;
  oldLineNum : N;
  newLineNum : N;
  additions : N;
  deletions : N;
  isBinary : bool;
  status : StagingFileDiff.fileStatus;
  oldPath : option string
}.
End DiffParser.

(** [currentHunk.lines.push(l)] *)
Definition pushLine (h : StagingDiffHunk.t) (l : StagingDiffLine.t) : StagingDiffHunk.t :=
  StagingDiffHunk.mk (StagingDiffHunk.header h) (StagingDiffHunk.oldStart h)
    (StagingDiffHunk.oldLines h) (StagingDiffHunk.newStart h)
    (StagingDiffHunk.newLines h) (StagingDiffHunk.lines h ++ [l])%list.

(** [if (currentHunk) hunks.push(currentHunk)] *)
Definition pushCurrent (hs : list StagingDiffHunk.t) (current : option StagingDiffHunk.t)
  : list StagingDiffHunk.t :=
  match current with
  | Some h => (hs ++ [h])%list
  | None => hs
  end.

(** The body of the loop of [parseDiff] for one line. *)
Definition parseDiffLine (p : DiffParser.t) (line : string) : DiffParser.t :=
  let '(DiffParser.mk hunks currentHunk oldLineNum newLineNum additions deletions
          isBinary status oldPath) := p in
  if startsWith line "Binary files" then
    DiffParser.mk hunks currentHunk oldLineNum newLineNum additions deletions
      true status oldPath
  else if startsWith line "new file mode" then
    DiffParser.mk hunks currentHunk oldLineNum newLineNum additions deletions
      isBinary StagingFileDiff.added oldPath
  else if startsWith line "deleted file mode" then
    DiffParser.mk hunks currentHunk oldLineNum newLineNum additions deletions
      isBinary StagingFileDiff.deleted oldPath
  else if startsWith line "rename from " then
    DiffParser.mk hunks currentHunk oldLineNum newLineNum additions deletions
      isBinary StagingFileDiff.renamed (Some (JsText.removePrefix "rename from " line))
  else
    match matchHunkHeader line with
    | Some (g1, g2, g3, g4) =>
        let oldStart := JsText.parseInt g1 in
        let newStart := JsText.parseInt g3 in
        DiffParser.mk (pushCurrent hunks currentHunk)
          (Some (StagingDiffHunk.mk line oldStart (countOrOne g2) newStart
                   (countOrOne g4) []))
          oldStart newStart additions deletions isBinary status oldPath
    | None =>
        match currentHunk with
        | Some h =>
            if startsWith line "+" && negb (startsWith line "+++") then
              DiffParser.mk hunks
                (Some (pushLine h (StagingDiffLine.mk StagingDiffLine.add (slice1 line)
                                     None (Some newLineNum))))
                oldLineNum (JsText.increment newLineNum)
                (JsText.increment additions) deletions
                isBinary status oldPath
            else if startsWith line "-" && negb (startsWith line "---") then
              DiffParser.mk hunks
                (Some (pushLine h (StagingDiffLine.mk StagingDiffLine.delete (slice1 line)
                                     (Some oldLineNum) None)))
                (JsText.increment oldLineNum) newLineNum additions
                (JsText.increment deletions)
                isBinary status oldPath
            else if startsWith line " " then
              DiffParser.mk hunks
                (Some (pushLine h (StagingDiffLine.mk StagingDiffLine.context (slice1 line)
                                     (Some oldLineNum) (Some newLineNum))))
                (JsText.increment oldLineNum) (JsText.increment newLineNum)
                additions deletions
                isBinary status oldPath
            else p
        | None => p
        end
    end.

(** [parseDiff(diffOutput, filePath)] *)
Definition parseDiff (diffOutput filePath : string) : StagingFileDiff.t :=
  let lines := JsText.split (ascii_of_N 10) diffOutput in
  let p := fold_left parseDiffLine lines
             (DiffParser.mk [] None 0 0 0 0 false StagingFileDiff.modified None) in
  StagingFileDiff.mk filePath (DiffParser.oldPath p) (DiffParser.status p)
    (pushCurrent (DiffParser.hunks p) (DiffParser.currentHunk p))
    (DiffParser.isBinary p) (DiffParser.additions p) (DiffParser.deletions p).

(** How many lines of a kind the hunks hold. *)
Definition isKind (k : StagingDiffLine.kind) (l : StagingDiffLine.t) : bool :=
  match k, StagingDiffLine.type l with
  | StagingDiffLine.add, StagingDiffLine.add => true
  | StagingDiffLine.delete, StagingDiffLine.delete => true
  | StagingDiffLine.context, StagingDiffLine.context => true
  | _, _ => false
  end.

Definition countKind (k : StagingDiffLine.kind) (hs : list StagingDiffHunk.t) : N :=
  N.of_nat (length (filter (isKind k) (flat_map StagingDiffHunk.lines hs))).

(** The line numbers a hunk shows on the new side and on the old side. *)
Definition newNumbers (h : StagingDiffHunk.t) : list N :=
  flat_map (fun l => match StagingDiffLine.newLineNumber l with
                     | Some n => [n]
                     | None => []
                     end) (StagingDiffHunk.lines h).

Definition oldNumbers (h : StagingDiffHunk.t) : list N :=
  flat_map (fun l => match StagingDiffLine.oldLineNumber l with
                     | Some n => [n]
                     | None => []
                     end) (StagingDiffHunk.lines h).

(** [start, start + 1, ..., start + len - 1] *)
Fixpoint countFrom (start : N) (len : nat) : list N :=
  match len with
  | O => []
  | S len' => start :: countFrom (start + 1) len'
  end.

(** The numbers a hunk shows run from its start without a gap, on both
    sides. *)
Definition NumberedHunk (h : StagingDiffHunk.t) : Prop :=
  newNumbers h = countFrom (StagingDiffHunk.newStart h) (length (newNumbers h)) /\
  oldNumbers h = countFrom (StagingDiffHunk.oldStart h) (length (oldNumbers h)).

(** What the loop of [parseDiff] keeps true from line to line. *)
Definition ParserInvariant (p : DiffParser.t) : Prop :=
  let all := pushCurrent (DiffParser.hunks p) (DiffParser.currentHunk p) in
  DiffParser.additions p = countKind StagingDiffLine.add all /\
  DiffParser.deletions p = countKind StagingDiffLine.delete all /\
  Forall NumberedHunk (DiffParser.hunks p) /\
  match DiffParser.currentHunk p with
  | Some h =>
      NumberedHunk h /\
      DiffParser.newLineNum p
        = (StagingDiffHunk.newStart h + N.of_nat (length (newNumbers h)))%N /\
      DiffParser.oldLineNum p
        = (StagingDiffHunk.oldStart h + N.of_nat (length (oldNumbers h)))%N
  | None => True
  end.

(** The line is a hunk header. *)
Definition isHunkHeader (line : string) : bool :=
  match matchHunkHeader line with
  | Some _ => true
  | None => false
  end.

Definition sampleDiff : string :=
  JsText.join (String (ascii_of_N 10) "")
    ["diff --git a/src/app.ts b/src/app.ts";
     "index 1a2b3c4..5d6e7f8 100644";
     "--- a/src/app.ts";
     "+++ b/src/app.ts";
     "@@ -10,4 +10,5 @@ export function main() {";
     "   const a = 1";
     "-  const b = 2";
     "+  const b = 3";
     "+  const c = 4";
     "   return a + b";
     "@@ -40 +41,2 @@";
     " }";
     "+// end";
     ""].

(* ===================================================================== *)
(** * The output of [git stash list] *)
(* ===================================================================== *)

Definition newline : ascii := ascii_of_N 10.

Fixpoint allDigits (s : string) : bool :=
  match s with
  | EmptyString => true
  | String c s' => JsText.isDigit c && allDigits s'
  end.

(** The last character of [s] is there and is not white space. *)
Fixpoint endsInText (s : string) : bool :=
  match s with
  | EmptyString => false
  | String c EmptyString => negb (isWhiteSpace c)
  | String _ s' => endsInText s'
  end.

(** One line of [git stash list --format=%gd|%gs|%ci]: the reference, the
    subject [WIP on <branch>: <message>] (or [On <branch>: <message>] for a
    stash made with a message) and the date. *)
Definition stashLine (wip : bool) (e : StashEntry.t) : string :=
  stashRef (StashEntry.index e) ++ "|"
  ++ (if wip then "WIP on " else "On ") ++ StashEntry.branch e ++ ": "
  ++ StashEntry.message e ++ "|" ++ pathText (StashEntry.date e).

Definition stashListOutput (items : list (bool * StashEntry.t)) : string :=
  String.concat "" (map (fun item => stashLine (fst item) (snd item) ++ String newline "") items).

(** An entry Git can print on one line of that format without ambiguity:
    an index JavaScript numbers hold exactly, a branch name that is not
    empty and has no colon, no field separator and no line break in any
    field, and a date that ends in text. *)
Definition PrintableStash (e : StashEntry.t) : Prop :=
  (StashEntry.index e < 2 ^ 53)%N /\
  StashEntry.branch e <> "" /\
  JsText.lacks ":" (StashEntry.branch e) = true /\
  JsText.lacks "|" (StashEntry.branch e) = true /\
  JsText.lacks newline (StashEntry.branch e) = true /\
  JsText.lacks "|" (StashEntry.message e) = true /\
  JsText.lacks newline (StashEntry.message e) = true /\
  exists d,
    StashEntry.date e = Some d /\
    JsText.lacks "|" d = true /\ JsText.lacks newline d = true /\
    endsInText d = true.

Definition sampleStashes : list (bool * StashEntry.t) :=
  [(false, StashEntry.mk 0 "ledger-auto-stash-for-pull" "feature"
             (Some "2026-01-05 10:12:44 +0100"));
   (true, StashEntry.mk 1 "1a2b3c4 Add login form" "main"
            (Some "2026-01-02 18:03:10 +0100"))].

(** Every character of [s] is white space. *)
Fixpoint allWhiteSpace (s : string) : bool :=
  match s with
  | EmptyString => true
  | String c s' => isWhiteSpace c && allWhiteSpace s'
  end.

(** The first character of [s] is there and is not white space. *)
Definition startsInText (s : string) : bool :=
  match s with
  | EmptyString => false
  | String c _ => negb (isWhiteSpace c)
  end.

(** A line that is a hunk header starts, on both sides, at a number that
    stays below [2 ^ 53] when [total] is added. *)
Definition headerWithinRange (total : N) (line : string) : bool :=
  match matchHunkHeader line with
  | Some (g1, _, g3, _) =>
      (JsText.parseInt g1 + total <? 2 ^ 53)%N &&
      (JsText.parseInt g3 + total <? 2 ^ 53)%N
  | None => true
  end.

(** The numbers of a diff stay where JavaScript counts exactly: the number
    of lines, and every start of a hunk header plus the number of lines,
    are below [2 ^ 53]. *)
Definition diffWithinRange (diffOutput : string) : bool :=
  let lines := JsText.split (ascii_of_N 10) diffOutput in
  let total := N.of_nat (length lines) in
  (total <? 2 ^ 53)%N && forallb (headerWithinRange total) lines.

(** With [remaining] lines still to read, no counter of the parser can
    reach [2 ^ 53]. *)
Definition CountersBelow (p : DiffParser.t) (remaining : N) : Prop :=
  (DiffParser.additions p + remaining < 2 ^ 53)%N /\
  (DiffParser.deletions p + remaining < 2 ^ 53)%N /\
  match DiffParser.currentHunk p with
  | Some _ =>
      (DiffParser.newLineNum p + remaining < 2 ^ 53)%N /\
      (DiffParser.oldLineNum p + remaining < 2 ^ 53)%N
  | None => True
  end.

(** A diff whose hunk starts where JavaScript stops counting. *)
Definition farDiff : string :=
  JsText.join (String (ascii_of_N 10) "")
    ["@@ -1,2 +9007199254740992,2 @@";
     "+first";
     "+second"].

(* ===================================================================== *)
(** * More sample values *)
(* ===================================================================== *)

Definition withFetch (r : Reply unit) (g : SimpleGit) : SimpleGit :=
  mkGit (checkIsRepo g) (revparse g) (getRemotes g) (remote g) (branchLocal g)
    (fun _ => r) (status g) (raw g) (pull g) (rebase g) (commit g).

Definition withRaw (r : list string -> Reply string) (g : SimpleGit) : SimpleGit :=
  mkGit (checkIsRepo g) (revparse g) (getRemotes g) (remote g) (branchLocal g)
    (fetch g) (status g) r (pull g) (rebase g) (commit g).

(** The current branch has no counterpart on the remote. *)
Definition offlineGit : SimpleGit :=
  withFetch (Rejected "fatal: couldn't find remote ref fix-conflict") sampleGit.

(** A manager that opens every path at its root [/home/me/ledger]. *)
Definition acceptingOpen (path : string) (s : MainProcess unit)
  : MainProcess unit * Reply RepositoryContext.t :=
  (s, Resolved sampleContext).

(** The legacy handle is bound to the legacy path: both unset, or the handle
    is the one [simpleGit] gives for [repoPath]. *)
Definition LegacyConsistent {M : Type} (simpleGit : string -> Outcome SimpleGit)
    (s : MainProcess M) : Prop :=
  match repoPath s with
  | Some p => exists handle, simpleGit p = Returned handle /\ git s = Some handle
  | None => git s = None
  end.

(** The factory returns a handle for every path the writes name: those
    directories exist. *)
Definition directoriesExist (simpleGit : string -> Outcome SimpleGit)
    (ws : list LegacyWrite) : Prop :=
  forall path,
    In (SetRepoPath path) ws \/ (In (LegacySync (Some path)) ws /\ path <> "") ->
    exists handle, simpleGit path = Returned handle.

(** A manager whose [open] always rejects and leaves the state alone. *)
Definition ManagerUnavailable {M : Type}
    (manager_open : string -> MainProcess M -> MainProcess M * Reply RepositoryContext.t)
  : Prop :=
  forall path s, exists e, manager_open path s = (s, Rejected e).

(** A command line of the test runs. *)
Definition testArgv : list string :=
  ["/usr/bin/electron"; "."; "--repo=/tmp/fixture"; "--inspect=9229"].

(** Creating the stash fails. *)
Definition stashFailsGit : SimpleGit :=
  withRaw (fun _ => Rejected "error: unable to write the index") sampleGit.

(** The index is locked by another Git process: the stash command is
    refused. *)
Definition lockedIndexGit : SimpleGit :=
  withRaw (fun _ => Rejected "fatal: Unable to create '.git/index.lock': File exists.")
    sampleGit.

(** The status lists a modified file, but [git stash push] finds nothing it
    can save and says so, with exit code 0: no stash is made. *)
Definition nothingToSaveGit : SimpleGit :=
  withRaw (fun args =>
             if list_eq_dec string_dec args stashPopArgs
             then Resolved "Dropped refs/stash@{0} (older work of the user)"
             else Resolved "No local changes to save")
    sampleGit.

(* ===================================================================== *)
(** * Properties of the string operations *)
(* ===================================================================== *)

Lemma startsWith_iff (s p : string) :
  startsWith s p = true <-> exists post, s = p ++ post.
Proof.
  revert s; induction p as [|a p IH]; intros s; simpl.
  - split; [intros _; now exists s | reflexivity].
  - destruct s as [|b s].
    + split; [discriminate | intros [post H]; discriminate].
    + rewrite andb_true_iff, Ascii.eqb_eq, IH. split.
      * intros [-> [post ->]]. now exists post.
      * intros [post H]. injection H as -> ->. split; [reflexivity | now exists post].
Qed.

Lemma includes_iff (s p : string) : includes s p = true <-> Occurs p s.
Proof.
  split.
  - induction s as [|c s IH]; simpl; rewrite orb_true_iff.
    + intros [H | H]; [|discriminate].
      apply startsWith_iff in H as [post ->]. now exists "", post.
    + intros [H | H].
      * apply startsWith_iff in H as [post ->]. now exists "", post.
      * destruct (IH H) as (pre & post & ->). now exists (String c pre), post.
  - intros (pre & post & ->).
    induction pre as [|c pre IH].
    + destruct (p ++ post) eqn:E; simpl; rewrite <- E;
        (replace (startsWith (p ++ post) p) with true;
         [reflexivity | symmetry; apply startsWith_iff; now exists post]).
    + simpl. rewrite orb_true_iff. right. exact IH.
Qed.

Lemma includes_false_iff (s p : string) : includes s p = false <-> ~ Occurs p s.
Proof.
  rewrite <- includes_iff. destruct (includes s p); split; congruence.
Qed.

Lemma append_assoc (a b c : string) : (a ++ b) ++ c = a ++ (b ++ c).
Proof. induction a as [|x a IH]; simpl; [reflexivity | now rewrite IH]. Qed.

Lemma Occurs_weaken (p q s : string) : Occurs (p ++ q) s -> Occurs p s.
Proof.
  intros (pre & post & ->). exists pre, (q ++ post).
  now rewrite append_assoc.
Qed.

Lemma toLowerCase_app (a b : string) :
  toLowerCase (a ++ b) = toLowerCase a ++ toLowerCase b.
Proof. induction a as [|c a IH]; simpl; [reflexivity | now rewrite IH]. Qed.

(** A keyword written in lower case that occurs in a URL still occurs after
    the URL is lower-cased. *)
Lemma Occurs_toLowerCase (p s : string) :
  toLowerCase p = p -> Occurs p s -> Occurs p (toLowerCase s).
Proof.
  intros Hp (pre & post & ->).
  exists (toLowerCase pre), (toLowerCase post).
  now rewrite !toLowerCase_app, Hp.
Qed.

Lemma arrayIncludes_iff (xs : list string) (x : string) :
  arrayIncludes xs x = true <-> In x xs.
Proof.
  unfold arrayIncludes. rewrite existsb_exists. split.
  - intros (y & Hy & E). apply String.eqb_eq in E. now subst.
  - intros H. exists x. split; [assumption | apply String.eqb_refl].
Qed.

(* ===================================================================== *)
(** * Provider detection *)
(* ===================================================================== *)

Example detectProvider_doc_1 :
  detectProvider (Some "https://github.com/user/repo.git") = github.
Proof. reflexivity. Qed.

Example detectProvider_doc_2 :
  detectProvider (Some "git@gitlab.com:user/repo.git") = gitlab.
Proof. reflexivity. Qed.

Example detectProvider_doc_3 : detectProvider None = local.
Proof. reflexivity. Qed.

Example detectProvider_upper_case :
  detectProvider (Some "HTTPS://DEV.AZURE.COM/org/project") = azure.
Proof. reflexivity. Qed.

(** The code of [detectProvider] on a string, with each test read as an
    occurrence of its keyword. *)
Lemma detectProvider_tests (u : string) :
  detectProvider (Some u) =
    if includes (toLowerCase u) "github.com" then github
    else if includes (toLowerCase u) "gitlab" then gitlab
    else if includes (toLowerCase u) "bitbucket" then bitbucket
    else if includes (toLowerCase u) "azure.com"
            || includes (toLowerCase u) "visualstudio.com" then azure
    else local.
Proof.
  unfold detectProvider.
  destruct u as [|c u]; [reflexivity|].
  cbv beta iota delta [truthy negb].
  set (url := toLowerCase (String c u)).
  assert (Hsub : forall p q, includes url (p ++ q) = true -> includes url p = true).
  { intros p q H. apply includes_iff. apply includes_iff in H.
    eapply Occurs_weaken; eassumption. }
  destruct (includes url "github.com"); [reflexivity|].
  destruct (includes url "gitlab") eqn:Egl.
  - now rewrite orb_true_r.
  - destruct (includes url "gitlab.com") eqn:E1.
    + apply (Hsub "gitlab" ".com") in E1. congruence.
    + cbn [orb].
      destruct (includes url "bitbucket") eqn:Ebb.
      * now rewrite orb_true_r.
      * destruct (includes url "bitbucket.org") eqn:E2.
        -- apply (Hsub "bitbucket" ".org") in E2. congruence.
        -- reflexivity.
Qed.

(** C9 (as amended).  [detectProvider] tests the keywords on the whole
    lower-cased URL in the fixed order github.com, gitlab, bitbucket,
    azure.com / visualstudio.com, and answers with the first one found: a
    URL that mentions github.com is [github]; one that mentions gitlab but
    not github.com is [gitlab]; one that mentions bitbucket and neither of
    the former is [bitbucket]; one that mentions azure.com or
    visualstudio.com and none of the former is [azure]; a URL that mentions
    none of them, and the null URL, are [local]. *)
Theorem detectProvider_first_match (u : string) :
  (Mentions "github.com" u -> detectProvider (Some u) = github) /\
  (~ Mentions "github.com" u -> Mentions "gitlab" u ->
   detectProvider (Some u) = gitlab) /\
  (~ Mentions "github.com" u -> ~ Mentions "gitlab" u ->
   Mentions "bitbucket" u -> detectProvider (Some u) = bitbucket) /\
  (~ Mentions "github.com" u -> ~ Mentions "gitlab" u ->
   ~ Mentions "bitbucket" u ->
   Mentions "azure.com" u \/ Mentions "visualstudio.com" u ->
   detectProvider (Some u) = azure) /\
  (~ Mentions "github.com" u -> ~ Mentions "gitlab" u ->
   ~ Mentions "bitbucket" u -> ~ Mentions "azure.com" u ->
   ~ Mentions "visualstudio.com" u -> detectProvider (Some u) = local) /\
  detectProvider None = local.
Proof.
  unfold Mentions. rewrite detectProvider_tests.
  repeat match goal with
         | |- context [includes ?s ?p] =>
             let E := fresh "E" in
             destruct (includes s p) eqn:E;
             [apply includes_iff in E | apply includes_false_iff in E]
         end;
    cbn [orb]; repeat split; intros; try reflexivity; try tauto.
Qed.

(** The first clause at the documented GitLab URL. *)
Lemma detectProvider_first_match_witness :
  detectProvider (Some "git@gitlab.com:x/y.git") = gitlab.
Proof.
  apply (proj1 (proj2 (detectProvider_first_match "git@gitlab.com:x/y.git"))).
  - intros H. apply includes_iff in H. discriminate H.
  - apply includes_iff. reflexivity.
Defined.

(** A keyword in lower case that occurs in the URL as written is also
    mentioned by it; so a URL containing github.com is always [github]. *)
Corollary detectProvider_github (u : string) :
  Occurs "github.com" u -> detectProvider (Some u) = github.
Proof.
  intros H. apply (Occurs_toLowerCase "github.com" u eq_refl) in H.
  apply includes_iff in H. rewrite detectProvider_tests. now rewrite H.
Qed.

(** C9 (as stated) fails: the address of GitHub's mirror of GitLab contains
    both github.com and gitlab, so it matches two categories, and it is
    classified [github], not [gitlab]. *)
Lemma detectProvider_categories_overlap :
  Occurs "github.com" overlapUrl /\
  Occurs "gitlab" overlapUrl /\
  detectProvider (Some overlapUrl) = github /\
  ~ KeywordDecidesAlone.
Proof.
  assert (Hgl : Occurs "gitlab" overlapUrl) by (apply includes_iff; reflexivity).
  repeat split.
  - apply includes_iff. reflexivity.
  - exact Hgl.
  - intros H. destruct (H overlapUrl) as (_ & Hg & _).
    specialize (Hg Hgl). discriminate Hg.
Qed.

(* ===================================================================== *)
(** * Opinionated pull *)
(* ===================================================================== *)

Example pull_sample :
  callPull (Some sampleGit) =
    (mkStore true
       [BranchLocal; Fetch ["origin"; "feature"]; Status; Raw stashPushArgs;
        Pull "origin" "feature" ["--rebase"]; Raw stashPopArgs],
     Returned (PullResult.mk true
                 "Pulled 3 commits and restored your uncommitted changes"
                 None (Some true))).
Proof. reflexivity. Qed.

Example pull_without_repository :
  callPull None = (mkStore false [], Thrown "No repository selected").
Proof. reflexivity. Qed.

(** Unfolds one call of [pullCurrentBranch] down to the replies of the
    handle. *)
Ltac pull_unfold :=
  unfold callPull, run, pullCurrentBranch, pullCurrentBranch_try,
    pullCurrentBranch_catch, bestEffort, await;
  cbn [bind ret raise catch get put Monad_Prog Exc_Prog State_Prog vars issued app].

(** The guard of [pullCurrentBranch]: when the branch query names no
    current branch, the call returns the failure result; the only command
    issued is the branch query, so nothing is fetched and nothing is
    stashed.  The guard tests the name alone, not the [detached] flag. *)
Lemma pull_without_current_branch (g : SimpleGit) (bs : BranchSummary.t) :
  branchLocal g = Resolved bs ->
  BranchSummary.current bs = "" ->
  callPull (Some g) =
    (mkStore false [BranchLocal],
     Returned (PullResult.mk false "Not on a branch (detached HEAD state)" None None))
  /\ (forall c, In c (issued (fst (callPull (Some g)))) ->
                isFetchCall c = false /\ isStashCall c = false).
Proof.
  intros Hb Hc.
  assert (E : callPull (Some g) =
    (mkStore false [BranchLocal],
     Returned (PullResult.mk false "Not on a branch (detached HEAD state)" None None))).
  { pull_unfold. rewrite Hb. cbn. rewrite Hc. reflexivity. }
  split; [exact E|].
  rewrite E. cbn. intros c [<- | []]. split; reflexivity.
Qed.

Example pull_unborn_branch :
  callPull (Some unbornGit) =
    (mkStore false [BranchLocal],
     Returned (PullResult.mk false "Not on a branch (detached HEAD state)" None None)).
Proof. reflexivity. Qed.

Lemma truthy_iff (s : string) : truthy s = true <-> s <> "".
Proof. destruct s; simpl; split; congruence. Qed.

Lemma nonEmpty_iff {A : Type} (xs : list A) : nonEmpty xs = true <-> xs <> [].
Proof. destruct xs; simpl; split; congruence. Qed.

Lemma hasUncommittedChanges_iff (st : StatusResult.t) :
  hasUncommittedChanges st = true <-> Dirty st.
Proof.
  unfold hasUncommittedChanges, Dirty.
  now rewrite !orb_true_iff, !nonEmpty_iff, <- !or_assoc.
Qed.

Lemma hasUncommittedChanges_false_iff (st : StatusResult.t) :
  hasUncommittedChanges st = false <-> ~ Dirty st.
Proof.
  rewrite <- hasUncommittedChanges_iff.
  destruct (hasUncommittedChanges st); split; congruence.
Qed.

(** Runs the call through the fetch and compare steps. *)
Ltac pull_past_compare H :=
  let bs := fresh "bs" in
  let Hbs := fresh "Hbs" in
  let Hcur := fresh "Hcur" in
  let Hne := fresh "Hne" in
  let Hf := fresh "Hf" in
  let Hs := fresh "Hs" in
  let Hbeh := fresh "Hbeh" in
  destruct H as ((bs & Hbs & Hcur) & Hne & Hf & Hs & Hbeh);
  apply truthy_iff in Hne;
  pull_unfold;
  rewrite Hbs; cbn [negb]; rewrite Hcur, Hne; cbn [negb];
  rewrite Hf, Hs;
  try (apply N.eqb_neq in Hbeh; rewrite Hbeh).

(** C2.  When the status taken after the fetch reports a behind-count of
    zero, the call returns success with the message "Already up to date";
    the commands issued are the branch query, the fetch and the status, so
    no stash command and no pull command is executed. *)
Theorem pull_already_up_to_date (g : SimpleGit) (bs : BranchSummary.t)
    (st : StatusResult.t) :
  branchLocal g = Resolved bs ->
  BranchSummary.current bs <> "" ->
  fetch g ["origin"; BranchSummary.current bs] = Resolved tt ->
  status g = Resolved st ->
  StatusResult.behind st = 0%N ->
  callPull (Some g) =
    (mkStore false (fetchAndCompare (BranchSummary.current bs)),
     Returned (PullResult.mk true "Already up to date" None None))
  /\ (forall c, In c (issued (fst (callPull (Some g)))) ->
                isStashCall c = false /\ isPullCall c = false).
Proof.
  intros Hbs Hne Hf Hs Hbeh.
  assert (E : callPull (Some g) =
    (mkStore false (fetchAndCompare (BranchSummary.current bs)),
     Returned (PullResult.mk true "Already up to date" None None))).
  { apply truthy_iff in Hne. pull_unfold.
    rewrite Hbs; cbn [negb]; rewrite Hne; cbn [negb].
    rewrite Hf, Hs, Hbeh. reflexivity. }
  split; [exact E|].
  rewrite E. cbn. intros c [<- | [<- | [<- | []]]]; split; reflexivity.
Qed.

Lemma pull_already_up_to_date_witness :
  callPull (Some upToDateGit) =
    (mkStore false (fetchAndCompare "feature"),
     Returned (PullResult.mk true "Already up to date" None None)).
Proof.
  apply (pull_already_up_to_date upToDateGit
           (BranchSummary.mk ["feature"; "main"] "feature" false) upToDateStatus);
    try reflexivity; discriminate.
Defined.

(** Case analysis on every reply and every test still undecided. *)
Ltac pull_cases :=
  repeat (cbn [bind ret raise catch get put Monad_Prog Exc_Prog State_Prog
               vars issued app fst snd negb];
          match goal with
          | |- context [match ?r with Resolved _ => _ | Rejected _ => _ end] =>
              destruct r eqn:?
          | |- context [if ?b then _ else _] => destruct b eqn:?
          end).

(** C6.  What the code does while HEAD is detached.  simple-git then
    reports [detached] together with a [current] that is not empty (the
    commit id or tag Git prints), so the guard on the branch name does not
    fire: the second command of the call is a fetch of that name from
    [origin], and when the fetch succeeds and the status reports nothing
    behind, the call returns the success result "Already up to date"
    instead of the failure result. *)
Theorem pull_detached_head_fetches (g : SimpleGit) (bs : BranchSummary.t) :
  branchLocal g = Resolved bs ->
  BranchSummary.detached bs = true ->
  BranchSummary.current bs <> "" ->
  (exists rest,
     issued (fst (callPull (Some g))) =
       BranchLocal :: Fetch ["origin"; BranchSummary.current bs] :: rest) /\
  (forall st,
     fetch g ["origin"; BranchSummary.current bs] = Resolved tt ->
     status g = Resolved st ->
     StatusResult.behind st = 0%N ->
     snd (callPull (Some g)) =
       Returned (PullResult.mk true "Already up to date" None None)).
Proof.
  intros Hbs _ Hne. apply truthy_iff in Hne. split.
  - pull_unfold. rewrite Hbs; cbn [negb]; rewrite Hne; cbn [negb].
    pull_cases; eexists; reflexivity.
  - intros st Hf Hs Hbeh. pull_unfold.
    rewrite Hbs; cbn [negb]; rewrite Hne; cbn [negb].
    rewrite Hf, Hs, Hbeh. reflexivity.
Qed.

Lemma pull_detached_head_fetches_witness :
  (exists rest,
     issued (fst (callPull (Some detachedGit))) =
       BranchLocal :: Fetch ["origin"; "4848fdb"] :: rest) /\
  snd (callPull (Some detachedGit)) =
    Returned (PullResult.mk true "Already up to date" None None).
Proof.
  destruct (pull_detached_head_fetches detachedGit
              (BranchSummary.mk ["4848fdb"; "main"] "4848fdb" true)
              eq_refl eq_refl) as [Hfetch Hresult]; [discriminate|].
  split; [exact Hfetch|].
  apply (Hresult upToDateStatus); reflexivity.
Defined.

(** C1.  When the branch is behind its remote and the working tree is
    dirty, the first command after the status is
    [git stash push --include-untracked -m ledger-auto-stash-for-pull],
    issued before any pull.  The code does not look at what Git answers:
    once the command has resolved, [didStash] is [true] and the next command
    is the pull from [origin] with [--rebase]; when the command is rejected,
    [didStash] stays [false] and no pull is issued.  When the working tree
    is clean, the command after the status is the pull with [--rebase],
    [didStash] stays [false] and no stash command is issued. *)
Theorem pull_stashes_dirty_tree_then_rebases (g : SimpleGit) (b : string)
    (st : StatusResult.t) :
  BehindRemote g b st ->
  let stash :=
    ["stash"; "push"; "--include-untracked"; "-m"; "ledger-auto-stash-for-pull"] in
  let compared := [BranchLocal; Fetch ["origin"; b]; Status] in
  (Dirty st ->
     (exists rest,
        issued (fst (callPull (Some g))) = (compared ++ Raw stash :: rest)%list) /\
     (forall out, raw g stash = Resolved out ->
        vars (fst (callPull (Some g))) = true /\
        exists rest,
          issued (fst (callPull (Some g))) =
            (compared ++ Raw stash :: Pull "origin" b ["--rebase"] :: rest)%list) /\
     (forall e, raw g stash = Rejected e ->
        vars (fst (callPull (Some g))) = false /\
        (forall c, In c (issued (fst (callPull (Some g)))) -> isPullCall c = false)))
  /\
  (~ Dirty st ->
     vars (fst (callPull (Some g))) = false /\
     (exists rest,
        issued (fst (callPull (Some g))) =
          (compared ++ Pull "origin" b ["--rebase"] :: rest)%list) /\
     (forall c, In c (issued (fst (callPull (Some g)))) -> isStashCall c = false)).
Proof.
  intros H stash compared. subst stash compared. split; intros Hd.
  - apply hasUncommittedChanges_iff in Hd.
    pull_past_compare H. rewrite Hd. unfold stashPushArgs. split; [|split].
    + pull_cases; eexists; reflexivity.
    + intros out Hout. rewrite Hout.
      pull_cases; (split; [reflexivity | eexists; reflexivity]).
    + intros e He. rewrite He.
      pull_cases; (split; [reflexivity|]);
        cbn; intros c Hc;
        repeat (destruct Hc as [<- | Hc]; [reflexivity|]); destruct Hc.
  - apply hasUncommittedChanges_false_iff in Hd.
    pull_past_compare H. rewrite Hd.
    pull_cases; (split; [reflexivity | split; [eexists; reflexivity|]]);
      cbn; intros c Hc;
      repeat (destruct Hc as [<- | Hc]; [reflexivity|]); destruct Hc.
Qed.

Lemma pull_stashes_dirty_tree_then_rebases_witness :
  vars (fst (callPull (Some sampleGit))) = true /\
  exists rest,
    issued (fst (callPull (Some sampleGit))) =
      ([BranchLocal; Fetch ["origin"; "feature"]; Status] ++
       Raw ["stash"; "push"; "--include-untracked"; "-m"; "ledger-auto-stash-for-pull"]
       :: Pull "origin" "feature" ["--rebase"] :: rest)%list.
Proof.
  refine (proj1 (proj2 (proj1 (pull_stashes_dirty_tree_then_rebases
                                 sampleGit "feature" sampleStatus _) _)) "" eq_refl).
  - repeat split; try discriminate.
    exists (BranchSummary.mk ["feature"; "main"] "feature" false). split; reflexivity.
  - left. discriminate.
Defined.

(** C1 (as stated) fails where Git refuses the stash command, here because
    the index is locked: the tree is dirty and behind, yet no stash is
    made, [didStash] is [false] at the end and no pull is issued. *)
Lemma pull_dirty_tree_stash_refused :
  BehindRemote lockedIndexGit "feature" sampleStatus /\
  Dirty sampleStatus /\
  vars (fst (callPull (Some lockedIndexGit))) = false /\
  issued (fst (callPull (Some lockedIndexGit))) =
    [BranchLocal; Fetch ["origin"; "feature"]; Status;
     Raw ["stash"; "push"; "--include-untracked"; "-m"; "ledger-auto-stash-for-pull"]] /\
  snd (callPull (Some lockedIndexGit)) =
    Returned (PullResult.mk false
                "fatal: Unable to create '.git/index.lock': File exists." None None).
Proof.
  split; [|split; [|split; [|split]]]; try reflexivity.
  - repeat split; try discriminate.
    exists (BranchSummary.mk ["feature"; "main"] "feature" false). split; reflexivity.
  - left. discriminate.
Qed.

Lemma popConflict_iff (msg : string) : popConflict msg = true <-> SignalsConflict msg.
Proof.
  unfold popConflict, SignalsConflict.
  now rewrite orb_true_iff, !includes_iff.
Qed.

Lemma pullConflict_iff (msg : string) : pullConflict msg = true <-> ConflictKeywords msg.
Proof.
  unfold pullConflict, ConflictKeywords.
  rewrite !orb_true_iff, !includes_iff. tauto.
Qed.

Lemma noTracking_iff (msg : string) : noTracking msg = true <-> NoTrackingBranch msg.
Proof.
  unfold noTracking, NoTrackingBranch.
  now rewrite orb_true_iff, !includes_iff.
Qed.

Lemma not_true_iff (b : bool) (P : Prop) : (b = true <-> P) -> (b = false <-> ~ P).
Proof.
  intros [H1 H2]. destruct b; split; intros H; try discriminate; try reflexivity.
  - exfalso. apply H. now apply H1.
  - intros p. specialize (H2 p). discriminate.
Qed.

(** C3.  A stash was created, the pull succeeded and the stash pop fails
    with message [msg].  If [msg] signals a conflict the result has
    [success = true] and [hadConflicts = true]; otherwise the result has
    [success = true] and its message says that the changes are in the
    stash.  In both cases [stash pop] is issued exactly once: it is not
    retried. *)
Theorem pull_pop_failure (g : SimpleGit) (b : string) (st : StatusResult.t)
    (out msg : string) :
  BehindRemote g b st ->
  Dirty st ->
  raw g stashPushArgs = Resolved out ->
  pull g "origin" b ["--rebase"] = Resolved tt ->
  raw g stashPopArgs = Rejected msg ->
  (SignalsConflict msg ->
     callPull (Some g) =
       (mkStore true (aroundPull true b),
        Returned (PullResult.mk true
          "Pulled successfully, but restoring your changes caused conflicts. Please resolve them."
          (Some true) (Some true)))) /\
  (~ SignalsConflict msg ->
     callPull (Some g) =
       (mkStore true (aroundPull true b),
        Returned (PullResult.mk true
          "Pulled successfully. Your changes are in the stash (run git stash pop to restore)."
          None (Some true)))) /\
  length (filter isStashPop (issued (fst (callPull (Some g))))) = 1.
Proof.
  intros H Hd Hpush Hpull Hpop.
  apply hasUncommittedChanges_iff in Hd.
  assert (E : callPull (Some g) =
    (mkStore true (aroundPull true b),
     Returned (
       if popConflict msg then
         PullResult.mk true
           "Pulled successfully, but restoring your changes caused conflicts. Please resolve them."
           (Some true) (Some true)
       else
         PullResult.mk true
           "Pulled successfully. Your changes are in the stash (run git stash pop to restore)."
           None (Some true)))).
  { pull_past_compare H. rewrite Hd, Hpush.
    cbn [bind ret raise catch get put Monad_Prog Exc_Prog State_Prog vars issued app].
    rewrite Hpull.
    cbn [bind ret raise catch get put Monad_Prog Exc_Prog State_Prog vars issued app].
    rewrite Hpop.
    cbn [bind ret raise catch get put Monad_Prog Exc_Prog State_Prog vars issued app].
    destruct (popConflict msg); reflexivity. }
  rewrite E. repeat split.
  - intros Hc. apply popConflict_iff in Hc. now rewrite Hc.
  - intros Hc. apply (not_true_iff _ _ (popConflict_iff msg)) in Hc. now rewrite Hc.
Qed.

Lemma pull_pop_failure_witness :
  callPull (Some popConflictGit) =
    (mkStore true (aroundPull true "feature"),
     Returned (PullResult.mk true
       "Pulled successfully, but restoring your changes caused conflicts. Please resolve them."
       (Some true) (Some true))).
Proof.
  refine (proj1 (pull_pop_failure popConflictGit "feature" sampleStatus ""
                   "CONFLICT (content): Merge conflict in README.md"
                   _ _ eq_refl eq_refl eq_refl) _).
  - repeat split; try discriminate.
    exists (BranchSummary.mk ["feature"; "main"] "feature" false). split; reflexivity.
  - left. discriminate.
  - right. apply includes_iff. reflexivity.
Defined.



(** In one call no command is issued twice with the same arguments: the
    replies of a handle may be given per method and argument list. *)
Lemma pullCurrentBranch_issues_each_command_once (git : option SimpleGit) :
  NoDup (issued (fst (callPull git))).
Proof.
  destruct git as [g|]; [|constructor].
  pull_unfold. pull_cases;
    unfold stashPushArgs, stashPopArgs;
    repeat (constructor; [cbn; intuition discriminate|]); constructor.
Qed.

(** With a repository selected the call always returns a result record:
    no failure of a Git command is thrown to the caller. *)
Lemma pullCurrentBranch_never_throws (g : SimpleGit) :
  exists r, snd (callPull (Some g)) = Returned r.
Proof.
  pull_unfold. pull_cases; eexists; reflexivity.
Qed.

Example pull_clean_tree :
  callPull (Some cleanGit) =
    (mkStore false (fetchAndCompare "feature" ++ [pullRebase "feature"])%list,
     Returned (PullResult.mk true "Pulled 1 commit from origin" None None)).
Proof. reflexivity. Qed.

Example pull_rebase_conflict :
  callPull (Some pullConflictGit) =
    (mkStore true (aroundPull true "feature" ++ [Rebase ["--abort"]])%list,
     Returned (PullResult.mk false
       "Pull failed due to conflicts with incoming changes. Please resolve manually."
       (Some true) None)).
Proof. reflexivity. Qed.

(* ===================================================================== *)
(** * Repository contexts *)
(* ===================================================================== *)

Example matchHeadBranch_remote_show :
  matchHeadBranch
    ("* remote origin" ++ String (ascii_of_N 10)
       ("  HEAD branch: main" ++ String (ascii_of_N 10) "  Remote branches:"))
  = Some "main".
Proof. reflexivity. Qed.

Example matchHeadBranch_needs_a_name : matchHeadBranch "HEAD branch: " = None.
Proof. reflexivity. Qed.

Example trim_toplevel :
  trim ("/home/me/ledger" ++ String (ascii_of_N 10) "") = "/home/me/ledger".
Proof. reflexivity. Qed.

Ltac prog_step :=
  cbn [bind ret raise catch get put Monad_Prog Exc_Prog State_Prog
       vars issued fst snd negb].

Lemma getRemoteUrl_run {V : Type} (g : SimpleGit) (s : Store V) :
  getRemoteUrl g s =
    (mkStore (vars s) (issued s ++ [GetRemotes true])%list, Returned (remoteUrlOf g)).
Proof.
  unfold getRemoteUrl, remoteUrlOf, await. prog_step.
  destruct (getRemotes g true); reflexivity.
Qed.

Lemma getDefaultBranch_run {V : Type} (g : SimpleGit) (s : Store V) :
  getDefaultBranch g s =
    (mkStore (vars s) (issued s ++ defaultBranchCalls g)%list,
     Returned (defaultBranchOf g)).
Proof.
  unfold getDefaultBranch, defaultBranchOf, defaultBranchCalls, advertisedHead,
    localBranches, await.
  prog_step.
  destruct (remote g ["show"; "origin"]) as [[[|c info]|]|e];
    prog_step; cbn [truthy]; prog_step;
    try (destruct (matchHeadBranch (String c info)); prog_step);
    try reflexivity;
    (destruct (branchLocal g) as [bs|e']; prog_step;
     [ destruct (arrayIncludes (BranchSummary.all bs) "main");
       [| destruct (arrayIncludes (BranchSummary.all bs) "master");
          [| destruct (BranchSummary.all bs)]]
     | ];
     prog_step; rewrite <- app_assoc; reflexivity).
Qed.

Lemma stripPrefix_Some (p s rest : string) :
  stripPrefix p s = Some rest -> s = p ++ rest.
Proof.
  revert s; induction p as [|a p IH]; intros s; simpl.
  - now intros [= ->].
  - destruct s as [|b s]; [discriminate|].
    destruct (Ascii.eqb a b) eqn:E; [|discriminate].
    apply Ascii.eqb_eq in E as ->. intros H. now rewrite (IH _ H).
Qed.

Lemma takeNonSpace_prefix (s : string) :
  noWhiteSpace (takeNonSpace s) = true /\ exists post, s = takeNonSpace s ++ post.
Proof.
  induction s as [|c s [IH1 [post IH2]]]; simpl.
  - split; [reflexivity | now exists ""].
  - destruct (isWhiteSpace c) eqn:E; simpl.
    + split; [reflexivity | now exists (String c s)].
    + rewrite E, IH1. split; [reflexivity|]. exists post. now rewrite <- IH2.
Qed.

Lemma matchAt_sound (lit s g : string) :
  matchAt lit s = Some g ->
  g <> "" /\ noWhiteSpace g = true /\ exists post, s = (lit ++ g) ++ post.
Proof.
  unfold matchAt.
  destruct (stripPrefix lit s) as [rest|] eqn:E; [|discriminate].
  apply stripPrefix_Some in E.
  destruct (takeNonSpace_prefix rest) as [Hn [post Hp]].
  destruct (takeNonSpace rest) as [|c r]; [discriminate|].
  intros [= <-]. repeat split; [discriminate | exact Hn |].
  exists post. now rewrite append_assoc, <- Hp.
Qed.

(** What the regular expression [/<lit>(\S+)/] captures: a non-empty run
    of non-space characters that follows [lit] in the text. *)
Lemma matchLiteralThenNonSpace_sound (lit s g : string) :
  matchLiteralThenNonSpace lit s = Some g ->
  g <> "" /\ noWhiteSpace g = true /\ Occurs (lit ++ g) s.
Proof.
  induction s as [|c s IH]; simpl.
  - destruct (matchAt lit "") as [g'|] eqn:E; [|discriminate].
    intros [= ->]. destruct (matchAt_sound _ _ _ E) as (H1 & H2 & post & H3).
    repeat split; try assumption. now exists "", post.
  - destruct (matchAt lit (String c s)) as [g'|] eqn:E.
    + intros [= ->]. destruct (matchAt_sound _ _ _ E) as (H1 & H2 & post & H3).
      repeat split; try assumption. now exists "", post.
    + intros H. destruct (IH H) as (H1 & H2 & pre & post & ->).
      repeat split; try assumption. now exists (String c pre), post.
Qed.

Lemma advertisedHead_sound (g : SimpleGit) (head : string) :
  advertisedHead g = Some head ->
  exists remoteInfo,
    remote g ["show"; "origin"] = Resolved (Some remoteInfo) /\
    head <> "" /\ noWhiteSpace head = true /\
    Occurs ("HEAD branch: " ++ head) remoteInfo.
Proof.
  unfold advertisedHead.
  destruct (remote g ["show"; "origin"]) as [[info|]|e]; try discriminate.
  intros H. exists info. split; [reflexivity|].
  now apply matchLiteralThenNonSpace_sound.
Qed.

(** The order of the fallbacks.  [getDefaultBranch] always returns, never
    throws.  It returns what the regular expression captures after
    [HEAD branch: ] in the output of [remote show origin], when it captures
    something; otherwise [main] when a local branch has that name; otherwise
    [master] when a local branch has that name; otherwise the first local
    branch; otherwise, with no local branch (or none that can be listed),
    the fixed [main]. *)
Lemma getDefaultBranch_fallbacks {V : Type} (g : SimpleGit) (s : Store V) :
  exists s' b,
    getDefaultBranch g s = (s', Returned b) /\
    (forall head, advertisedHead g = Some head -> b = head) /\
    (advertisedHead g = None -> In "main" (localBranches g) -> b = "main") /\
    (advertisedHead g = None -> ~ In "main" (localBranches g) ->
     In "master" (localBranches g) -> b = "master") /\
    (advertisedHead g = None -> ~ In "main" (localBranches g) ->
     ~ In "master" (localBranches g) ->
     forall first rest, localBranches g = first :: rest -> b = first) /\
    (advertisedHead g = None -> localBranches g = [] -> b = "main").
Proof.
  eexists _, _. split; [apply getDefaultBranch_run|].
  unfold defaultBranchOf.
  destruct (advertisedHead g) as [h|].
  - repeat split; try discriminate. now intros head [= <-].
  - repeat split; try discriminate.
    + intros _ Hm. apply arrayIncludes_iff in Hm. now rewrite Hm.
    + intros _ Hm Hs.
      apply (not_true_iff _ _ (arrayIncludes_iff _ _)) in Hm.
      apply arrayIncludes_iff in Hs. now rewrite Hm, Hs.
    + intros _ Hm Hs first rest E.
      apply (not_true_iff _ _ (arrayIncludes_iff _ _)) in Hm.
      apply (not_true_iff _ _ (arrayIncludes_iff _ _)) in Hs.
      now rewrite Hm, Hs, E.
    + intros _ E. now rewrite E.
Qed.

Example getDefaultBranch_sample :
  snd (run (getDefaultBranch sampleGit) tt) = Returned "develop".
Proof. reflexivity. Qed.

(** C8.  What the code does when the remote does not advertise a HEAD
    branch.  [git remote show origin] then prints [HEAD branch: (unknown)];
    the regular expression captures the word [(unknown)], and
    [getDefaultBranch] returns it as the default branch without asking for
    the local branches, whatever they are: a local [main] is not
    preferred. *)
Theorem getDefaultBranch_unknown_head {V : Type} (g : SimpleGit) (s : Store V) :
  remote g ["show"; "origin"] = Resolved (Some unknownHeadOutput) ->
  getDefaultBranch g s =
    (mkStore (vars s) (issued s ++ [Remote ["show"; "origin"]])%list,
     Returned "(unknown)").
Proof.
  intros H. rewrite getDefaultBranch_run.
  unfold defaultBranchCalls, defaultBranchOf, advertisedHead. rewrite H.
  reflexivity.
Qed.

Lemma getDefaultBranch_unknown_head_witness :
  In "main" (localBranches unknownHeadGit) /\
  getDefaultBranch unknownHeadGit (mkStore tt []) =
    (mkStore tt [Remote ["show"; "origin"]], Returned "(unknown)").
Proof.
  split; [left; reflexivity|].
  apply (getDefaultBranch_unknown_head unknownHeadGit (mkStore tt [])).
  reflexivity.
Defined.

Example getDefaultBranch_without_remote :
  snd (run (getDefaultBranch noOriginGit) tt) = Returned "main".
Proof. reflexivity. Qed.

Lemma remoteUrlOf_no_origin (g : SimpleGit) : ~ HasOrigin g -> remoteUrlOf g = None.
Proof.
  unfold HasOrigin, remoteUrlOf, findOrigin. intros H.
  destruct (getRemotes g true) as [remotes|e]; [|reflexivity].
  destruct (find _ remotes) as [r|] eqn:E; [|reflexivity].
  exfalso. apply H. apply find_some in E as [Hin Hname].
  apply String.eqb_eq in Hname. now exists remotes, r.
Qed.

Lemma trimStart_white (w s : string) :
  allWhiteSpace w = true -> trimStart (w ++ s) = trimStart s.
Proof.
  induction w as [|c w IH]; cbn [allWhiteSpace append trimStart]; [reflexivity|].
  intros H. apply andb_true_iff in H as [Hc Hw]. rewrite Hc. now apply IH.
Qed.

Lemma trimStart_text (s : string) : startsInText s = true -> trimStart s = s.
Proof.
  destruct s as [|c s]; cbn [startsInText trimStart]; [discriminate|].
  now destruct (isWhiteSpace c).
Qed.

Lemma trimEnd_white (w : string) : allWhiteSpace w = true -> trimEnd w = "".
Proof.
  induction w as [|c w IH]; cbn [allWhiteSpace trimEnd]; [reflexivity|].
  intros H. apply andb_true_iff in H as [Hc Hw]. now rewrite (IH Hw), Hc.
Qed.

Lemma trimEnd_text_white (s w : string) :
  endsInText s = true -> allWhiteSpace w = true -> trimEnd (s ++ w) = s.
Proof.
  intros Hs Hw. induction s as [|c s IH]; [discriminate|].
  destruct s as [|c' s'].
  - cbn [append trimEnd]. rewrite (trimEnd_white _ Hw). cbn [endsInText] in Hs.
    now destruct (isWhiteSpace c).
  - change (trimEnd (String c (String c' s') ++ w))
      with (match trimEnd (String c' s' ++ w) with
            | EmptyString => if isWhiteSpace c then EmptyString else String c EmptyString
            | String a r => String c (String a r)
            end).
    now rewrite (IH Hs).
Qed.

(** What [trim] does, said without [trim]: of a text that starts and ends
    with a character that is not white space, wrapped in white space on
    both sides, it returns the text. *)
Lemma trim_unwraps (before s after : string) :
  allWhiteSpace before = true -> allWhiteSpace after = true ->
  startsInText s = true -> endsInText s = true ->
  trim (before ++ s ++ after) = s.
Proof.
  intros Hb Ha Hs He. unfold trim. rewrite (trimStart_white _ _ Hb).
  rewrite trimStart_text.
  - now apply trimEnd_text_white.
  - destruct s; [discriminate | exact Hs].
Qed.

Lemma createRepositoryContext_no_directory (simpleGit : string -> Outcome SimpleGit)
    (basename : string -> string) (uuidv4 : string) (now : N) (repoPath e : string) :
  simpleGit repoPath = Thrown e ->
  callCreate simpleGit basename uuidv4 now repoPath = (mkStore tt [], Thrown e).
Proof.
  intros H. unfold callCreate, run, createRepositoryContext, sync.
  prog_step. now rewrite H.
Qed.

Lemma createRepositoryContext_not_a_repo (simpleGit : string -> Outcome SimpleGit)
    (basename : string -> string) (uuidv4 : string) (now : N) (repoPath : string)
    (g : SimpleGit) :
  simpleGit repoPath = Returned g ->
  checkIsRepo g = Resolved false ->
  callCreate simpleGit basename uuidv4 now repoPath =
    (mkStore tt [CheckIsRepo], Thrown (notAGitRepository repoPath)).
Proof.
  intros Hg H. unfold callCreate, run, createRepositoryContext, await, sync.
  prog_step. rewrite Hg. prog_step. now rewrite H.
Qed.

Lemma createRepositoryContext_in_repo (simpleGit : string -> Outcome SimpleGit)
    (basename : string -> string) (uuidv4 : string) (now : N)
    (repoPath root : string) (g : SimpleGit) :
  simpleGit repoPath = Returned g ->
  checkIsRepo g = Resolved true ->
  revparse g ["--show-toplevel"] = Resolved root ->
  callCreate simpleGit basename uuidv4 now repoPath =
    (mkStore tt
       ([CheckIsRepo; Revparse ["--show-toplevel"]; GetRemotes true]
        ++ defaultBranchCalls g)%list,
     match simpleGit (trim root) with
     | Returned rootGit =>
         Returned
           (RepositoryContext.mk uuidv4 (trim root) (basename (trim root)) rootGit
              (RepositoryMetadata.mk (basename (trim root))
                 (defaultBranchOf g) (remoteUrlOf g) (detectProvider (remoteUrlOf g))
                 None)
              now)
     | Thrown e => Thrown e
     end).
Proof.
  intros Hg Hrepo Hroot. unfold callCreate, run, createRepositoryContext, await, sync.
  prog_step. rewrite Hg. prog_step. rewrite Hrepo. prog_step. rewrite Hroot. prog_step.
  rewrite getRemoteUrl_run. prog_step.
  rewrite getDefaultBranch_run. prog_step.
  destruct (simpleGit (trim root)); reflexivity.
Qed.

(** C7.  When no handle can be made for the path (the directory does not
    exist) the call throws the error of the factory, before any command.
    When the directory exists but is not inside a working tree
    ([checkIsRepo] answers false) the call throws
    "Path is not a git repository: <path>" right after that check, with no
    further command and no fallback.  When the path is inside a working
    tree whose root Git prints as [root], a text without white space at
    either end, wrapped in white space (the line break Git ends it with),
    the call returns a context whose [path] is exactly [root] and whose
    handle is the one the factory gives for [root]; when the repository has
    no remote named [origin] the call still returns, with
    [remoteUrl = null]. *)
Theorem createRepositoryContext_root (simpleGit : string -> Outcome SimpleGit)
    (basename : string -> string) (uuidv4 : string) (now : N) (repoPath : string) :
  (forall e,
     simpleGit repoPath = Thrown e ->
     callCreate simpleGit basename uuidv4 now repoPath = (mkStore tt [], Thrown e)) /\
  (forall g,
     simpleGit repoPath = Returned g ->
     (checkIsRepo g = Resolved false ->
      callCreate simpleGit basename uuidv4 now repoPath =
        (mkStore tt [CheckIsRepo],
         Thrown ("Path is not a git repository: " ++ repoPath))) /\
     (forall before root after rootGit,
        checkIsRepo g = Resolved true ->
        revparse g ["--show-toplevel"] = Resolved (before ++ root ++ after) ->
        allWhiteSpace before = true -> allWhiteSpace after = true ->
        startsInText root = true -> endsInText root = true ->
        simpleGit root = Returned rootGit ->
        exists s ctx,
          callCreate simpleGit basename uuidv4 now repoPath = (s, Returned ctx) /\
          RepositoryContext.path ctx = root /\
          RepositoryContext.git ctx = rootGit /\
          (~ HasOrigin g ->
           RepositoryMetadata.remoteUrl (RepositoryContext.metadata ctx) = None))).
Proof.
  split.
  - intros e. apply createRepositoryContext_no_directory.
  - intros g Hg. split.
    + now apply createRepositoryContext_not_a_repo.
    + intros before root after rootGit Hrepo Hroot Hb Ha Hs He Hr.
      rewrite (createRepositoryContext_in_repo _ _ _ _ _ _ _ Hg Hrepo Hroot).
      rewrite (trim_unwraps _ _ _ Hb Ha Hs He), Hr.
      eexists _, _. split; [reflexivity|].
      cbn. repeat split. apply remoteUrlOf_no_origin.
Qed.

Lemma createRepositoryContext_root_witness :
  callCreate (everywhere notARepoGit) (fun p => p) "id-1" 0 "/tmp/notes" =
    (mkStore tt [CheckIsRepo], Thrown "Path is not a git repository: /tmp/notes") /\
  exists s ctx,
    callCreate onlyLedger (fun p => p) "id-1" 0 "/home/me/ledger/src"
      = (s, Returned ctx) /\
    RepositoryContext.path ctx = "/home/me/ledger" /\
    RepositoryContext.git ctx = sampleGit.
Proof.
  split.
  - apply (proj1 (proj2 (createRepositoryContext_root (everywhere notARepoGit)
                           (fun p => p) "id-1" 0 "/tmp/notes") notARepoGit eq_refl)).
    reflexivity.
  - destruct (proj2 (proj2 (createRepositoryContext_root onlyLedger (fun p => p)
                              "id-1" 0 "/home/me/ledger/src") sampleGit eq_refl)
                "" "/home/me/ledger" (String (ascii_of_N 10) "") sampleGit
                eq_refl eq_refl eq_refl eq_refl eq_refl eq_refl eq_refl)
      as (s & ctx & E & Hpath & Hgit & _).
    exists s, ctx. repeat split; assumption.
Defined.

(** C7 (as stated) fails for a directory that does not exist: the call
    fails there too, but with the error of the factory, not with the
    not-a-repository error, and before [checkIsRepo] is asked. *)
Lemma createRepositoryContext_missing_directory :
  callCreate onlyLedger (fun p => p) "id-1" 0 "/tmp/gone" =
    (mkStore tt [],
     Thrown "Cannot use simple-git on a directory that does not exist") /\
  snd (callCreate onlyLedger (fun p => p) "id-1" 0 "/tmp/gone") <>
    Thrown "Path is not a git repository: /tmp/gone".
Proof. split; [reflexivity | discriminate]. Qed.

(** Where the root itself ends in white space, the path of the context is
    not the root: [trim] takes the space away with the line break. *)
Example createRepositoryContext_root_ending_in_space :
  exists s ctx,
    callCreate (everywhere spaceRootGit) (fun p => p) "id-1" 0 "/home/me/notes /src"
      = (s, Returned ctx) /\
    RepositoryContext.path ctx = "/home/me/notes".
Proof. vm_compute. eexists _, _. split; reflexivity. Qed.

Example createRepositoryContext_subdirectory :
  exists s ctx,
    callCreate (everywhere noOriginGit) (fun p => p) "id-1" 0 "/home/me/ledger/src"
      = (s, Returned ctx) /\
    RepositoryContext.path ctx = "/home/me/ledger" /\
    RepositoryMetadata.remoteUrl (RepositoryContext.metadata ctx) = None /\
    RepositoryMetadata.provider (RepositoryContext.metadata ctx) = local.
Proof. vm_compute. eexists _, _. split; [reflexivity|]. repeat split. Qed.

Lemma createRepositoryContext_issues_each_command_once
    (simpleGit : string -> Outcome SimpleGit) (basename : string -> string)
    (uuidv4 : string) (now : N) (repoPath : string) :
  NoDup (issued (fst (callCreate simpleGit basename uuidv4 now repoPath))).
Proof.
  destruct (simpleGit repoPath) as [g|e0] eqn:Hg;
    [|rewrite (createRepositoryContext_no_directory _ _ _ _ _ _ Hg); constructor].
  destruct (checkIsRepo g) as [[|]|e] eqn:Hrepo.
  - destruct (revparse g ["--show-toplevel"]) as [root|e] eqn:Hroot.
    + rewrite (createRepositoryContext_in_repo _ _ _ _ _ _ _ Hg Hrepo Hroot).
      unfold defaultBranchCalls. cbn.
      destruct (advertisedHead g);
        repeat (constructor; [cbn; intuition discriminate|]); constructor.
    + unfold callCreate, run, createRepositoryContext, await, sync.
      prog_step. rewrite Hg. prog_step. rewrite Hrepo. prog_step. rewrite Hroot. cbn.
      repeat (constructor; [cbn; intuition discriminate|]); constructor.
  - rewrite (createRepositoryContext_not_a_repo _ _ _ _ _ _ Hg Hrepo). cbn.
    repeat (constructor; [cbn; intuition discriminate|]); constructor.
  - unfold callCreate, run, createRepositoryContext, await, sync.
    prog_step. rewrite Hg. prog_step. rewrite Hrepo. cbn.
    repeat (constructor; [cbn; intuition discriminate|]); constructor.
Qed.

(* ===================================================================== *)
(** * Opinionated commit *)
(* ===================================================================== *)

Example commit_sample_behind :
  callCommit (Some sampleContext) "Fix typo" None None =
    (mkStore tt [Fetch ["origin"]; Status], Returned (CommitBehind 3)).
Proof. reflexivity. Qed.

Example commit_sample_forced :
  callCommit (Some sampleContext) "Fix typo" None (Some true) =
    (mkStore tt [Fetch ["origin"]; Status; Commit "Fix typo" None],
     Returned (CommitSucceeded "abc1234")).
Proof. reflexivity. Qed.

Example commit_without_repository :
  callCommit None "Fix typo" None None = (mkStore tt [], Thrown noRepositorySelected).
Proof. reflexivity. Qed.

Ltac commit_unfold :=
  unfold callCommit, run, commitChanges, requireContext,
    CommitService_commitChanges, bestEffort, await;
  prog_step.

(** C5.  The remote has [N] new commits (the status reports [behind = N]).
    With [N > 0] and [force] omitted or false, the call returns the
    "behind" result carrying [N], and no commit command is issued.  With
    [force = true], whatever [N] is, the commit command is issued with the
    message and description given, and the result is success with the
    commit's identity once Git has made the commit. *)
Theorem commit_behind_gate (ctx : RepositoryContext.t) (message : string)
    (description : option string) (st : StatusResult.t) :
  status (RepositoryContext.git ctx) = Resolved st ->
  ((0 < StatusResult.behind st)%N ->
   forall force, force = None \/ force = Some false ->
     snd (callCommit (Some ctx) message description force) =
       Returned (CommitBehind (StatusResult.behind st)) /\
     (forall c, In c (issued (fst (callCommit (Some ctx) message description force))) ->
                isCommitCall c = false)) /\
  In (Commit message description)
     (issued (fst (callCommit (Some ctx) message description (Some true)))) /\
  (forall id,
     commit (RepositoryContext.git ctx) message description = Resolved id ->
     snd (callCommit (Some ctx) message description (Some true)) =
       Returned (CommitSucceeded id)).
Proof.
  intros Hst. split; [|split].
  - intros Hpos force Hforce. apply N.ltb_lt in Hpos.
    assert (E : callCommit (Some ctx) message description force =
                  (mkStore tt [Fetch ["origin"]; Status],
                   Returned (CommitBehind (StatusResult.behind st)))).
    { destruct Hforce as [-> | ->]; commit_unfold;
        destruct (fetch (RepositoryContext.git ctx) ["origin"]); prog_step;
        rewrite Hst; prog_step; rewrite Hpos; reflexivity. }
    rewrite E. split; [reflexivity|].
    cbn. intros c [<- | [<- | []]]; reflexivity.
  - commit_unfold.
    destruct (fetch (RepositoryContext.git ctx) ["origin"]); prog_step;
      rewrite Hst; prog_step; rewrite andb_false_r; prog_step;
      destruct (commit (RepositoryContext.git ctx) message description); cbn; tauto.
  - intros id Hid. commit_unfold.
    destruct (fetch (RepositoryContext.git ctx) ["origin"]); prog_step;
      rewrite Hst; prog_step; rewrite andb_false_r; prog_step;
      rewrite Hid; reflexivity.
Qed.

Lemma commit_behind_gate_witness :
  snd (callCommit (Some sampleContext) "Fix typo" None None) =
    Returned (CommitBehind 3).
Proof.
  refine (proj1 (proj1 (commit_behind_gate sampleContext "Fix typo" None
                          sampleStatus eq_refl) _ None (or_introl eq_refl))).
  reflexivity.
Defined.

(* ===================================================================== *)
(** * The select-repo handler *)
(* ===================================================================== *)

Example selectRepo_canceled :
  run (selectRepo (everywhere sampleGit) unit refusingOpen
         (OpenDialogReturnValue.mk true ["/tmp/notes"]))
      (mkMain None None None tt)
  = (mkStore (mkMain None None None tt) [], Returned None).
Proof. reflexivity. Qed.

(** [setRepoPath] in one step: both globals are set when the directory
    exists; otherwise the factory's error is thrown with [repoPath] already
    set and [git] as it was. *)
Lemma setRepoPath_run (simpleGit : string -> Outcome SimpleGit) (M : Type)
    (newPath : string) (s : MainProcess M) (log : list GitCall) :
  setRepoPath simpleGit M newPath (mkStore s log) =
    match simpleGit newPath with
    | Returned handle =>
        (mkStore (mkMain (Some handle) (Some newPath) (lastRepoPath s) (manager s)) log,
         Returned tt)
    | Thrown e =>
        (mkStore (mkMain (git s) (Some newPath) (lastRepoPath s) (manager s)) log,
         Thrown e)
    end.
Proof.
  unfold setRepoPath, sync. prog_step. destruct (simpleGit newPath); reflexivity.
Qed.

Ltac select_unfold :=
  unfold run, selectRepo, awaitOpen, saveLastRepoPath;
  prog_step.

(** C10.  When the dialog returns the path [selectedPath], a directory that
    exists (the factory gives a handle on it), and
    [manager.open(selectedPath)] rejects, for whatever reason, the handler
    does not throw: it sets the legacy [repoPath] to [selectedPath] as
    selected (and [git] to the handle on it), saves [selectedPath] as the
    last repository path and returns [selectedPath]. *)
Theorem selectRepo_open_failure_falls_back (simpleGit : string -> Outcome SimpleGit)
    (M : Type)
    (manager_open : string -> MainProcess M -> MainProcess M * Reply RepositoryContext.t)
    (result : OpenDialogReturnValue.t) (selectedPath : string) (others : list string)
    (s s' : MainProcess M) (e : string) (handle : SimpleGit) :
  OpenDialogReturnValue.canceled result = false ->
  OpenDialogReturnValue.filePaths result = selectedPath :: others ->
  manager_open selectedPath s = (s', Rejected e) ->
  simpleGit selectedPath = Returned handle ->
  run (selectRepo simpleGit M manager_open result) s =
    (mkStore (mkMain (Some handle) (Some selectedPath)
                (Some selectedPath) (manager s')) [],
     Returned (Some selectedPath)).
Proof.
  intros Hc Hp Ho Hh. select_unfold.
  rewrite Hc, Hp. cbn [orb length Nat.eqb hd]. prog_step.
  rewrite Ho. prog_step. rewrite setRepoPath_run, Hh. reflexivity.
Qed.

Lemma selectRepo_open_failure_falls_back_witness :
  run (selectRepo (everywhere notARepoGit) unit refusingOpen pickedNotes)
      (mkMain None None None tt)
  = (mkStore (mkMain (Some notARepoGit) (Some "/tmp/notes") (Some "/tmp/notes") tt) [],
     Returned (Some "/tmp/notes")).
Proof.
  apply (selectRepo_open_failure_falls_back (everywhere notARepoGit) unit refusingOpen
           pickedNotes "/tmp/notes" [] (mkMain None None None tt)
           (mkMain None None None tt) (notAGitRepository "/tmp/notes") notARepoGit);
    reflexivity.
Defined.

(** Were the selected directory gone by the time the handler runs, the
    fallback itself would throw: [repoPath] is then the selected path, [git]
    is what it was and nothing is saved. *)
Lemma selectRepo_directory_gone (simpleGit : string -> Outcome SimpleGit)
    (M : Type)
    (manager_open : string -> MainProcess M -> MainProcess M * Reply RepositoryContext.t)
    (result : OpenDialogReturnValue.t) (selectedPath : string) (others : list string)
    (s s' : MainProcess M) (e e' : string) :
  OpenDialogReturnValue.canceled result = false ->
  OpenDialogReturnValue.filePaths result = selectedPath :: others ->
  manager_open selectedPath s = (s', Rejected e) ->
  simpleGit selectedPath = Thrown e' ->
  run (selectRepo simpleGit M manager_open result) s =
    (mkStore (mkMain (git s') (Some selectedPath) (lastRepoPath s') (manager s')) [],
     Thrown e').
Proof.
  intros Hc Hp Ho Hh. select_unfold.
  rewrite Hc, Hp. cbn [orb length Nat.eqb hd]. prog_step.
  rewrite Ho. prog_step. rewrite setRepoPath_run, Hh. reflexivity.
Qed.

(** The success case, for comparison: the handler returns the path of the
    context, the root of the repository, in the same shape. *)
Lemma selectRepo_open_success (simpleGit : string -> Outcome SimpleGit) (M : Type)
    (manager_open : string -> MainProcess M -> MainProcess M * Reply RepositoryContext.t)
    (result : OpenDialogReturnValue.t) (selectedPath : string) (others : list string)
    (s s' : MainProcess M) (ctx : RepositoryContext.t) (handle : SimpleGit) :
  OpenDialogReturnValue.canceled result = false ->
  OpenDialogReturnValue.filePaths result = selectedPath :: others ->
  manager_open selectedPath s = (s', Resolved ctx) ->
  simpleGit (RepositoryContext.path ctx) = Returned handle ->
  run (selectRepo simpleGit M manager_open result) s =
    (mkStore (mkMain (Some handle)
                (Some (RepositoryContext.path ctx))
                (Some (RepositoryContext.path ctx)) (manager s')) [],
     Returned (Some (RepositoryContext.path ctx))).
Proof.
  intros Hc Hp Ho Hh. select_unfold.
  rewrite Hc, Hp. cbn [orb length Nat.eqb hd]. prog_step.
  rewrite Ho. prog_step. rewrite setRepoPath_run, Hh. reflexivity.
Qed.

(* ===================================================================== *)
(** * Splitting and joining *)
(* ===================================================================== *)

Lemma split_not_nil (sep : ascii) (s : string) : JsText.split sep s <> [].
Proof.
  induction s as [|c s IH]; simpl; [discriminate|].
  destruct (Ascii.eqb c sep); [discriminate|].
  destruct (JsText.split sep s); discriminate.
Qed.

(** Joining the parts with the separator gives the string back. *)
Lemma join_split (sep : ascii) (s : string) :
  JsText.join (String sep "") (JsText.split sep s) = s.
Proof.
  induction s as [|c s IH]; simpl; [reflexivity|].
  destruct (Ascii.eqb c sep) eqn:E.
  - apply Ascii.eqb_eq in E as ->.
    destruct (JsText.split sep s) as [|p ps] eqn:Es.
    + now apply split_not_nil in Es.
    + simpl in *. now rewrite IH.
  - destruct (JsText.split sep s) as [|p ps] eqn:Es.
    + now apply split_not_nil in Es.
    + destruct ps; simpl in *; now rewrite IH.
Qed.

(** No part contains the separator. *)
Lemma split_parts_lack (sep : ascii) (s : string) :
  Forall (fun part => JsText.lacks sep part = true) (JsText.split sep s).
Proof.
  induction s as [|c s IH]; simpl.
  - repeat constructor.
  - destruct (Ascii.eqb c sep) eqn:E.
    + constructor; [reflexivity | exact IH].
    + destruct (JsText.split sep s) as [|p ps]; [repeat constructor; simpl; now rewrite E|].
      inversion IH; subst. constructor; [simpl; now rewrite E | assumption].
Qed.

Lemma split_lacks (sep : ascii) (s : string) :
  JsText.lacks sep s = true -> JsText.split sep s = [s].
Proof.
  induction s as [|c s IH]; simpl; [reflexivity|].
  rewrite andb_true_iff, negb_true_iff. intros [E H].
  now rewrite E, (IH H).
Qed.

Lemma split_app_sep (sep : ascii) (p rest : string) :
  JsText.lacks sep p = true ->
  JsText.split sep (p ++ String sep rest) = p :: JsText.split sep rest.
Proof.
  induction p as [|c p IH]; simpl.
  - intros _. now rewrite Ascii.eqb_refl.
  - rewrite andb_true_iff, negb_true_iff. intros [E H].
    now rewrite E, (IH H).
Qed.

(** The first part and the rest, put together again. *)
Lemma split_first (sep : ascii) (s : string) :
  JsText.lacks sep (hd "" (JsText.split sep s)) = true /\
  (s = hd "" (JsText.split sep s) ++ String sep (JsText.join (String sep "") (tl (JsText.split sep s)))
   \/ (s = hd "" (JsText.split sep s) /\ tl (JsText.split sep s) = [])).
Proof.
  pose proof (split_parts_lack sep s) as Hl.
  pose proof (join_split sep s) as Hj.
  destruct (JsText.split sep s) as [|p ps] eqn:E.
  - now apply split_not_nil in E.
  - inversion Hl as [|? ? Hp Hps]. split; [exact Hp|].
    destruct ps as [|q qs]; simpl in *.
    + right. now split.
    + left. now rewrite <- Hj.
Qed.

(* ===================================================================== *)
(** * Numbers in text *)
(* ===================================================================== *)

Lemma toNumber_exact (n : N) : (n < 2 ^ 53)%N -> JsText.toNumber n = n.
Proof. intros H. unfold JsText.toNumber. apply N.ltb_lt in H. now rewrite H. Qed.

Lemma increment_exact (n : N) :
  (n + 1 < 2 ^ 53)%N -> JsText.increment n = (n + 1)%N.
Proof. apply toNumber_exact. Qed.

(** From [2 ^ 53] on a counter no longer advances. *)
Example increment_stalls : JsText.increment (2 ^ 53) = (2 ^ 53)%N.
Proof. vm_compute. reflexivity. Qed.

Example parseInt_rounds :
  JsText.parseInt "9007199254740993" = 9007199254740992%N /\
  JsText.parseInt "9007199254740995" = 9007199254740996%N.
Proof. vm_compute. split; reflexivity. Qed.

Lemma digitsValue_ofNumber (n : N) : JsText.digitsValue (ofNumber n) = n.
Proof.
  unfold JsText.digitsValue, ofNumber.
  rewrite NilEmpty.usu. apply DecimalN.Unsigned.of_to.
Qed.

Lemma parseInt_ofNumber (n : N) :
  (n < 2 ^ 53)%N -> JsText.parseInt (ofNumber n) = n.
Proof.
  intros H. unfold JsText.parseInt. rewrite digitsValue_ofNumber.
  now apply toNumber_exact.
Qed.

Lemma ofNumber_inj (n m : N) : ofNumber n = ofNumber m -> n = m.
Proof.
  intros H. rewrite <- (digitsValue_ofNumber n), <- (digitsValue_ofNumber m).
  now rewrite H.
Qed.

Lemma length_append (a b : string) :
  String.length (a ++ b) = String.length a + String.length b.
Proof. induction a as [|c a IH]; simpl; [reflexivity | now rewrite IH]. Qed.

Lemma append_cancel_r (a b c : string) : a ++ c = b ++ c -> a = b.
Proof.
  revert b; induction a as [|x a IH]; intros [|y b] H; simpl in H.
  - reflexivity.
  - exfalso. apply (f_equal String.length) in H. simpl in H.
    rewrite length_append in H. lia.
  - exfalso. apply (f_equal String.length) in H. simpl in H.
    rewrite length_append in H. lia.
  - injection H as -> H. now rewrite (IH _ H).
Qed.

Lemma stashRef_inj (n m : N) : stashRef n = stashRef m -> n = m.
Proof.
  unfold stashRef. intros H.
  apply ofNumber_inj. apply (append_cancel_r _ _ "}").
  simpl in H. now injection H.
Qed.

(* ===================================================================== *)
(** * Fetching a remote branch *)
(* ===================================================================== *)

Example pullBranch_remote_ref :
  run (pullBranch (Some sampleGit) "remotes/origin/feature/login") tt =
    (mkStore tt [Fetch ["origin"; "feature/login"]],
     Returned (OpResult.mk true "Fetched feature/login from origin")).
Proof. reflexivity. Qed.

Example pullBranch_no_slash :
  run (pullBranch (Some sampleGit) "main") tt =
    (mkStore tt [Fetch ["main"; ""]], Returned (OpResult.mk true "Fetched  from main")).
Proof. reflexivity. Qed.

(** X1.  [pullBranch] issues exactly one command, a fetch of [remote] and
    [branch], where [remote] is the text of the name (a leading [remotes/]
    removed) up to its first slash and [branch] is everything after that
    slash: [remote] has no slash and [remote/branch] is the name again.  A
    name without a slash is taken whole as the remote, with an empty
    branch. *)
Theorem pullBranch_splits_at_first_slash (g : SimpleGit) (remoteBranch : string) :
  exists remote branch,
    issued (fst (run (pullBranch (Some g) remoteBranch) tt)) = [Fetch [remote; branch]] /\
    JsText.lacks "/" remote = true /\
    (JsText.removePrefix "remotes/" remoteBranch = remote ++ "/" ++ branch \/
     (JsText.removePrefix "remotes/" remoteBranch = remote /\ branch = "")).
Proof.
  set (clean := JsText.removePrefix "remotes/" remoteBranch).
  exists (hd "" (JsText.split "/" clean)),
         (JsText.join "/" (tl (JsText.split "/" clean))).
  destruct (split_first "/" clean) as [Hl Hs].
  split; [|split; [exact Hl|]].
  - unfold run, pullBranch, await. fold clean. prog_step.
    destruct (fetch g _); reflexivity.
  - destruct Hs as [Hs | [Hs Ht]]; [left; exact Hs | right].
    split; [exact Hs | now rewrite Ht].
Qed.

(** X2.  The [pull-branch] handler never throws, with or without a
    repository selected.  It reports success exactly when a repository is
    selected and Git accepts the one fetch it issues; without a repository
    the result is [success = false] with "No repository selected", and a
    rejected fetch gives [success = false] with Git's message. *)
Theorem pullBranchHandler_never_throws (git : option SimpleGit) (remoteBranch : string) :
  exists r,
    snd (run (pullBranchHandler git remoteBranch) tt) = Returned r /\
    (OpResult.success r = true <->
     exists g args,
       git = Some g /\
       issued (fst (run (pullBranchHandler git remoteBranch) tt)) = [Fetch args] /\
       fetch g args = Resolved tt) /\
    (git = None -> r = OpResult.mk false "No repository selected") /\
    (forall g args e,
       git = Some g ->
       issued (fst (run (pullBranchHandler git remoteBranch) tt)) = [Fetch args] ->
       fetch g args = Rejected e -> r = OpResult.mk false e).
Proof.
  destruct git as [g|].
  - unfold run, pullBranchHandler, pullBranch, await. prog_step.
    destruct (fetch g _) as [[]|e] eqn:E; eexists; (split; [reflexivity|]);
      cbn [fst snd issued OpResult.success]; repeat split; try discriminate.
    + intros _. eexists _, _. repeat split. exact E.
    + intros g' args e [= <-] [= <-]. rewrite E. discriminate.
    + intros (g' & args & [= <-] & [= <-] & H). rewrite E in H. discriminate.
    + intros g' args e' [= <-] [= <-]. rewrite E. now intros [= <-].
  - eexists. split; [reflexivity|]. cbn. repeat split; try discriminate.
    intros (g & args & H & _). discriminate.
Qed.

(* ===================================================================== *)
(** * Stash operations *)
(* ===================================================================== *)

Example dropStash_sample :
  run (dropStash (Some sampleGit) 2) tt =
    (mkStore tt [Raw ["stash"; "drop"; "stash@{2}"]],
     Returned (OpResult.mk true "Dropped stash@{2}")).
Proof. reflexivity. Qed.

(** X3.  [applyStash], [popStash] and [dropStash] each issue exactly one
    command, on the reference [stash@{n}] of the index given, and two
    different indexes never give the same reference: an operation on one
    stash cannot reach another. *)
Theorem stash_operations_address_one_entry (g : SimpleGit) (n : N) :
  issued (fst (run (applyStash (Some g) n) tt)) = [Raw ["stash"; "apply"; stashRef n]] /\
  issued (fst (run (popStash (Some g) n) tt)) = [Raw ["stash"; "pop"; stashRef n]] /\
  issued (fst (run (dropStash (Some g) n) tt)) = [Raw ["stash"; "drop"; stashRef n]] /\
  (forall m, issued (fst (run (dropStash (Some g) m) tt)) =
             issued (fst (run (dropStash (Some g) n) tt)) -> m = n).
Proof.
  assert (Hdrop : forall k,
    issued (fst (run (dropStash (Some g) k) tt)) = [Raw ["stash"; "drop"; stashRef k]]).
  { intros k. unfold run, dropStash, await. prog_step. destruct (raw g _); reflexivity. }
  repeat split.
  - unfold run, applyStash, await. prog_step. destruct (raw g _); reflexivity.
  - unfold run, popStash, await. prog_step. destruct (raw g _); reflexivity.
  - apply Hdrop.
  - intros m. rewrite !Hdrop. intros H. apply stashRef_inj. congruence.
Qed.

(* ===================================================================== *)
(** * The test path of the command line *)
(* ===================================================================== *)

Example testRepoPath_sample : testRepoPath testArgv = Some "/tmp/fixture".
Proof. reflexivity. Qed.

Example testRepoPath_cut_at_equals :
  testRepoPath ["electron"; "--repo=/tmp/a=b/repo"] = Some "/tmp/a".
Proof. reflexivity. Qed.

Lemma find_skips {A : Type} (f : A -> bool) (pre post : list A) (x : A) :
  (forall a, In a pre -> f a = false) -> f x = true ->
  find f (pre ++ x :: post) = Some x.
Proof.
  intros Hpre Hx. induction pre as [|a pre IH]; simpl.
  - now rewrite Hx.
  - rewrite (Hpre a (or_introl eq_refl)). apply IH.
    intros b Hb. apply Hpre. now right.
Qed.

Lemma split_repo_argument (p : string) :
  JsText.split "=" ("--repo=" ++ p) = "--repo" :: JsText.split "=" p.
Proof. exact (split_app_sep "=" "--repo" p eq_refl). Qed.

(** X4.  With [--repo=<text>] the first argument of the command line that
    starts with [--repo=], the test path is [<text>] up to its first [=]:
    the whole of [<text>] when it has no [=], never a string with an [=]
    in it.  The arguments before it, none of which starts with [--repo=],
    give no test path by themselves. *)
Theorem testRepoPath_between_equals (pre post : list string) (text : string) :
  (forall a, In a pre -> startsWith a "--repo=" = false) ->
  testRepoPath (pre ++ ("--repo=" ++ text) :: post)
    = Some (hd "" (JsText.split "=" text)) /\
  JsText.lacks "=" (hd "" (JsText.split "=" text)) = true /\
  (JsText.lacks "=" text = true ->
   testRepoPath (pre ++ ("--repo=" ++ text) :: post) = Some text) /\
  (testRepoPath pre = None).
Proof.
  intros Hpre.
  assert (E : testRepoPath (pre ++ ("--repo=" ++ text) :: post)
              = Some (hd "" (JsText.split "=" text))).
  { unfold testRepoPath. rewrite (find_skips _ pre post ("--repo=" ++ text) Hpre).
    - rewrite split_repo_argument. cbn [nth_error].
      destruct (JsText.split "=" text) as [|x xs] eqn:Es; [|reflexivity].
      now apply split_not_nil in Es.
    - apply startsWith_iff. now exists text. }
  repeat split.
  - exact E.
  - apply split_first.
  - intros Hl. rewrite E. now rewrite (split_lacks _ _ Hl).
  - unfold testRepoPath.
    destruct (find _ pre) as [a|] eqn:Ef; [|reflexivity].
    apply find_some in Ef as [Hin Ha]. rewrite (Hpre a Hin) in Ha. discriminate.
Qed.

Lemma testRepoPath_between_equals_witness :
  testRepoPath testArgv = Some "/tmp/fixture".
Proof.
  refine (proj1 (proj2 (proj2 (testRepoPath_between_equals
            ["/usr/bin/electron"; "."] ["--inspect=9229"] "/tmp/fixture" _))) eq_refl).
  intros a [<- | [<- | []]]; reflexivity.
Defined.

(* ===================================================================== *)
(** * The legacy globals *)
(* ===================================================================== *)

Lemma legacySyncCallback_run (simpleGit : string -> Outcome SimpleGit) (M : Type)
    (newPath : string) (s : MainProcess M) (log : list GitCall) :
  newPath <> "" ->
  legacySyncCallback simpleGit M (Some newPath) (mkStore s log) =
    setRepoPath simpleGit M newPath (mkStore s log).
Proof.
  intros H. apply truthy_iff in H. unfold legacySyncCallback, setRepoPath.
  prog_step. rewrite H. reflexivity.
Qed.

Lemma legacyWrite_consistent (simpleGit : string -> Outcome SimpleGit) (M : Type)
    (w : LegacyWrite) (s : MainProcess M) :
  directoriesExist simpleGit [w] ->
  exists s',
    legacyWrite simpleGit M w (mkStore s []) = (mkStore s' [], Returned tt) /\
    LegacyConsistent simpleGit s' /\
    lastRepoPath s' = lastRepoPath s /\ manager s' = manager s.
Proof.
  intros Hd. destruct w as [p | | [p|]]; cbn [legacyWrite].
  - destruct (Hd p (or_introl (or_introl eq_refl))) as [h Hh].
    rewrite setRepoPath_run, Hh. eexists. repeat split. now exists h.
  - eexists. repeat split.
  - destruct (string_dec p "") as [-> | Hp].
    + eexists. repeat split.
    + destruct (Hd p (or_intror (conj (or_introl eq_refl) Hp))) as [h Hh].
      rewrite (legacySyncCallback_run _ _ _ _ _ Hp), setRepoPath_run, Hh.
      eexists. repeat split. now exists h.
  - eexists. repeat split.
Qed.

(** X5.  However [setRepoPath], [clearLegacyState] and the legacy-sync
    callback are interleaved, starting from the two globals unset: as long
    as every directory they name exists, no write throws and the legacy
    handle stays bound to the legacy path ([git] is null exactly when
    [repoPath] is, and otherwise it is the handle the factory gives for
    [repoPath]); none of them touches the saved last path or the manager.
    A write that names a directory that does not exist throws the error of
    the factory after it has assigned [repoPath]: [repoPath] is then the
    missing path while [git] is still the handle it was. *)
Theorem legacy_globals_stay_consistent (simpleGit : string -> Outcome SimpleGit)
    (M : Type) :
  (forall (ws : list LegacyWrite) (saved : option string) (m : M),
     directoriesExist simpleGit ws ->
     exists final,
       run (legacyWrites simpleGit M ws) (mkMain None None saved m)
         = (mkStore final [], Returned tt) /\
       LegacyConsistent simpleGit final /\
       (git final = None <-> repoPath final = None) /\
       lastRepoPath final = saved /\ manager final = m) /\
  (forall (path e : string) (s : MainProcess M),
     simpleGit path = Thrown e ->
     path <> "" ->
     run (setRepoPath simpleGit M path) s =
       (mkStore (mkMain (git s) (Some path) (lastRepoPath s) (manager s)) [], Thrown e) /\
     run (legacySyncCallback simpleGit M (Some path)) s =
       (mkStore (mkMain (git s) (Some path) (lastRepoPath s) (manager s)) [], Thrown e)).
Proof.
  split.
  - intros ws saved m Hd. unfold run.
    assert (G : forall s : MainProcess M,
      exists final,
        legacyWrites simpleGit M ws (mkStore s []) = (mkStore final [], Returned tt) /\
        (LegacyConsistent simpleGit s -> LegacyConsistent simpleGit final) /\
        lastRepoPath final = lastRepoPath s /\ manager final = manager s).
    { induction ws as [|w ws IH]; intros s.
      - exists s. repeat split. now intros H.
      - destruct (legacyWrite_consistent simpleGit M w s) as (s1 & E1 & C1 & L1 & M1).
        { intros path [[H | []] | [[H | []] Hp]]; apply Hd; cbn; tauto. }
        destruct IH with (s := s1) as (final & E2 & C2 & L2 & M2).
        { intros path [H | [H Hp]]; apply Hd; cbn; tauto. }
        exists final. cbn [legacyWrites]. prog_step. rewrite E1, E2.
        repeat split; [intros _; now apply C2 | congruence | congruence]. }
    destruct (G (mkMain None None saved m)) as (final & E & C & L & Mm).
    exists final. repeat split; try assumption.
    + now apply C.
    + specialize (C eq_refl). unfold LegacyConsistent in C.
      destruct (repoPath final); [destruct C as (h & _ & C) |]; congruence.
    + specialize (C eq_refl). unfold LegacyConsistent in C.
      destruct (repoPath final); [destruct C as (h & _ & C) |]; congruence.
  - intros path e s He Hp. unfold run.
    rewrite (legacySyncCallback_run _ _ _ _ _ Hp), setRepoPath_run, He.
    split; reflexivity.
Qed.

Lemma legacy_globals_stay_consistent_witness :
  (exists final,
     run (legacyWrites onlyLedger unit
            [SetRepoPath "/home/me/ledger"; ClearLegacyState;
             LegacySync (Some "/home/me/ledger/src")])
         (mkMain None None None tt)
       = (mkStore final [], Returned tt) /\
     LegacyConsistent onlyLedger final) /\
  run (setRepoPath onlyLedger unit "/tmp/gone") (mkMain (Some sampleGit) (Some "/home/me/ledger") None tt)
    = (mkStore (mkMain (Some sampleGit) (Some "/tmp/gone") None tt) [],
       Thrown directoryDoesNotExist).
Proof.
  split.
  - destruct (proj1 (legacy_globals_stay_consistent onlyLedger unit)
                [SetRepoPath "/home/me/ledger"; ClearLegacyState;
                 LegacySync (Some "/home/me/ledger/src")] None tt)
      as (final & E & C & _).
    + intros path [[[= <-] | [[=] | [[=] | []]]] | [[[=] | [[=] | [[= <-] | []]]] _]];
        eexists; reflexivity.
    + exists final. split; assumption.
  - apply (proj2 (legacy_globals_stay_consistent onlyLedger unit) "/tmp/gone"
             directoryDoesNotExist
             (mkMain (Some sampleGit) (Some "/home/me/ledger") None tt));
      [reflexivity | discriminate].
Defined.

(* ===================================================================== *)
(** * The handlers of repo-handler.ts *)
(* ===================================================================== *)

Ltac handler_unfold :=
  unfold run, selectRepo, loadSavedRepo, openOrFallBack, selectRepoLegacy,
    loadSavedRepoLegacy, getRepoPathHandler, getLastRepoPath, getRepoPath,
    awaitOpen, saveLastRepoPath;
  prog_step.

(** [openOrFallBack] in one step.  A failure of [setRepoPath] on the path
    of the opened context is caught like a failure of [open]. *)
Lemma openOrFallBack_run (simpleGit : string -> Outcome SimpleGit) (M : Type)
    (manager_open : string -> MainProcess M -> MainProcess M * Reply RepositoryContext.t)
    (path : string) (s : MainProcess M) :
  openOrFallBack simpleGit M manager_open path (mkStore s []) =
    let '(s', reply) := manager_open path s in
    let fallBack :=
      match simpleGit path with
      | Returned handle =>
          (mkStore (mkMain (Some handle) (Some path) (lastRepoPath s') (manager s')) [],
           Returned (Some path))
      | Thrown e =>
          (mkStore (mkMain (git s') (Some path) (lastRepoPath s') (manager s')) [],
           Thrown e)
      end in
    match reply with
    | Resolved ctx =>
        match simpleGit (RepositoryContext.path ctx) with
        | Returned handle =>
            (mkStore (mkMain (Some handle) (Some (RepositoryContext.path ctx))
                        (lastRepoPath s') (manager s')) [],
             Returned (Some (RepositoryContext.path ctx)))
        | Thrown _ => fallBack
        end
    | Rejected _ => fallBack
    end.
Proof.
  handler_unfold. destruct (manager_open path s) as [s' [ctx|e]]; prog_step.
  - rewrite setRepoPath_run.
    destruct (simpleGit (RepositoryContext.path ctx)); prog_step; [reflexivity|].
    rewrite setRepoPath_run. cbn [git lastRepoPath manager].
    destruct (simpleGit path); reflexivity.
  - rewrite setRepoPath_run. destruct (simpleGit path); reflexivity.
Qed.

(** X6.  [load-saved-repo] with the test path, or else the saved path, as
    the path to load (an empty string counts as none).  With nothing to
    load it returns null and changes nothing.  With a path to load whose
    directory exists it does not throw: it returns a path, the legacy
    [repoPath] is that path and the legacy handle is bound to it.  With a
    path to load whose directory is gone and which the manager rejects, the
    handler throws the error of the factory, from its [catch] block, with
    [repoPath] set to the missing path and [git] as it was. *)
Theorem loadSavedRepo_null_iff_nothing_to_load (simpleGit : string -> Outcome SimpleGit)
    (M : Type)
    (manager_open : string -> MainProcess M -> MainProcess M * Reply RepositoryContext.t)
    (testPath : option string) (s : MainProcess M) :
  let toLoad := if truthyPath testPath then testPath else lastRepoPath s in
  (truthyPath toLoad = false ->
   run (loadSavedRepo simpleGit M manager_open testPath) s = (mkStore s [], Returned None)) /\
  (forall path handle,
     toLoad = Some path -> path <> "" ->
     simpleGit path = Returned handle ->
     exists final r,
       run (loadSavedRepo simpleGit M manager_open testPath) s
         = (mkStore final [], Returned (Some r)) /\
       repoPath final = Some r /\ LegacyConsistent simpleGit final) /\
  (forall path e s' e',
     toLoad = Some path -> path <> "" ->
     simpleGit path = Thrown e ->
     manager_open path s = (s', Rejected e') ->
     run (loadSavedRepo simpleGit M manager_open testPath) s
       = (mkStore (mkMain (git s') (Some path) (lastRepoPath s') (manager s')) [],
          Thrown e)).
Proof.
  intros toLoad.
  assert (E : run (loadSavedRepo simpleGit M manager_open testPath) s =
              if truthyPath toLoad
              then openOrFallBack simpleGit M manager_open (pathText toLoad) (mkStore s [])
              else (mkStore s [], Returned None)).
  { subst toLoad. unfold run, loadSavedRepo.
    destruct (truthyPath testPath) eqn:Et; [now rewrite Et|].
    unfold getLastRepoPath. prog_step.
    destruct (truthyPath (lastRepoPath s)); reflexivity. }
  rewrite E. clear E. split; [|split].
  - now intros ->.
  - intros path handle -> Hp Hh. apply truthy_iff in Hp.
    cbn [truthyPath pathText]. rewrite Hp, openOrFallBack_run.
    destruct (manager_open path s) as [s' [ctx|e]]; cbn zeta.
    + destruct (simpleGit (RepositoryContext.path ctx)) as [h|e1] eqn:Ec.
      * eexists _, _. split; [reflexivity|]. split; [reflexivity|].
        cbn. eauto.
      * rewrite Hh. eexists _, _. split; [reflexivity|]. split; [reflexivity|].
        cbn. eauto.
    + rewrite Hh. eexists _, _. split; [reflexivity|]. split; [reflexivity|].
      cbn. eauto.
  - intros path e s' e' -> Hp He Ho. apply truthy_iff in Hp.
    cbn [truthyPath pathText]. rewrite Hp, openOrFallBack_run, Ho. cbn zeta.
    now rewrite He.
Qed.

Lemma loadSavedRepo_null_iff_nothing_to_load_witness :
  run (loadSavedRepo onlyLedger unit refusingOpen None) (mkMain None None None tt)
    = (mkStore (mkMain None None None tt) [], Returned None) /\
  (exists final r,
     run (loadSavedRepo onlyLedger unit refusingOpen None)
         (mkMain None None (Some "/home/me/ledger") tt)
       = (mkStore final [], Returned (Some r)) /\
     repoPath final = Some r) /\
  run (loadSavedRepo onlyLedger unit refusingOpen None)
      (mkMain None None (Some "/tmp/gone") tt)
    = (mkStore (mkMain None (Some "/tmp/gone") (Some "/tmp/gone") tt) [],
       Thrown directoryDoesNotExist).
Proof.
  split; [|split].
  - apply (proj1 (loadSavedRepo_null_iff_nothing_to_load onlyLedger unit refusingOpen
                    None (mkMain None None None tt))).
    reflexivity.
  - destruct (proj1 (proj2 (loadSavedRepo_null_iff_nothing_to_load onlyLedger unit
                              refusingOpen None
                              (mkMain None None (Some "/home/me/ledger") tt)))
                "/home/me/ledger" sampleGit eq_refl)
      as (final & r & E & Hr & _); [discriminate | reflexivity |].
    exists final, r. split; assumption.
  - apply (proj2 (proj2 (loadSavedRepo_null_iff_nothing_to_load onlyLedger unit
                           refusingOpen None
                           (mkMain None None (Some "/tmp/gone") tt)))
             "/tmp/gone" directoryDoesNotExist
             (mkMain None None (Some "/tmp/gone") tt)
             (notAGitRepository "/tmp/gone"));
      try reflexivity; discriminate.
Defined.

(** X7.  [select-repo] does not throw, whatever the manager does, when the
    directories the dialog returned exist.  When it returns null (dialog
    canceled or no path chosen) nothing is changed and the manager is not
    asked.  When it returns a path, the legacy [repoPath] and the saved
    last path are both that path, and the legacy handle is bound to it. *)
Theorem selectRepo_result_is_recorded (simpleGit : string -> Outcome SimpleGit)
    (M : Type)
    (manager_open : string -> MainProcess M -> MainProcess M * Reply RepositoryContext.t)
    (result : OpenDialogReturnValue.t) (s : MainProcess M) :
  (forall path, In path (OpenDialogReturnValue.filePaths result) ->
                exists handle, simpleGit path = Returned handle) ->
  exists final r,
    run (selectRepo simpleGit M manager_open result) s = (mkStore final [], Returned r) /\
    (r = None <->
     OpenDialogReturnValue.canceled result = true \/
     OpenDialogReturnValue.filePaths result = []) /\
    (r = None -> final = s) /\
    (r <> None ->
     repoPath final = r /\ lastRepoPath final = r /\ LegacyConsistent simpleGit final).
Proof.
  intros Hd. handler_unfold.
  destruct (OpenDialogReturnValue.canceled result);
    [|destruct (OpenDialogReturnValue.filePaths result) as [|p ps]];
    cbn [orb length Nat.eqb hd]; prog_step.
  - destruct s as [g p l m]. eexists _, _. split; [reflexivity|].
    split; [split; [now left | reflexivity]|].
    split; [reflexivity|]. now intros H.
  - destruct s as [g p l m]. eexists _, _. split; [reflexivity|].
    split; [split; [now right | reflexivity]|].
    split; [reflexivity|]. now intros H.
  - destruct (Hd p (or_introl eq_refl)) as [h Hh].
    assert (Fall : forall (s' : MainProcess M),
      exists final r,
        (let (s0, o) := setRepoPath simpleGit M p (mkStore s' []) in
         match o with
         | Returned _ =>
             (mkStore (mkMain (git (vars s0)) (repoPath (vars s0)) (Some p)
                         (manager (vars s0))) (issued s0), Returned (Some p))
         | Thrown e => (s0, Thrown e)
         end) = (mkStore final [], Returned r) /\
        (r = None <-> false = true \/ p :: ps = []) /\
        (r = None -> final = s) /\
        (r <> None ->
         repoPath final = r /\ lastRepoPath final = r /\ LegacyConsistent simpleGit final)).
    { intros s'. rewrite setRepoPath_run, Hh. cbn [vars issued git repoPath manager].
      eexists _, _. split; [reflexivity|].
      split; [split; [discriminate | intros [? | ?]; discriminate]|].
      split; [discriminate|]. intros _. repeat split. cbn. eauto. }
    destruct (manager_open p s) as [s' [ctx|e]]; prog_step.
    + rewrite setRepoPath_run.
      destruct (simpleGit (RepositoryContext.path ctx)) as [hc|ec] eqn:Ec; prog_step.
      * eexists _, _. split; [reflexivity|].
        split; [split; [discriminate | intros [? | ?]; discriminate]|].
        split; [discriminate|]. intros _. repeat split. cbn. eauto.
      * apply Fall.
    + apply Fall.
Qed.

Lemma selectRepo_result_is_recorded_witness :
  exists final r,
    run (selectRepo onlyLedger unit acceptingOpen
           (OpenDialogReturnValue.mk false ["/home/me/ledger/src"]))
        (mkMain None None None tt)
      = (mkStore final [], Returned r) /\
    r = Some "/home/me/ledger" /\ repoPath final = r /\ lastRepoPath final = r.
Proof.
  destruct (selectRepo_result_is_recorded onlyLedger unit acceptingOpen
              (OpenDialogReturnValue.mk false ["/home/me/ledger/src"])
              (mkMain None None None tt))
    as (final & r & E & _ & _ & H).
  - intros path [<- | []]. eexists. reflexivity.
  - exists final, r. vm_compute in E. injection E as <- <-.
    repeat split.
Defined.

(** X8.  While the repository manager is unavailable (every [open] rejects
    and leaves the state as it was) the two handlers behave as the handlers
    of the earlier repo-handler.ts, which set the legacy path directly:
    same final state, same returned path or same error thrown. *)
Theorem handlers_fall_back_to_legacy (simpleGit : string -> Outcome SimpleGit)
    (M : Type)
    (manager_open : string -> MainProcess M -> MainProcess M * Reply RepositoryContext.t) :
  ManagerUnavailable manager_open ->
  (forall result s,
     run (selectRepo simpleGit M manager_open result) s =
     run (selectRepoLegacy simpleGit M result) s) /\
  (forall testPath s,
     run (loadSavedRepo simpleGit M manager_open testPath) s =
     run (loadSavedRepoLegacy simpleGit M testPath) s).
Proof.
  intros Hm. split.
  - intros result s. handler_unfold.
    destruct (OpenDialogReturnValue.canceled result
              || (length (OpenDialogReturnValue.filePaths result) =? 0)%nat);
      [reflexivity|].
    prog_step.
    destruct (Hm (hd "" (OpenDialogReturnValue.filePaths result)) s) as [e ->].
    prog_step. reflexivity.
  - intros testPath s. unfold run, loadSavedRepo, loadSavedRepoLegacy.
    destruct (truthyPath testPath).
    + rewrite openOrFallBack_run.
      destruct (Hm (pathText testPath) s) as [e ->].
      handler_unfold. rewrite setRepoPath_run.
      destruct (simpleGit (pathText testPath)); reflexivity.
    + unfold getLastRepoPath. prog_step.
      destruct (truthyPath (lastRepoPath s)); [|reflexivity].
      rewrite openOrFallBack_run.
      destruct (Hm (pathText (lastRepoPath s)) s) as [e ->].
      handler_unfold. rewrite setRepoPath_run.
      destruct (simpleGit (pathText (lastRepoPath s))); reflexivity.
Qed.

Lemma handlers_fall_back_to_legacy_witness :
  run (selectRepo (everywhere notARepoGit) unit refusingOpen pickedNotes)
      (mkMain None None None tt)
  = run (selectRepoLegacy (everywhere notARepoGit) unit pickedNotes)
      (mkMain None None None tt).
Proof.
  refine (proj1 (handlers_fall_back_to_legacy (everywhere notARepoGit) unit
                   refusingOpen _) pickedNotes (mkMain None None None tt)).
  intros path s. exists (notAGitRepository path). reflexivity.
Defined.

(** X9.  [get-repo-path] asked right after [select-repo] answers with the
    path [select-repo] returned, provided the manager's active context is
    the one it has just opened or, when the open failed, none, and the
    directory of that path exists. *)
Theorem getRepoPath_after_selectRepo (simpleGit : string -> Outcome SimpleGit)
    (M : Type)
    (manager_open : string -> MainProcess M -> MainProcess M * Reply RepositoryContext.t)
    (manager_getActive : M -> option RepositoryContext.t)
    (result : OpenDialogReturnValue.t) (selectedPath : string) (others : list string)
    (s s' : MainProcess M) (reply : Reply RepositoryContext.t) (handle : SimpleGit) :
  OpenDialogReturnValue.canceled result = false ->
  OpenDialogReturnValue.filePaths result = selectedPath :: others ->
  manager_open selectedPath s = (s', reply) ->
  manager_getActive (manager s') =
    match reply with Resolved ctx => Some ctx | Rejected _ => None end ->
  simpleGit match reply with
            | Resolved ctx => RepositoryContext.path ctx
            | Rejected _ => selectedPath
            end = Returned handle ->
  exists r,
    r <> None /\
    snd (run (selected <- selectRepo simpleGit M manager_open result ;;
              asked <- getRepoPathHandler M manager_getActive ;;
              ret (selected, asked)) s)
    = Returned (r, r).
Proof.
  intros Hc Hp Ho Ha Hh. handler_unfold.
  rewrite Hc, Hp. cbn [orb length Nat.eqb hd]. prog_step. rewrite Ho.
  destruct reply as [ctx|e]; prog_step; rewrite setRepoPath_run, Hh; prog_step;
    cbn [manager]; rewrite Ha;
    eexists; (split; [|reflexivity]); discriminate.
Qed.

Lemma getRepoPath_after_selectRepo_witness :
  exists r,
    r <> None /\
    snd (run (selected <- selectRepo (everywhere notARepoGit) unit refusingOpen pickedNotes ;;
              asked <- getRepoPathHandler unit (fun _ => None) ;;
              ret (selected, asked)) (mkMain None None None tt))
    = Returned (r, r).
Proof.
  apply (getRepoPath_after_selectRepo (everywhere notARepoGit) unit refusingOpen
           (fun _ => None) pickedNotes "/tmp/notes" [] (mkMain None None None tt)
           (mkMain None None None tt) (Rejected (notAGitRepository "/tmp/notes"))
           notARepoGit);
    reflexivity.
Defined.

(** X10.  When another repository is still the manager's active context
    and the open of the selected path, an existing directory, fails,
    [select-repo] returns the selected path and points the legacy globals
    at it, but [get-repo-path] keeps answering with the path of the active
    context: the two handlers then name different repositories whenever
    those paths differ. *)
Theorem getRepoPath_prefers_active_context (simpleGit : string -> Outcome SimpleGit)
    (M : Type)
    (manager_open : string -> MainProcess M -> MainProcess M * Reply RepositoryContext.t)
    (manager_getActive : M -> option RepositoryContext.t)
    (result : OpenDialogReturnValue.t) (selectedPath : string) (others : list string)
    (s s' : MainProcess M) (e : string) (active : RepositoryContext.t)
    (handle : SimpleGit) :
  OpenDialogReturnValue.canceled result = false ->
  OpenDialogReturnValue.filePaths result = selectedPath :: others ->
  manager_open selectedPath s = (s', Rejected e) ->
  manager_getActive (manager s') = Some active ->
  simpleGit selectedPath = Returned handle ->
  exists final,
    run (selected <- selectRepo simpleGit M manager_open result ;;
         asked <- getRepoPathHandler M manager_getActive ;;
         ret (selected, asked)) s
    = (mkStore final [],
       Returned (Some selectedPath, Some (RepositoryContext.path active))) /\
    repoPath final = Some selectedPath.
Proof.
  intros Hc Hp Ho Ha Hh. handler_unfold.
  rewrite Hc, Hp. cbn [orb length Nat.eqb hd]. prog_step. rewrite Ho.
  prog_step. rewrite setRepoPath_run, Hh. prog_step.
  cbn [manager]. rewrite Ha. eexists. split; reflexivity.
Qed.

Lemma getRepoPath_prefers_active_context_witness :
  exists final,
    run (selected <- selectRepo (everywhere notARepoGit) unit refusingOpen pickedNotes ;;
         asked <- getRepoPathHandler unit (fun _ => Some sampleContext) ;;
         ret (selected, asked)) (mkMain None None None tt)
    = (mkStore final [], Returned (Some "/tmp/notes", Some "/home/me/ledger")) /\
    repoPath final = Some "/tmp/notes".
Proof.
  apply (getRepoPath_prefers_active_context (everywhere notARepoGit) unit refusingOpen
           (fun _ => Some sampleContext) pickedNotes "/tmp/notes" []
           (mkMain None None None tt) (mkMain None None None tt)
           (notAGitRepository "/tmp/notes") sampleContext notARepoGit);
    reflexivity.
Defined.

(* ===================================================================== *)
(** * More on the opinionated pull *)
(* ===================================================================== *)

(** X11.  [pullCurrentBranch] issues [stash pop] only after its own stash
    command: whenever [stash pop] is among the commands of a call, the
    command [stash push --include-untracked -m ledger-auto-stash-for-pull]
    was issued earlier in that call and has resolved.  That the command has
    resolved is all the code looks at: on a dirty tree behind its remote,
    once the stash command has resolved, whatever Git answered, [stash pop]
    is issued later in the call, whether the pull succeeds or fails.  So
    when Git answers "No local changes to save", and has made no stash, the
    call pops the stash that was on top before it. *)
Theorem pull_pops_after_accepted_stash (g : SimpleGit) :
  let stash :=
    ["stash"; "push"; "--include-untracked"; "-m"; "ledger-auto-stash-for-pull"] in
  (In (Raw ["stash"; "pop"]) (issued (fst (callPull (Some g)))) ->
   exists pre post out,
     issued (fst (callPull (Some g))) = (pre ++ Raw stash :: post)%list /\
     In (Raw ["stash"; "pop"]) post /\
     raw g stash = Resolved out) /\
  (forall b st out,
     BehindRemote g b st -> Dirty st ->
     raw g stash = Resolved out ->
     In (Raw ["stash"; "pop"]) (issued (fst (callPull (Some g))))).
Proof.
  intros stash. subst stash. split.
  - pull_unfold. unfold stashPopArgs, stashPushArgs. pull_cases;
      cbn [bind ret raise catch get put Monad_Prog Exc_Prog State_Prog
           vars issued app fst snd negb In];
      intros H;
      first
        [ solve [exfalso; intuition discriminate]
        | eexists [_; _; _], _, _;
          split; [reflexivity | split; [cbn; intuition | reflexivity]] ].
  - intros b st out H Hd Hout. apply hasUncommittedChanges_iff in Hd.
    pull_past_compare H. rewrite Hd. unfold stashPushArgs, stashPopArgs.
    rewrite Hout.
    pull_cases;
      cbn [bind ret raise catch get put Monad_Prog Exc_Prog State_Prog
           vars issued app fst snd negb In];
      intuition.
Qed.

Lemma pull_pops_after_accepted_stash_witness :
  raw nothingToSaveGit
      ["stash"; "push"; "--include-untracked"; "-m"; "ledger-auto-stash-for-pull"]
    = Resolved "No local changes to save" /\
  In (Raw ["stash"; "pop"]) (issued (fst (callPull (Some nothingToSaveGit)))).
Proof.
  split; [reflexivity|].
  apply (proj2 (pull_pops_after_accepted_stash nothingToSaveGit)
           "feature" sampleStatus "No local changes to save").
  - repeat split; try discriminate.
    exists (BranchSummary.mk ["feature"; "main"] "feature" false). split; reflexivity.
  - left. discriminate.
  - reflexivity.
Defined.

Example pull_pops_older_stash :
  callPull (Some nothingToSaveGit) =
    (mkStore true
       [BranchLocal; Fetch ["origin"; "feature"]; Status; Raw stashPushArgs;
        Pull "origin" "feature" ["--rebase"]; Raw stashPopArgs],
     Returned (PullResult.mk true
                 "Pulled 3 commits and restored your uncommitted changes"
                 None (Some true))).
Proof. reflexivity. Qed.

(** X12.  A fetch that fails is handled by the same [catch] block as a
    failed pull, so its message is classified in the same way although no
    pull was attempted: with a conflict keyword in the message,
    [rebase --abort] is issued and the result says the pull failed due to
    conflicts ([hadConflicts = true]); with a no-tracking message the
    result is a success; otherwise the result is [success = false] with the
    message itself.  No stash command and no pull command is issued. *)
Theorem pull_fetch_failure_is_classified (g : SimpleGit) (bs : BranchSummary.t)
    (msg : string) :
  branchLocal g = Resolved bs ->
  BranchSummary.current bs <> "" ->
  fetch g ["origin"; BranchSummary.current bs] = Rejected msg ->
  let attempted := [BranchLocal; Fetch ["origin"; BranchSummary.current bs]] in
  (ConflictKeywords msg ->
     callPull (Some g) =
       (mkStore false (attempted ++ [Rebase ["--abort"]])%list,
        Returned (PullResult.mk false
          "Pull failed due to conflicts with incoming changes. Please resolve manually."
          (Some true) None))) /\
  (~ ConflictKeywords msg -> NoTrackingBranch msg ->
     callPull (Some g) =
       (mkStore false attempted,
        Returned (PullResult.mk true
          "No remote tracking branch (will be created on push)" None None))) /\
  (~ ConflictKeywords msg -> ~ NoTrackingBranch msg ->
     callPull (Some g) =
       (mkStore false attempted, Returned (PullResult.mk false msg None None))).
Proof.
  intros Hbs Hne Hf attempted. subst attempted.
  apply truthy_iff in Hne.
  assert (E : callPull (Some g) =
    if pullConflict msg then
      (mkStore false [BranchLocal; Fetch ["origin"; BranchSummary.current bs];
                      Rebase ["--abort"]],
       Returned (PullResult.mk false
         "Pull failed due to conflicts with incoming changes. Please resolve manually."
         (Some true) None))
    else if noTracking msg then
      (mkStore false [BranchLocal; Fetch ["origin"; BranchSummary.current bs]],
       Returned (PullResult.mk true
         "No remote tracking branch (will be created on push)" None None))
    else
      (mkStore false [BranchLocal; Fetch ["origin"; BranchSummary.current bs]],
       Returned (PullResult.mk false msg None None))).
  { pull_unfold. rewrite Hbs; cbn [negb]; rewrite Hne; cbn [negb]. rewrite Hf.
    cbn [bind ret raise catch get put Monad_Prog Exc_Prog State_Prog vars issued app].
    destruct (pullConflict msg), (noTracking msg), (rebase g ["--abort"]); reflexivity. }
  rewrite E. repeat split.
  - intros Hc. apply pullConflict_iff in Hc. now rewrite Hc.
  - intros Hc Hn. apply (not_true_iff _ _ (pullConflict_iff msg)) in Hc.
    apply noTracking_iff in Hn. now rewrite Hc, Hn.
  - intros Hc Hn. apply (not_true_iff _ _ (pullConflict_iff msg)) in Hc.
    apply (not_true_iff _ _ (noTracking_iff msg)) in Hn. now rewrite Hc, Hn.
Qed.

Lemma pull_fetch_failure_is_classified_witness :
  callPull (Some offlineGit) =
    (mkStore false [BranchLocal; Fetch ["origin"; "feature"]; Rebase ["--abort"]],
     Returned (PullResult.mk false
       "Pull failed due to conflicts with incoming changes. Please resolve manually."
       (Some true) None)).
Proof.
  refine (proj1 (pull_fetch_failure_is_classified offlineGit
                   (BranchSummary.mk ["feature"; "main"] "feature" false)
                   "fatal: couldn't find remote ref fix-conflict"
                   eq_refl _ eq_refl) _).
  - discriminate.
  - left. apply includes_iff. reflexivity.
Defined.

(** X13.  When the auto-stash command itself fails, no pull is attempted
    and no [stash pop] is issued; [didStash] stays false, the call still
    returns a result, without the [autoStashed] mark, and a message that
    is not classified is returned as it is with [success = false]. *)
Theorem pull_stash_failure_stops_before_pull (g : SimpleGit) (b : string)
    (st : StatusResult.t) (msg : string) :
  BehindRemote g b st ->
  Dirty st ->
  raw g stashPushArgs = Rejected msg ->
  vars (fst (callPull (Some g))) = false /\
  (forall c, In c (issued (fst (callPull (Some g)))) ->
             isPullCall c = false /\ isStashPop c = false) /\
  (exists r, snd (callPull (Some g)) = Returned r /\ PullResult.autoStashed r = None) /\
  (~ ConflictKeywords msg -> ~ NoTrackingBranch msg ->
   callPull (Some g) =
     (mkStore false (fetchAndCompare b ++ [Raw stashPushArgs])%list,
      Returned (PullResult.mk false msg None None))).
Proof.
  intros H Hd Hpush. apply hasUncommittedChanges_iff in Hd.
  assert (E : callPull (Some g) =
    if pullConflict msg then
      (mkStore false (fetchAndCompare b ++ [Raw stashPushArgs; Rebase ["--abort"]])%list,
       Returned (PullResult.mk false
         "Pull failed due to conflicts with incoming changes. Please resolve manually."
         (Some true) None))
    else if noTracking msg then
      (mkStore false (fetchAndCompare b ++ [Raw stashPushArgs])%list,
       Returned (PullResult.mk true
         "No remote tracking branch (will be created on push)" None None))
    else
      (mkStore false (fetchAndCompare b ++ [Raw stashPushArgs])%list,
       Returned (PullResult.mk false msg None None))).
  { pull_past_compare H. rewrite Hd, Hpush.
    cbn [bind ret raise catch get put Monad_Prog Exc_Prog State_Prog vars issued app].
    destruct (pullConflict msg), (noTracking msg), (rebase g ["--abort"]); reflexivity. }
  rewrite E. repeat split.
  - destruct (pullConflict msg), (noTracking msg); reflexivity.
  - destruct (pullConflict msg), (noTracking msg); cbn in H0;
      repeat (destruct H0 as [<- | H0]; [reflexivity|]); destruct H0.
  - destruct (pullConflict msg), (noTracking msg); cbn in H0;
      repeat (destruct H0 as [<- | H0]; [reflexivity|]); destruct H0.
  - destruct (pullConflict msg), (noTracking msg); eexists; split; reflexivity.
  - intros Hc Hn. apply (not_true_iff _ _ (pullConflict_iff msg)) in Hc.
    apply (not_true_iff _ _ (noTracking_iff msg)) in Hn. now rewrite Hc, Hn.
Qed.

Lemma pull_stash_failure_stops_before_pull_witness :
  callPull (Some stashFailsGit) =
    (mkStore false (fetchAndCompare "feature" ++ [Raw stashPushArgs])%list,
     Returned (PullResult.mk false "error: unable to write the index" None None)).
Proof.
  refine (proj2 (proj2 (proj2 (pull_stash_failure_stops_before_pull stashFailsGit
            "feature" sampleStatus "error: unable to write the index" _ _ eq_refl))) _ _).
  - repeat split; try discriminate.
    exists (BranchSummary.mk ["feature"; "main"] "feature" false). split; reflexivity.
  - left. discriminate.
  - intros H. apply pullConflict_iff in H. discriminate.
  - intros H. apply noTracking_iff in H. discriminate.
Defined.

(* ===================================================================== *)
(** * More on repository contexts *)
(* ===================================================================== *)

Lemma findOrigin_some (remotes : list RemoteWithRefs.t) (o : RemoteWithRefs.t) :
  findOrigin remotes = Some o -> In o remotes /\ RemoteWithRefs.name o = "origin".
Proof.
  unfold findOrigin. intros H. apply find_some in H as [Hin Hn].
  now apply String.eqb_eq in Hn.
Qed.

(** X14.  [getRemoteUrl] never throws.  A URL it returns is never the empty
    string: it is the fetch URL of the first remote named [origin], or the
    push URL of that remote when its fetch URL is empty.  It returns null
    exactly when the remotes cannot be listed, no remote is named [origin],
    or both URLs of the first such remote are empty. *)
Theorem getRemoteUrl_first_origin {V : Type} (g : SimpleGit) (s : Store V) :
  exists s' r,
    getRemoteUrl g s = (s', Returned r) /\
    (forall u, r = Some u ->
       u <> "" /\
       exists remotes o,
         getRemotes g true = Resolved remotes /\ findOrigin remotes = Some o /\
         In o remotes /\ RemoteWithRefs.name o = "origin" /\
         (RemoteWithRefs.fetch o = u \/
          (RemoteWithRefs.fetch o = "" /\ RemoteWithRefs.push o = u))) /\
    (r = None <->
     forall remotes o,
       getRemotes g true = Resolved remotes -> findOrigin remotes = Some o ->
       RemoteWithRefs.fetch o = "" /\ RemoteWithRefs.push o = "").
Proof.
  eexists _, _. split; [apply getRemoteUrl_run|].
  unfold remoteUrlOf, originUrl.
  destruct (getRemotes g true) as [remotes|e].
  - destruct (findOrigin remotes) as [o|] eqn:Eo.
    + destruct (findOrigin_some _ _ Eo) as [Hin Hn].
      destruct (truthy (RemoteWithRefs.fetch o)) eqn:Ef;
        [|destruct (truthy (RemoteWithRefs.push o)) eqn:Ep].
      * split.
        -- intros u [= <-]. split; [now apply truthy_iff|].
           exists remotes, o. repeat split; try assumption. now left.
        -- split; [discriminate|]. intros H.
           destruct (H remotes o eq_refl Eo) as [H1 _].
           rewrite H1 in Ef. discriminate.
      * assert (RemoteWithRefs.fetch o = "") by (now destruct (RemoteWithRefs.fetch o)).
        split.
        -- intros u [= <-]. split; [now apply truthy_iff|].
           exists remotes, o. repeat split; try assumption. now right.
        -- split; [discriminate|]. intros H'.
           destruct (H' remotes o eq_refl Eo) as [_ H2].
           rewrite H2 in Ep. discriminate.
      * assert (RemoteWithRefs.fetch o = "") by (now destruct (RemoteWithRefs.fetch o)).
        assert (RemoteWithRefs.push o = "") by (now destruct (RemoteWithRefs.push o)).
        split; [discriminate|]. split; [|reflexivity].
        intros _ remotes' o' [= <-] Ho'. rewrite Eo in Ho'. injection Ho' as <-. now split.
    + split; [discriminate|]. split; [|reflexivity].
      intros _ remotes' o' [= <-] Ho'. rewrite Eo in Ho'. discriminate.
  - split; [discriminate|]. split; [|reflexivity]. discriminate.
Qed.

Example getRemoteUrl_push_only :
  snd (run (getRemoteUrl
              (withGetRemotes
                 (Resolved [RemoteWithRefs.mk "upstream" "https://github.com/a/b.git" "";
                            RemoteWithRefs.mk "origin" "" "git@bitbucket.org:a/b.git"])
                 sampleGit)) tt)
  = Returned (Some "git@bitbucket.org:a/b.git").
Proof. reflexivity. Qed.

(** X15.  Provider detection ignores letter case: two URLs that are equal
    once lower-cased get the same provider. *)
Theorem detectProvider_ignores_case (u v : string) :
  toLowerCase u = toLowerCase v ->
  detectProvider (Some u) = detectProvider (Some v).
Proof.
  intros H. now rewrite !detectProvider_tests, H.
Qed.

Lemma detectProvider_ignores_case_witness :
  detectProvider (Some "HTTPS://GitLab.Example.ORG/Team/App.git") =
  detectProvider (Some "https://gitlab.example.org/team/app.git").
Proof.
  apply (detectProvider_ignores_case "HTTPS://GitLab.Example.ORG/Team/App.git"
           "https://gitlab.example.org/team/app.git").
  reflexivity.
Defined.

Lemma remoteUrlOf_some_origin (g : SimpleGit) (u : string) :
  remoteUrlOf g = Some u -> HasOrigin g /\ u <> "".
Proof.
  unfold remoteUrlOf, originUrl, HasOrigin.
  destruct (getRemotes g true) as [remotes|e]; [|discriminate].
  destruct (findOrigin remotes) as [o|] eqn:Eo; [|discriminate].
  destruct (findOrigin_some _ _ Eo) as [Hin Hn].
  destruct (truthy (RemoteWithRefs.fetch o)) eqn:Ef;
    [|destruct (truthy (RemoteWithRefs.push o)) eqn:Ep]; try discriminate;
    intros [= <-]; (split; [now exists remotes, o | now apply truthy_iff]).
Qed.

(** X16.  In every context [createRepositoryContext] returns, the metadata
    agree with one another: the provider is the one detected from the
    stored remote URL, the two names are the base name of the stored path,
    nothing has been fetched yet, and a provider other than [local] means
    that the repository has a remote named [origin] with a URL that is not
    empty. *)
Theorem createRepositoryContext_metadata_agree
    (simpleGit : string -> Outcome SimpleGit)
    (basename : string -> string) (uuidv4 : string) (now : N) (repoPath : string)
    (s : Store unit) (ctx : RepositoryContext.t) :
  callCreate simpleGit basename uuidv4 now repoPath = (s, Returned ctx) ->
  let metadata := RepositoryContext.metadata ctx in
  RepositoryMetadata.provider metadata
    = detectProvider (RepositoryMetadata.remoteUrl metadata) /\
  RepositoryContext.name ctx = basename (RepositoryContext.path ctx) /\
  RepositoryMetadata.name metadata = RepositoryContext.name ctx /\
  RepositoryMetadata.lastFetched metadata = None /\
  RepositoryContext.id ctx = uuidv4 /\
  (RepositoryMetadata.provider metadata <> local ->
   (exists g, simpleGit repoPath = Returned g /\ HasOrigin g) /\
   exists u, RepositoryMetadata.remoteUrl metadata = Some u /\ u <> "").
Proof.
  intros H.
  destruct (simpleGit repoPath) as [g|e0] eqn:Hg;
    [|rewrite (createRepositoryContext_no_directory _ _ _ _ _ _ Hg) in H; discriminate].
  destruct (checkIsRepo g) as [[|]|e] eqn:Hrepo.
  - destruct (revparse g ["--show-toplevel"]) as [root|e] eqn:Hroot.
    + rewrite (createRepositoryContext_in_repo _ _ _ _ _ _ _ Hg Hrepo Hroot) in H.
      destruct (simpleGit (trim root)) as [rootGit|e1]; [|discriminate].
      injection H as _ <-. cbn. repeat split.
      * destruct (remoteUrlOf g) as [u|] eqn:Eu.
        -- exists g. split; [reflexivity|]. now apply remoteUrlOf_some_origin in Eu.
        -- intros. exfalso. now apply H.
      * destruct (remoteUrlOf g) as [u|] eqn:Eu.
        -- exists u. split; [reflexivity|]. now apply remoteUrlOf_some_origin in Eu.
        -- exfalso. now apply H.
    + exfalso. revert H. unfold callCreate, run, createRepositoryContext, await, sync.
      prog_step. rewrite Hg. prog_step. rewrite Hrepo. prog_step. rewrite Hroot.
      discriminate.
  - rewrite (createRepositoryContext_not_a_repo _ _ _ _ _ _ Hg Hrepo) in H. discriminate.
  - exfalso. revert H. unfold callCreate, run, createRepositoryContext, await, sync.
    prog_step. rewrite Hg. prog_step. rewrite Hrepo. discriminate.
Qed.

Lemma createRepositoryContext_metadata_agree_witness :
  exists s ctx,
    callCreate (everywhere sampleGit) (fun p => p) "id-1" 0 "/home/me/ledger/src"
      = (s, Returned ctx) /\
    RepositoryMetadata.provider (RepositoryContext.metadata ctx)
      = detectProvider (RepositoryMetadata.remoteUrl (RepositoryContext.metadata ctx)) /\
    exists g, everywhere sampleGit "/home/me/ledger/src" = Returned g /\ HasOrigin g.
Proof.
  eexists _, _. split; [vm_compute; reflexivity|].
  match goal with
  | |- RepositoryMetadata.provider (RepositoryContext.metadata ?c) = _ /\ _ =>
      pose proof (createRepositoryContext_metadata_agree (everywhere sampleGit)
                    (fun p => p) "id-1" 0 "/home/me/ledger/src" _ c eq_refl)
        as (Hp & _ & _ & _ & _ & Ho)
  end.
  split; [exact Hp|]. apply Ho. discriminate.
Defined.

(* ===================================================================== *)
(** * The branch name of a converted worktree *)
(* ===================================================================== *)

Example worktreeBranchName_spaces :
  worktreeBranchName "My Feature (v2)!" = "My-Feature-v2".
Proof. reflexivity. Qed.

Example worktreeBranchName_nothing_left : worktreeBranchName "..." = "".
Proof. reflexivity. Qed.

Lemma isNameChar_not_dash (c : ascii) : isNameChar c = true -> isDash c = false.
Proof.
  unfold isDash. destruct (Ascii.eqb c "-") eqn:E; [|reflexivity].
  apply Ascii.eqb_eq in E as ->. discriminate.
Qed.

Lemma collapseDashes_first (s : string) :
  firstIsDash (collapseDashes s) = firstIsDash s.
Proof.
  induction s as [|c s IH]; simpl; [reflexivity|].
  destruct (isDash c) eqn:Ec; simpl.
  - destruct (firstIsDash s) eqn:Es; simpl; [now rewrite IH | exact Ec].
  - exact Ec.
Qed.

Lemma collapseDashes_noDoubleDash (s : string) : noDoubleDash (collapseDashes s) = true.
Proof.
  induction s as [|c s IH]; simpl; [reflexivity|].
  destruct (isDash c && firstIsDash s) eqn:E; [exact IH|].
  simpl. now rewrite collapseDashes_first, E, IH.
Qed.

Lemma collapseDashes_only (s : string) :
  onlyBranchChars s = true -> onlyBranchChars (collapseDashes s) = true.
Proof.
  induction s as [|c s IH]; simpl; [reflexivity|].
  rewrite andb_true_iff. intros [Hc Hs].
  destruct (isDash c && firstIsDash s); [now apply IH|].
  simpl. now rewrite Hc, IH.
Qed.

Lemma collapseDashes_hasNameChar (s : string) :
  hasNameChar (collapseDashes s) = hasNameChar s.
Proof.
  induction s as [|c s IH]; simpl; [reflexivity|].
  destruct (isDash c && firstIsDash s) eqn:E.
  - apply andb_true_iff in E as [Ec _].
    destruct (isNameChar c) eqn:En; [|exact IH].
    apply isNameChar_not_dash in En. congruence.
  - simpl. now rewrite IH.
Qed.

Lemma collapseDashes_fixed (s : string) :
  noDoubleDash s = true -> collapseDashes s = s.
Proof.
  induction s as [|c s IH]; simpl; [reflexivity|].
  rewrite andb_true_iff, negb_true_iff. intros [E Hs].
  now rewrite E, (IH Hs).
Qed.

Lemma replaceOtherChars_only (s : string) : onlyBranchChars (replaceOtherChars s) = true.
Proof.
  induction s as [|c s IH]; simpl; [reflexivity|].
  rewrite IH, andb_true_r.
  destruct (isNameChar c || isDash c) eqn:E; [exact E | reflexivity].
Qed.

Lemma replaceOtherChars_hasNameChar (s : string) :
  hasNameChar (replaceOtherChars s) = hasNameChar s.
Proof.
  induction s as [|c s IH]; simpl; [reflexivity|].
  rewrite IH. destruct (isNameChar c) eqn:En; [simpl; now rewrite En|].
  simpl. destruct (isDash c); [now rewrite En | reflexivity].
Qed.

Lemma replaceOtherChars_fixed (s : string) :
  onlyBranchChars s = true -> replaceOtherChars s = s.
Proof.
  induction s as [|c s IH]; simpl; [reflexivity|].
  rewrite andb_true_iff. intros [Hc Hs]. now rewrite Hc, (IH Hs).
Qed.

Lemma dropLastDash_spec (s : string) :
  onlyBranchChars s = true -> noDoubleDash s = true ->
  onlyBranchChars (dropLastDash s) = true /\
  noDoubleDash (dropLastDash s) = true /\
  lastIsDash (dropLastDash s) = false /\
  (firstIsDash s = false -> firstIsDash (dropLastDash s) = false) /\
  hasNameChar (dropLastDash s) = hasNameChar s /\
  (lastIsDash s = false -> dropLastDash s = s).
Proof.
  induction s as [|c s IH]; [repeat split|].
  cbn [onlyBranchChars noDoubleDash]. rewrite !andb_true_iff, negb_true_iff.
  intros [Hc Hs] [Hcd Hn].
  destruct s as [|c' s'].
  - cbn. destruct (isDash c) eqn:Ec; cbn; rewrite ?Ec, ?Hc; repeat split;
      try discriminate; try reflexivity.
    destruct (isNameChar c) eqn:En; [|reflexivity].
    apply isNameChar_not_dash in En. congruence.
  - destruct (IH Hs Hn) as (I1 & I2 & I3 & I4 & I5 & I6).
    change (dropLastDash (String c (String c' s')))
      with (String c (dropLastDash (String c' s'))).
    cbn [onlyBranchChars noDoubleDash hasNameChar firstIsDash].
    rewrite Hc, I1, I2, I5. cbn [andb].
    assert (Hfirst : isDash c && firstIsDash (dropLastDash (String c' s')) = false).
    { destruct (isDash c) eqn:Ec; [|reflexivity]. cbn [andb firstIsDash] in Hcd |- *.
      now apply I4. }
    rewrite Hfirst.
    split; [reflexivity|]. split; [reflexivity|]. split; [|split; [|split]].
    + destruct (dropLastDash (String c' s')) as [|x r] eqn:Ed; [|exact I3].
      cbn. destruct (isDash c) eqn:Ec; [|reflexivity].
      exfalso. cbn [andb firstIsDash] in Hcd.
      (* the rest was a single dash, which the dash [c] cannot precede *)
      destruct s' as [|c'' s'']; cbn in Ed.
      * destruct (isDash c') eqn:Ec'; [congruence | discriminate].
      * discriminate.
    + now intros H.
    + reflexivity.
    + intros Hl. change (lastIsDash (String c' s') = false) in Hl. now rewrite (I6 Hl).
Qed.

Lemma dropFirstDash_spec (s : string) :
  onlyBranchChars s = true -> noDoubleDash s = true ->
  onlyBranchChars (dropFirstDash s) = true /\
  noDoubleDash (dropFirstDash s) = true /\
  firstIsDash (dropFirstDash s) = false /\
  hasNameChar (dropFirstDash s) = hasNameChar s /\
  (firstIsDash s = false -> dropFirstDash s = s).
Proof.
  destruct s as [|c s]; [repeat split|].
  cbn [onlyBranchChars noDoubleDash dropFirstDash firstIsDash hasNameChar].
  rewrite !andb_true_iff, negb_true_iff. intros [Hc Hs] [Hcd Hn].
  destruct (isDash c) eqn:Ec.
  - cbn [andb] in Hcd. repeat split; try assumption; try discriminate.
    destruct (isNameChar c) eqn:En; [|reflexivity].
    apply isNameChar_not_dash in En. congruence.
  - cbn [onlyBranchChars noDoubleDash firstIsDash hasNameChar].
    rewrite Ec, Hc, Hs, Hn. repeat split.
Qed.

Lemma hasNameChar_not_empty (s : string) : hasNameChar s = true -> s <> "".
Proof. destruct s; [discriminate | discriminate]. Qed.

Lemma trimmed_without_name_char (s : string) :
  onlyBranchChars s = true -> noDoubleDash s = true -> hasNameChar s = false ->
  firstIsDash s = false -> s = "".
Proof.
  destruct s as [|c s]; [reflexivity|].
  cbn. intros Hc _ Hn Hd. apply orb_false_iff in Hn as [Hn _].
  rewrite Hn, Hd in Hc. discriminate.
Qed.

(** X17.  The branch name derived from a worktree folder name contains only
    letters, digits, underscores and dashes, has no two dashes in a row and
    neither starts nor ends with a dash.  It is empty, which makes the
    conversion refuse, exactly when the folder name has no letter, digit
    or underscore; and a folder name that already has this shape is kept
    as it is. *)
Theorem worktreeBranchName_is_clean (folderName : string) :
  CleanBranchName (worktreeBranchName folderName) /\
  (worktreeBranchName folderName = "" <-> hasNameChar folderName = false) /\
  (CleanBranchName folderName -> worktreeBranchName folderName = folderName).
Proof.
  unfold worktreeBranchName, trimDashes, CleanBranchName.
  set (r := replaceOtherChars folderName).
  set (c := collapseDashes r).
  assert (Hr : onlyBranchChars r = true) by apply replaceOtherChars_only.
  assert (Hc1 : onlyBranchChars c = true) by now apply collapseDashes_only.
  assert (Hc2 : noDoubleDash c = true) by apply collapseDashes_noDoubleDash.
  destruct (dropFirstDash_spec c Hc1 Hc2) as (F1 & F2 & F3 & F4 & F5).
  destruct (dropLastDash_spec (dropFirstDash c) F1 F2) as (L1 & L2 & L3 & L4 & L5 & L6).
  assert (Hname : hasNameChar (dropLastDash (dropFirstDash c)) = hasNameChar folderName).
  { rewrite L5, F4. unfold c, r.
    now rewrite collapseDashes_hasNameChar, replaceOtherChars_hasNameChar. }
  split; [|split].
  - repeat split; try assumption. now apply L4.
  - split.
    + intros E. rewrite E in Hname. now rewrite <- Hname.
    + intros E. apply trimmed_without_name_char; try assumption.
      * now rewrite Hname.
      * now apply L4.
  - intros (C1 & C2 & C3 & C4). unfold c, r.
    rewrite (replaceOtherChars_fixed _ C1), (collapseDashes_fixed _ C2).
    destruct (dropFirstDash_spec folderName C1 C2) as (_ & _ & _ & _ & G5).
    rewrite (G5 C3).
    destruct (dropLastDash_spec folderName C1 C2) as (_ & _ & _ & _ & _ & G6).
    now apply G6.
Qed.

Lemma worktreeBranchName_is_clean_witness :
  worktreeBranchName "fix-login_v2" = "fix-login_v2".
Proof.
  apply (proj2 (proj2 (worktreeBranchName_is_clean "fix-login_v2"))).
  repeat split.
Defined.

(* ===================================================================== *)
(** * The list of stashes *)
(* ===================================================================== *)

Example getStashes_sample :
  run (getStashes (Some (withRaw (fun _ => Resolved (stashListOutput sampleStashes))
                           sampleGit))) tt
  = (mkStore tt [Raw stashListArgs], Returned (map snd sampleStashes)).
Proof. vm_compute. reflexivity. Qed.

Example getStashes_subject_without_branch :
  snd (run (getStashes (Some (withRaw (fun _ => Resolved "stash@{3}|quick save|today")
                                sampleGit))) tt)
  = Returned [StashEntry.mk 3 "quick save" "" (Some "today")].
Proof. vm_compute. reflexivity. Qed.

Lemma parseStashLine_keeps_store {V : Type} (line : string) (s : Store V) :
  fst (parseStashLine line s) = s.
Proof.
  unfold parseStashLine.
  destruct (JsText.split "|" line) as [|a [|b rest]]; reflexivity.
Qed.

Lemma parseStashLine_no_separator {V : Type} (line : string) (s : Store V) :
  JsText.lacks "|" line = true ->
  exists e, parseStashLine line s = (s, Thrown e).
Proof.
  intros H. unfold parseStashLine. rewrite (split_lacks _ _ H).
  eexists. reflexivity.
Qed.

Lemma parseStashLines_throws {V : Type} (lines : list string) (line : string)
    (s : Store V) :
  In line lines -> JsText.lacks "|" line = true ->
  exists e, parseStashLines lines s = (s, Thrown e).
Proof.
  intros Hin Hl. induction lines as [|l ls IH]; [destruct Hin|].
  cbn [parseStashLines]. prog_step.
  pose proof (parseStashLine_keeps_store l s) as Hk.
  destruct (parseStashLine l s) as [s1 [entry|e]] eqn:E; cbn in Hk; subst s1.
  - destruct Hin as [-> | Hin].
    + destruct (parseStashLine_no_separator line s Hl) as [e' E'].
      rewrite E' in E. discriminate.
    + destruct (IH Hin) as [e' ->]. now exists e'.
  - now exists e.
Qed.

(** X18.  With a repository selected [getStashes] never throws.  It returns
    the empty list when Git rejects the command and when the output is
    blank; and also when any one line of the output has no [|] at all,
    however many well-formed lines there are beside it. *)
Theorem getStashes_empty_on_failure (g : SimpleGit) :
  (exists l, run (getStashes (Some g)) tt = (mkStore tt [Raw stashListArgs], Returned l)) /\
  (forall e, raw g stashListArgs = Rejected e ->
     snd (run (getStashes (Some g)) tt) = Returned []) /\
  (forall output, raw g stashListArgs = Resolved output -> trim output = "" ->
     snd (run (getStashes (Some g)) tt) = Returned []) /\
  (forall output line,
     raw g stashListArgs = Resolved output ->
     In line (JsText.split newline (trim output)) ->
     JsText.lacks "|" line = true ->
     snd (run (getStashes (Some g)) tt) = Returned []).
Proof.
  unfold run, getStashes, await. prog_step.
  destruct (raw g stashListArgs) as [output|e] eqn:Eraw.
  - prog_step.
    destruct (truthy (trim output)) eqn:Et; cbn [negb].
    + cbn [app]. set (s1 := mkStore tt [Raw stashListArgs]).
      assert (Hk : forall lines : list string,
        exists r, parseStashLines lines s1 = (s1, r)).
      { induction lines as [|l ls [r IH]]; [eexists; reflexivity|].
        cbn [parseStashLines]. prog_step.
        pose proof (parseStashLine_keeps_store l s1) as Hl.
        destruct (parseStashLine l s1) as [s2 [entry|e]]; cbn in Hl; subst s2.
        - rewrite IH. destruct r; eexists; reflexivity.
        - eexists; reflexivity. }
      destruct (Hk (JsText.split (ascii_of_N 10) (trim output))) as [r Hr].
      rewrite Hr. repeat split.
      * destruct r; eexists; reflexivity.
      * discriminate.
      * intros output' [= <-] H0. rewrite H0 in Et. discriminate.
      * intros output' line [= <-] Hin Hl.
        destruct (parseStashLines_throws _ line s1 Hin Hl) as [e He].
        unfold newline in He. rewrite He in Hr. now injection Hr as <-.
    + repeat split; try discriminate; try reflexivity.
      eexists; reflexivity.
  - repeat split; try discriminate; try reflexivity.
    eexists; reflexivity.
Qed.

Example getStashes_one_bad_line :
  snd (run (getStashes
              (Some (withRaw
                       (fun _ => Resolved
                          (stashListOutput sampleStashes ++ "warning: refname is ambiguous"))
                       sampleGit))) tt)
  = Returned [].
Proof. vm_compute. reflexivity. Qed.

Lemma lacks_app (c : ascii) (a b : string) :
  JsText.lacks c (a ++ b) = JsText.lacks c a && JsText.lacks c b.
Proof.
  induction a as [|x a IH]; simpl; [reflexivity|].
  now rewrite IH, andb_assoc.
Qed.

Lemma string_of_uint_allDigits (d : Decimal.uint) :
  allDigits (NilEmpty.string_of_uint d) = true.
Proof. induction d; simpl; auto. Qed.

Lemma ofNumber_allDigits (n : N) : allDigits (ofNumber n) = true.
Proof. apply string_of_uint_allDigits. Qed.

Lemma ofNumber_not_empty (n : N) : ofNumber n <> "".
Proof.
  intros H. pose proof (digitsValue_ofNumber n) as P. rewrite H in P.
  cbn in P. subst n. discriminate H.
Qed.

Lemma allDigits_lacks (c : ascii) (s : string) :
  JsText.isDigit c = false -> allDigits s = true -> JsText.lacks c s = true.
Proof.
  intros Hc. induction s as [|x s IH]; simpl; [reflexivity|].
  rewrite andb_true_iff. intros [Hx Hs]. rewrite (IH Hs), andb_true_r.
  destruct (Ascii.eqb x c) eqn:E; [|reflexivity].
  apply Ascii.eqb_eq in E. subst x. congruence.
Qed.

Lemma spanDigits_app (ds : string) (c : ascii) (rest : string) :
  allDigits ds = true -> JsText.isDigit c = false ->
  JsText.spanDigits (ds ++ String c rest) = (ds, String c rest).
Proof.
  intros Hd Hc. induction ds as [|x ds IH]; simpl.
  - now rewrite Hc.
  - simpl in Hd. apply andb_true_iff in Hd as [Hx Hd].
    now rewrite Hx, (IH Hd).
Qed.

Lemma spanNotColon_app (b rest : string) :
  JsText.lacks ":" b = true ->
  spanNotColon (b ++ String ":" rest) = (b, String ":" rest).
Proof.
  induction b as [|x b IH]; simpl; [reflexivity|].
  rewrite andb_true_iff, negb_true_iff. intros [Hx Hb].
  now rewrite Hx, (IH Hb).
Qed.

Lemma stashRef_lacks (c : ascii) (n : N) :
  JsText.isDigit c = false ->
  JsText.lacks c "stash@{}" = true ->
  JsText.lacks c (stashRef n) = true.
Proof.
  intros Hd Hc. unfold stashRef.
  rewrite !lacks_app, (allDigits_lacks c _ Hd (ofNumber_allDigits n)).
  change "stash@{}" with ("stash@{" ++ "}") in Hc. rewrite lacks_app in Hc.
  apply andb_true_iff in Hc as [-> ->]. reflexivity.
Qed.

Lemma matchStashIndex_stashRef (n : N) :
  matchStashIndex (stashRef n) = Some (ofNumber n).
Proof.
  unfold stashRef.
  assert (E : matchStashIndexAt ("stash@{" ++ ofNumber n ++ "}") = Some (ofNumber n)).
  { unfold matchStashIndexAt. cbn [stripPrefix append Ascii.eqb Bool.eqb].
    change (ofNumber n ++ "}") with (ofNumber n ++ String "}" "").
    rewrite (spanDigits_app _ "}" "" (ofNumber_allDigits n) eq_refl).
    destruct (ofNumber n) eqn:En; [now apply ofNumber_not_empty in En | reflexivity]. }
  change ("stash@{" ++ ofNumber n ++ "}")
    with (String "s" ("tash@{" ++ ofNumber n ++ "}")) in *.
  cbn [matchStashIndex]. now rewrite E.
Qed.

(** The subject field of a line. *)
Lemma stashLine_fields (wip : bool) (e : StashEntry.t) :
  stashLine wip e =
    stashRef (StashEntry.index e)
    ++ String "|"
         (((if wip then "WIP on " else "On ") ++ StashEntry.branch e
           ++ String ":" (String " " (StashEntry.message e)))
          ++ String "|" (pathText (StashEntry.date e))).
Proof.
  unfold stashLine. f_equal. cbn [append].
  f_equal. destruct wip; rewrite !append_assoc; reflexivity.
Qed.

Lemma subject_branch (wip : bool) (b m : string) :
  b <> "" -> JsText.lacks ":" b = true ->
  matchWipOnBranch ((if wip then "WIP on " else "On ") ++ b ++ String ":" (String " " m))
    = Some (b, String ":" (String " " m)).
Proof.
  intros Hne Hl.
  assert (Hspan := spanNotColon_app b (String " " m) Hl).
  destruct wip; unfold matchWipOnBranch, matchOnBranch;
    cbn [stripPrefix append Ascii.eqb Bool.eqb orb]; rewrite Hspan;
    destruct b; [contradiction | reflexivity | contradiction | reflexivity].
Qed.

Lemma parseStashLine_stashLine {V : Type} (wip : bool) (e : StashEntry.t) (s : Store V) :
  PrintableStash e -> parseStashLine (stashLine wip e) s = (s, Returned e).
Proof.
  intros (Hidx & Hne & Hbc & Hbp & _ & Hmp & _ & d & Hd & Hdp & _ & _).
  destruct e as [n m b dt]. cbn [StashEntry.index StashEntry.message StashEntry.branch
                                  StashEntry.date] in *.
  subst dt. unfold parseStashLine. rewrite stashLine_fields.
  cbn [StashEntry.index StashEntry.message StashEntry.branch StashEntry.date pathText].
  rewrite split_app_sep by (apply stashRef_lacks; reflexivity).
  rewrite split_app_sep.
  2:{ rewrite !lacks_app. cbn [JsText.lacks]. rewrite Hbp, Hmp.
      destruct wip; reflexivity. }
  rewrite (split_lacks _ _ Hdp).
  rewrite matchStashIndex_stashRef, (parseInt_ofNumber _ Hidx).
  pose proof (subject_branch wip b m Hne Hbc) as Hsub.
  assert (Hb : matchBranch ((if wip then "WIP on " else "On ") ++ b
                            ++ String ":" (String " " m)) = Some b).
  { assert (Hat : matchBranchAt ((if wip then "WIP on " else "On ") ++ b
                                 ++ String ":" (String " " m)) = Some b).
    { unfold matchBranchAt. now rewrite Hsub. }
    destruct wip; cbn [append] in *; cbn [matchBranch]; now rewrite Hat. }
  rewrite Hb. unfold stripBranchPrefix. rewrite Hsub. reflexivity.
Qed.

Lemma append_nil_r (s : string) : s ++ "" = s.
Proof. induction s as [|c s IH]; simpl; [reflexivity | now rewrite IH]. Qed.

Lemma trimEnd_app_newline (s : string) :
  trimEnd (s ++ String newline "") = trimEnd s.
Proof. induction s as [|c s IH]; simpl; [reflexivity | now rewrite IH]. Qed.

Lemma trimEnd_fixed (s : string) : endsInText s = true -> trimEnd s = s.
Proof.
  induction s as [|c s IH]; [discriminate|].
  destruct s as [|c' s'].
  - cbn. now intros ->%negb_true_iff.
  - intros H. change (endsInText (String c' s') = true) in H.
    specialize (IH H).
    change (trimEnd (String c (String c' s')))
      with (match trimEnd (String c' s') with
            | EmptyString => if isWhiteSpace c then EmptyString else String c EmptyString
            | String a r => String c (String a r)
            end).
    now rewrite IH.
Qed.

Lemma endsInText_app (a b : string) : endsInText b = true -> endsInText (a ++ b) = true.
Proof.
  intros Hb. induction a as [|c a IH]; [exact Hb|].
  cbn [append endsInText]. destruct (a ++ b); [discriminate IH | exact IH].
Qed.

Lemma split_join (sep : ascii) (lines : list string) :
  lines <> [] ->
  Forall (fun line => JsText.lacks sep line = true) lines ->
  JsText.split sep (JsText.join (String sep "") lines) = lines.
Proof.
  intros Hne Hl. induction lines as [|l ls IH]; [contradiction|].
  inversion Hl as [|? ? Hl1 Hl2]; subst.
  destruct ls as [|l2 ls].
  - cbn. now apply split_lacks.
  - change (JsText.join (String sep "") (l :: l2 :: ls))
      with (l ++ String sep (JsText.join (String sep "") (l2 :: ls))).
    rewrite (split_app_sep _ _ _ Hl1), IH; [reflexivity | discriminate | assumption].
Qed.

Lemma stashListOutput_lines (items : list (bool * StashEntry.t)) :
  items <> [] ->
  stashListOutput items =
    JsText.join (String newline "") (map (fun item => stashLine (fst item) (snd item)) items)
    ++ String newline "".
Proof.
  unfold stashListOutput. intros Hne.
  induction items as [|i items IH]; [contradiction|].
  destruct items as [|i2 items].
  - reflexivity.
  - change (String.concat "" (map (fun item => stashLine (fst item) (snd item)
                                      ++ String newline "") (i :: i2 :: items)))
      with ((stashLine (fst i) (snd i) ++ String newline "") ++ "" ++
            String.concat "" (map (fun item => stashLine (fst item) (snd item)
                                     ++ String newline "") (i2 :: items))).
    rewrite IH by discriminate.
    change (JsText.join (String newline "")
              (map (fun item => stashLine (fst item) (snd item)) (i :: i2 :: items)))
      with (stashLine (fst i) (snd i) ++ String newline ""
            ++ JsText.join (String newline "")
                 (map (fun item => stashLine (fst item) (snd item)) (i2 :: items))).
    cbn [append]. now rewrite !append_assoc.
Qed.

Lemma stashLine_lacks_newline (wip : bool) (e : StashEntry.t) :
  PrintableStash e -> JsText.lacks newline (stashLine wip e) = true.
Proof.
  intros (_ & _ & _ & _ & Hb & _ & Hm & d & Hd & _ & Hdn & _).
  unfold stashLine. rewrite Hd. cbn [pathText].
  rewrite !lacks_app, Hb, Hm, Hdn, (stashRef_lacks newline _ eq_refl eq_refl).
  destruct wip; reflexivity.
Qed.

Lemma stashLine_endsInText (wip : bool) (e : StashEntry.t) :
  PrintableStash e -> endsInText (stashLine wip e) = true.
Proof.
  intros (_ & _ & _ & _ & _ & _ & _ & d & Hd & _ & _ & He).
  unfold stashLine. rewrite Hd. cbn [pathText].
  repeat apply endsInText_app. exact He.
Qed.

Lemma join_endsInText (lines : list string) :
  lines <> [] -> Forall (fun line => endsInText line = true) lines ->
  endsInText (JsText.join (String newline "") lines) = true.
Proof.
  intros Hne Hl. induction lines as [|l ls IH]; [contradiction|].
  inversion Hl as [|? ? Hl1 Hl2]; subst.
  destruct ls as [|l2 ls]; [exact Hl1|].
  change (JsText.join (String newline "") (l :: l2 :: ls))
    with (l ++ String newline "" ++ JsText.join (String newline "") (l2 :: ls)).
  repeat apply endsInText_app. apply IH; [discriminate | assumption].
Qed.

Lemma parseStashLines_stashLines {V : Type} (items : list (bool * StashEntry.t))
    (s : Store V) :
  Forall PrintableStash (map snd items) ->
  parseStashLines (map (fun item => stashLine (fst item) (snd item)) items) s
    = (s, Returned (map snd items)).
Proof.
  induction items as [|[wip e] items IH]; intros H; [reflexivity|].
  inversion H as [|? ? H1 H2]; subst.
  cbn [map parseStashLines fst snd]. prog_step.
  rewrite (parseStashLine_stashLine wip e s H1).
  rewrite (IH H2). reflexivity.
Qed.

(** X19.  [getStashes] reads back the stashes whose fields the format can
    carry.  When the output of [git stash list --format=%gd|%gs|%ci] is one
    line per stash, with the subject [WIP on <branch>: <message>] or
    [On <branch>: <message>], and every stash has an index below [2 ^ 53],
    a branch name that is not empty and has no colon, no bar and no line
    break in its branch name, its message or its date, and a date that ends
    in a character that is not white space, then the result is the list of
    those stashes in the same order, each with its index, its message
    without the branch prefix, its branch and its date.  (A message with a
    bar in it is cut at the bar: [getStashes_bar_in_message].) *)
Theorem getStashes_reads_back (g : SimpleGit) (items : list (bool * StashEntry.t)) :
  items <> [] ->
  Forall PrintableStash (map snd items) ->
  raw g ["stash"; "list"; "--format=%gd|%gs|%ci"] = Resolved (stashListOutput items) ->
  run (getStashes (Some g)) tt =
    (mkStore tt [Raw ["stash"; "list"; "--format=%gd|%gs|%ci"]],
     Returned (map snd items)).
Proof.
  intros Hne Hp Hraw. change ["stash"; "list"; "--format=%gd|%gs|%ci"]
                        with stashListArgs in *.
  set (lines := map (fun item => stashLine (fst item) (snd item)) items).
  assert (Hlines : lines <> []) by (destruct items; [contradiction | discriminate]).
  assert (Hnl : Forall (fun line => JsText.lacks newline line = true) lines).
  { subst lines. clear Hne Hraw Hlines.
    induction items as [|[wip e] items IH]; [constructor|].
    inversion Hp; subst. constructor; [now apply stashLine_lacks_newline | now apply IH]. }
  assert (Het : Forall (fun line => endsInText line = true) lines).
  { subst lines. clear Hne Hraw Hlines Hnl.
    induction items as [|[wip e] items IH]; [constructor|].
    inversion Hp; subst. constructor; [now apply stashLine_endsInText | now apply IH]. }
  assert (Htrim : trim (stashListOutput items) = JsText.join (String newline "") lines).
  { rewrite (stashListOutput_lines items Hne). fold lines. unfold trim.
    assert (Hs : trimStart (JsText.join (String newline "") lines ++ String newline "")
                 = JsText.join (String newline "") lines ++ String newline "").
    { destruct items as [|[wip e] items]; [contradiction|].
      subst lines. cbn [map fst snd].
      destruct (map _ items); reflexivity. }
    rewrite Hs, trimEnd_app_newline.
    apply trimEnd_fixed. now apply join_endsInText. }
  unfold run, getStashes, await. prog_step. rewrite Hraw. prog_step.
  rewrite Htrim.
  assert (Ht : truthy (JsText.join (String newline "") lines) = true).
  { pose proof (join_endsInText lines Hlines Het) as H.
    destruct (JsText.join (String newline "") lines); [discriminate | reflexivity]. }
  rewrite Ht. cbn [negb app].
  change (ascii_of_N 10) with newline.
  rewrite (split_join newline lines Hlines Hnl). subst lines.
  rewrite (parseStashLines_stashLines items _ Hp). reflexivity.
Qed.

Example getStashes_bar_in_message :
  snd (run (getStashes
              (Some (withRaw
                       (fun _ => Resolved "stash@{0}|On main: try a|b|2026-01-05 10:12:44 +0100")
                       sampleGit))) tt)
  = Returned [StashEntry.mk 0 "try a" "main" (Some "b")].
Proof. reflexivity. Qed.

Lemma getStashes_reads_back_witness :
  run (getStashes (Some (withRaw (fun _ => Resolved (stashListOutput sampleStashes))
                           sampleGit))) tt
  = (mkStore tt [Raw ["stash"; "list"; "--format=%gd|%gs|%ci"]],
     Returned (map snd sampleStashes)).
Proof.
  apply (getStashes_reads_back
           (withRaw (fun _ => Resolved (stashListOutput sampleStashes)) sampleGit)
           sampleStashes).
  - discriminate.
  - repeat constructor; try discriminate;
      eexists; (split; [reflexivity|]); repeat split.
  - reflexivity.
Defined.

(* ===================================================================== *)
(** * Parsing a unified diff *)
(* ===================================================================== *)

Example parseDiff_sample :
  let d := parseDiff sampleDiff "src/app.ts" in
  StagingFileDiff.additions d = 3%N /\ StagingFileDiff.deletions d = 1%N /\
  map newNumbers (StagingFileDiff.hunks d) = [[10; 11; 12; 13]; [41; 42]]%N /\
  map oldNumbers (StagingFileDiff.hunks d) = [[10; 11; 12]; [40]]%N /\
  map StagingDiffHunk.newLines (StagingFileDiff.hunks d) = [5; 2]%N /\
  map StagingDiffHunk.oldLines (StagingFileDiff.hunks d) = [4; 1]%N /\
  StagingFileDiff.status d = StagingFileDiff.modified.
Proof. vm_compute. repeat split. Qed.

Example matchHunkHeader_carriage_return :
  matchHunkHeader ("@@ -1,2 +1,2 @@" ++ String (ascii_of_N 13) "") = None.
Proof. reflexivity. Qed.

Lemma countFrom_snoc (start : N) (len : nat) :
  countFrom start (S len) = (countFrom start len ++ [(start + N.of_nat len)%N])%list.
Proof.
  revert start; induction len as [|len IH]; intros start.
  - cbn. now rewrite N.add_0_r.
  - change (countFrom start (S (S len)))
      with (start :: countFrom (start + 1) (S len)).
    rewrite IH. cbn [countFrom app]. do 2 f_equal. f_equal. lia.
Qed.

Lemma countKind_snoc (k : StagingDiffLine.kind) (hs : list StagingDiffHunk.t)
    (h : StagingDiffHunk.t) (l : StagingDiffLine.t) :
  countKind k (hs ++ [pushLine h l]) =
    (countKind k (hs ++ [h]) + (if isKind k l then 1 else 0))%N.
Proof.
  unfold countKind. rewrite !flat_map_app. cbn [flat_map pushLine StagingDiffHunk.lines].
  rewrite !app_nil_r, !filter_app, !length_app. cbn [filter].
  destruct (isKind k l); cbn [length]; lia.
Qed.

Lemma countKind_fresh (k : StagingDiffLine.kind) (hs : list StagingDiffHunk.t)
    (header : string) (a b c d : N) :
  countKind k (hs ++ [StagingDiffHunk.mk header a b c d []]) = countKind k hs.
Proof.
  unfold countKind. rewrite flat_map_app. cbn. now rewrite !app_nil_r.
Qed.

Lemma pushLine_numbered (h : StagingDiffHunk.t) (l : StagingDiffLine.t) :
  NumberedHunk h ->
  (forall n, StagingDiffLine.newLineNumber l = Some n ->
     n = (StagingDiffHunk.newStart h + N.of_nat (length (newNumbers h)))%N) ->
  (forall n, StagingDiffLine.oldLineNumber l = Some n ->
     n = (StagingDiffHunk.oldStart h + N.of_nat (length (oldNumbers h)))%N) ->
  NumberedHunk (pushLine h l).
Proof.
  intros [Hn Ho] Hnew Hold. unfold NumberedHunk, newNumbers, oldNumbers in *.
  cbn [pushLine StagingDiffHunk.lines StagingDiffHunk.newStart StagingDiffHunk.oldStart].
  rewrite !flat_map_app. cbn [flat_map]. rewrite !app_nil_r, !length_app.
  split.
  - destruct (StagingDiffLine.newLineNumber l) as [n|].
    + cbn [length]. rewrite Nat.add_1_r, countFrom_snoc, <- Hn.
      now rewrite (Hnew n eq_refl).
    + cbn [length]. now rewrite Nat.add_0_r, app_nil_r.
  - destruct (StagingDiffLine.oldLineNumber l) as [n|].
    + cbn [length]. rewrite Nat.add_1_r, countFrom_snoc, <- Ho.
      now rewrite (Hold n eq_refl).
    + cbn [length]. now rewrite Nat.add_0_r, app_nil_r.
Qed.

Ltac range_lia := change (2 ^ 53)%N with 9007199254740992%N in *; lia.

Lemma parseDiffLine_invariant (p : DiffParser.t) (line : string)
    (remaining total : N) :
  (remaining <= total)%N ->
  headerWithinRange total line = true ->
  ParserInvariant p -> CountersBelow p (remaining + 1) ->
  ParserInvariant (parseDiffLine p line) /\ CountersBelow (parseDiffLine p line) remaining.
Proof.
  destruct p as [hs cur oldN newN adds dels bin st op].
  unfold ParserInvariant, CountersBelow, headerWithinRange, parseDiffLine.
  cbn [DiffParser.hunks DiffParser.currentHunk DiffParser.additions DiffParser.deletions
       DiffParser.newLineNum DiffParser.oldLineNum].
  intros Hle Hhead (Ha & Hd & Hall & Hcur) (Ba & Bd & Bcur).
  assert (Keep :
    (adds = countKind StagingDiffLine.add (pushCurrent hs cur) /\
     dels = countKind StagingDiffLine.delete (pushCurrent hs cur) /\
     Forall NumberedHunk hs /\
     match cur with
     | Some h =>
         NumberedHunk h /\
         newN = (StagingDiffHunk.newStart h + N.of_nat (length (newNumbers h)))%N /\
         oldN = (StagingDiffHunk.oldStart h + N.of_nat (length (oldNumbers h)))%N
     | None => True
     end) /\
    ((adds + remaining < 2 ^ 53)%N /\ (dels + remaining < 2 ^ 53)%N /\
     match cur with
     | Some _ => (newN + remaining < 2 ^ 53)%N /\ (oldN + remaining < 2 ^ 53)%N
     | None => True
     end)).
  { repeat split; try assumption; try range_lia.
    destruct cur; [split; range_lia | exact I]. }
  destruct (startsWith line "Binary files"); [exact Keep|].
  destruct (startsWith line "new file mode"); [exact Keep|].
  destruct (startsWith line "deleted file mode"); [exact Keep|].
  destruct (startsWith line "rename from "); [exact Keep|].
  destruct (matchHunkHeader line) as [[[[g1 g2] g3] g4]|].
  - apply andb_true_iff in Hhead as [H1 H3].
    apply N.ltb_lt in H1, H3.
    cbn [DiffParser.hunks DiffParser.currentHunk DiffParser.additions
         DiffParser.deletions DiffParser.newLineNum DiffParser.oldLineNum pushCurrent].
    rewrite !countKind_fresh. repeat split; try assumption; try range_lia.
    + destruct cur as [h|]; [|exact Hall].
      apply Forall_app. split; [exact Hall|]. constructor; [apply Hcur | constructor].
    + cbn. lia.
    + cbn. lia.
  - destruct cur as [h|]; [|exact Keep].
    destruct Hcur as (Hnum & Hnew & Hold). destruct Bcur as [Bn Bo].
    cbn [pushCurrent] in Ha, Hd.
    destruct (startsWith line "+" && negb (startsWith line "+++"));
      [|destruct (startsWith line "-" && negb (startsWith line "---"));
        [|destruct (startsWith line " "); [|exact Keep]]];
      cbn [DiffParser.hunks DiffParser.currentHunk DiffParser.additions
           DiffParser.deletions DiffParser.newLineNum DiffParser.oldLineNum pushCurrent];
      rewrite ?(increment_exact adds), ?(increment_exact dels),
        ?(increment_exact newN), ?(increment_exact oldN) by range_lia;
      rewrite !countKind_snoc; cbn [isKind StagingDiffLine.type];
      (split;
       [ (split; [lia|]); (split; [lia|]); (split; [exact Hall|]);
         (split; [apply pushLine_numbered;
                  [exact Hnum
                  | cbn [StagingDiffLine.newLineNumber]; intros n [= <-]; exact Hnew
                  | cbn [StagingDiffLine.oldLineNumber]; intros n [= <-]; exact Hold]|]);
         unfold newNumbers, oldNumbers in *;
         cbn [pushLine StagingDiffHunk.lines StagingDiffHunk.newStart
              StagingDiffHunk.oldStart];
         rewrite !flat_map_app, !length_app; cbn; lia
       | repeat split; range_lia ]).
Qed.

Lemma fold_parseDiffLine_invariant (lines : list string) (total : N)
    (p : DiffParser.t) :
  (N.of_nat (length lines) <= total)%N ->
  forallb (headerWithinRange total) lines = true ->
  ParserInvariant p -> CountersBelow p (N.of_nat (length lines)) ->
  ParserInvariant (fold_left parseDiffLine lines p).
Proof.
  revert p; induction lines as [|l ls IH]; intros p Hlen Hall H B; [exact H|].
  cbn [fold_left]. cbn [forallb] in Hall. apply andb_true_iff in Hall as [Hl Hls].
  cbn [length] in Hlen, B. rewrite Nat2N.inj_succ, <- N.add_1_r in Hlen, B.
  destruct (parseDiffLine_invariant p l (N.of_nat (length ls)) total) as [H' B'];
    try assumption; [lia|].
  apply IH; try assumption. lia.
Qed.

(** X20.  For a diff whose numbers stay where JavaScript counts exactly
    (the number of lines, and every start of a hunk header plus the number
    of lines, are below [2 ^ 53]), the totals of the result of [parseDiff]
    agree with the hunks: [additions] is the number of [add] lines the
    hunks hold and [deletions] the number of [delete] lines; and in every
    hunk the new-side line numbers of its lines run from [newStart] upward
    without a gap, and the old-side numbers from [oldStart]. *)
Theorem parseDiff_totals_and_numbers (diffOutput filePath : string) :
  diffWithinRange diffOutput = true ->
  let d := parseDiff diffOutput filePath in
  StagingFileDiff.additions d = countKind StagingDiffLine.add (StagingFileDiff.hunks d) /\
  StagingFileDiff.deletions d
    = countKind StagingDiffLine.delete (StagingFileDiff.hunks d) /\
  Forall NumberedHunk (StagingFileDiff.hunks d).
Proof.
  unfold diffWithinRange, parseDiff. intros Hr.
  apply andb_true_iff in Hr as [Ht Hall]. apply N.ltb_lt in Ht.
  cbn [StagingFileDiff.additions StagingFileDiff.deletions StagingFileDiff.hunks].
  set (p := fold_left parseDiffLine _ _).
  assert (H : ParserInvariant p).
  { apply fold_parseDiffLine_invariant
      with (total := N.of_nat (length (JsText.split (ascii_of_N 10) diffOutput)));
      [lia | exact Hall | |].
    - unfold ParserInvariant. cbn. repeat split. constructor.
    - unfold CountersBelow. cbn [DiffParser.additions DiffParser.deletions
                                   DiffParser.currentHunk].
      repeat split; lia. }
  destruct H as (Ha & Hd & Hall' & Hcur).
  repeat split; try assumption.
  destruct (DiffParser.currentHunk p) as [h|]; cbn [pushCurrent]; [|exact Hall'].
  apply Forall_app. split; [exact Hall'|]. constructor; [apply Hcur | constructor].
Qed.

Lemma parseDiff_totals_and_numbers_witness :
  let d := parseDiff sampleDiff "src/app.ts" in
  StagingFileDiff.additions d = countKind StagingDiffLine.add (StagingFileDiff.hunks d) /\
  StagingFileDiff.deletions d
    = countKind StagingDiffLine.delete (StagingFileDiff.hunks d) /\
  Forall NumberedHunk (StagingFileDiff.hunks d).
Proof.
  apply (parseDiff_totals_and_numbers sampleDiff "src/app.ts").
  vm_compute. reflexivity.
Defined.

(** Outside that range the numbers of a hunk stall: a hunk that starts at
    [2 ^ 53] on the new side shows the same number on both of its lines. *)
Example parseDiff_numbers_stall :
  diffWithinRange farDiff = false /\
  map newNumbers (StagingFileDiff.hunks (parseDiff farDiff "a.txt"))
    = [[9007199254740992; 9007199254740992]]%N.
Proof. vm_compute. split; reflexivity. Qed.

Lemma matchHunkHeader_starts (line : string) (m : string * option string * string * option string) :
  matchHunkHeader line = Some m -> exists rest, line = "@@ -" ++ rest.
Proof.
  unfold matchHunkHeader.
  destruct (stripPrefix "@@ -" line) as [r0|] eqn:E; [|discriminate].
  intros _. exists r0. now apply stripPrefix_Some.
Qed.

Lemma parseDiffLine_headers (p : DiffParser.t) (line : string) :
  map StagingDiffHunk.header
      (pushCurrent (DiffParser.hunks (parseDiffLine p line))
                   (DiffParser.currentHunk (parseDiffLine p line)))
  = (map StagingDiffHunk.header (pushCurrent (DiffParser.hunks p) (DiffParser.currentHunk p))
     ++ (if isHunkHeader line then [line] else []))%list.
Proof.
  destruct p as [hs cur oldN newN adds dels bin st op].
  unfold isHunkHeader, parseDiffLine.
  destruct (matchHunkHeader line) as [[[[g1 g2] g3] g4]|] eqn:Em.
  - destruct (matchHunkHeader_starts _ _ Em) as [rest ->].
    cbn [startsWith append Ascii.eqb Bool.eqb andb].
    cbn [DiffParser.hunks DiffParser.currentHunk pushCurrent].
    now rewrite map_app.
  - cbn [DiffParser.hunks DiffParser.currentHunk].
    rewrite app_nil_r.
    destruct (startsWith line "Binary files"); [reflexivity|].
    destruct (startsWith line "new file mode"); [reflexivity|].
    destruct (startsWith line "deleted file mode"); [reflexivity|].
    destruct (startsWith line "rename from "); [reflexivity|].
    destruct cur as [h|]; [|reflexivity].
    destruct (startsWith line "+" && negb (startsWith line "+++"));
      [|destruct (startsWith line "-" && negb (startsWith line "---"));
        [|destruct (startsWith line " ")]];
      cbn [DiffParser.hunks DiffParser.currentHunk pushCurrent];
      rewrite !map_app; reflexivity.
Qed.

Lemma fold_parseDiffLine_headers (lines : list string) (p : DiffParser.t) :
  let q := fold_left parseDiffLine lines p in
  map StagingDiffHunk.header (pushCurrent (DiffParser.hunks q) (DiffParser.currentHunk q))
  = (map StagingDiffHunk.header (pushCurrent (DiffParser.hunks p) (DiffParser.currentHunk p))
     ++ filter isHunkHeader lines)%list.
Proof.
  revert p; induction lines as [|l ls IH]; intros p; cbn [fold_left filter].
  - now rewrite app_nil_r.
  - cbn zeta in IH. rewrite IH, parseDiffLine_headers, <- app_assoc.
    destruct (isHunkHeader l); reflexivity.
Qed.

(** X21.  [parseDiff] makes one hunk for every hunk header line of the
    diff, in the order of the lines, and keeps that line as the [header]
    of the hunk; a diff without such a line (a binary file, a mode change)
    has no hunks. *)
Theorem parseDiff_one_hunk_per_header (diffOutput filePath : string) :
  map StagingDiffHunk.header (StagingFileDiff.hunks (parseDiff diffOutput filePath))
  = filter isHunkHeader (JsText.split (ascii_of_N 10) diffOutput).
Proof.
  unfold parseDiff. cbn [StagingFileDiff.hunks].
  now rewrite (fold_parseDiffLine_headers _ _).
Qed.

(* ===================================================================== *)
(** * More on the default branch and on context creation *)
(* ===================================================================== *)

(** X22.  When the remote advertises a HEAD branch, [getDefaultBranch]
    returns it after the single command [remote show origin], without
    listing the local branches; the name returned is not empty, contains
    no white space, and stands right after [HEAD branch: ] in the output of
    that command. *)
Theorem getDefaultBranch_remote_head (g : SimpleGit) (head : string) :
  advertisedHead g = Some head ->
  run (getDefaultBranch g) tt
    = (mkStore tt [Remote ["show"; "origin"]], Returned head) /\
  head <> "" /\ noWhiteSpace head = true /\
  exists remoteInfo,
    remote g ["show"; "origin"] = Resolved (Some remoteInfo) /\
    Occurs ("HEAD branch: " ++ head) remoteInfo.
Proof.
  intros H. split.
  - unfold run. rewrite getDefaultBranch_run.
    unfold defaultBranchCalls, defaultBranchOf. now rewrite H.
  - destruct (advertisedHead_sound g head H) as (info & Hi & Hne & Hw & Ho).
    repeat split; try assumption. now exists info.
Qed.

Lemma getDefaultBranch_remote_head_witness :
  run (getDefaultBranch sampleGit) tt
    = (mkStore tt [Remote ["show"; "origin"]], Returned "develop").
Proof.
  apply (getDefaultBranch_remote_head sampleGit "develop"). reflexivity.
Defined.

(** X23.  [createRepositoryContext] only reads: whatever the factory and
    the repository answer, every command it issues is one of five queries,
    the repository check, [rev-parse --show-toplevel], the verbose list of
    remotes, [remote show origin] and the list of local branches; it never
    fetches, pulls, stashes, rebases or commits. *)
Theorem createRepositoryContext_only_reads (simpleGit : string -> Outcome SimpleGit)
    (basename : string -> string) (uuidv4 : string) (now : N) (repoPath : string)
    (c : GitCall) :
  In c (issued (fst (callCreate simpleGit basename uuidv4 now repoPath))) ->
  In c [CheckIsRepo; Revparse ["--show-toplevel"]; GetRemotes true;
        Remote ["show"; "origin"]; BranchLocal].
Proof.
  destruct (simpleGit repoPath) as [g|e0] eqn:Hg;
    [|rewrite (createRepositoryContext_no_directory _ _ _ _ _ _ Hg); intros []].
  destruct (checkIsRepo g) as [[|]|e] eqn:Hrepo.
  - destruct (revparse g ["--show-toplevel"]) as [root|e] eqn:Hroot.
    + rewrite (createRepositoryContext_in_repo _ _ _ _ _ _ _ Hg Hrepo Hroot).
      unfold defaultBranchCalls. cbn [fst issued app].
      destruct (advertisedHead g); cbn [In]; intuition.
    + unfold callCreate, run, createRepositoryContext, await, sync.
      prog_step. rewrite Hg. prog_step. rewrite Hrepo. prog_step. rewrite Hroot.
      cbn. intuition.
  - rewrite (createRepositoryContext_not_a_repo _ _ _ _ _ _ Hg Hrepo). cbn. intuition.
  - unfold callCreate, run, createRepositoryContext, await, sync.
    prog_step. rewrite Hg. prog_step. rewrite Hrepo. cbn. intuition.
Qed.

Lemma createRepositoryContext_only_reads_witness :
  In (Remote ["show"; "origin"])
     [CheckIsRepo; Revparse ["--show-toplevel"]; GetRemotes true;
      Remote ["show"; "origin"]; BranchLocal].
Proof.
  apply (createRepositoryContext_only_reads (everywhere sampleGit) (fun p => p)
           "id-1" 0 "/home/me/ledger/src" (Remote ["show"; "origin"])).
  cbn. tauto.
Defined.
